(** * FSM chatbot demo: session coordination protocol

    A shallow embedding of the Python sources
    - [src/models.py]     (SessionState, VALID_TRANSITIONS, Message, Session, StreamEvent)
    - [src/database.py]   (InMemoryDatabase)
    - [src/broker.py]     (InMemoryBroker)
    - [src/interfaces.py] (IMessageBroker)
    - [src/fsm.py]        (ChatFSM)
    - [src/ai_service.py] (AIService)
    and the properties of the specification that concern them.

    Modelling conventions.
    - Python objects that are shared by reference (Session objects, asyncio
      queues) live in an explicit heap and are addressed by location; the
      InMemoryDatabase dictionary holds locations, exactly as the Python
      dictionary holds references.
    - A coroutine is a state transformer that returns an outcome: a value,
      a raised Python exception, or [Stuck] (no Python counterpart: a
      dangling location or an exhausted loop budget).  State changes made
      before an exception is raised are kept, as in Python.  Coroutines run
      one after the other; the locks, never contended then, are left out,
      and so is logging.  [EventLoop] has the worker among the other tasks
      of the event loop: what is served, or a cancellation, while it
      sleeps between two tokens.
    - [except Exception] catches the exceptions that are instances of
      [Exception]; [asyncio.CancelledError] is not one.
    - ChatFSM and AIService are written against [IMessageBroker], a type
      class here, with InMemoryBroker as an instance.  The database is its
      one implementation, InMemoryDatabase, which hands out the stored
      objects themselves.
    - [uuid.uuid4()] and [datetime.utcnow()] are read from oracles
      ([uuid_at], [utcnow_at]) indexed by the number of calls made so far.
    - The event-loop clock is a rational number of seconds;
      [asyncio.sleep d] advances it by [d].  [Polling] has
      [dequeue_session] on the clock Python reads: binary64 readings of a
      clock that moves by itself, a binary64 timeout.
    - A Python [str] is a [string]; only ASCII letter case and ASCII
      white space are interpreted: the functions of [PyStr] are those of
      Python on the strings of ASCII characters ([PyStr.isascii]).

    The file has the definitions first (strings, models, coroutines,
    broker, process state, database, state machine, worker, sample runs),
    then the properties: invariants of the heap of sessions, the work
    queue, the event channels, runs of the state machine, and last the
    claims C1 to C10 of the specification. *)

From Stdlib Require Import Ascii QArith Qround Lqa SpecFloat.
From stdpp Require Import gmap strings list pretty.

Local Open Scope string_scope.
Local Open Scope list_scope.

(* ===================================================================== *)
(** * Python strings                                                     *)
(* ===================================================================== *)

Module PyStr.

(** [needle in hay] on Python strings. *)
Fixpoint contains (needle hay : string) : bool :=
  String.prefix needle hay ||
  match hay with
  | EmptyString => false
  | String _ hay' => contains needle hay'
  end.

(** [str.isascii]: every character is below U+0080.  On such strings the
    functions of this module are those of Python. *)
Fixpoint isascii (s : string) : bool :=
  match s with
  | EmptyString => true
  | String c s' => (nat_of_ascii c <? 128)%nat && isascii s'
  end.

(** [str.isspace] on one ASCII character: tab, line feed, vertical tab,
    form feed, carriage return, the four separators 28..31, and space. *)
Definition isspace (c : ascii) : bool :=
  let n := nat_of_ascii c in
  ((9 <=? n)%nat && (n <=? 13)%nat) || ((28 <=? n)%nat && (n <=? 32)%nat).

(** [str.lower] on one ASCII character. *)
Definition lower_ascii (c : ascii) : ascii :=
  let n := nat_of_ascii c in
  if ((65 <=? n)%nat && (n <=? 90)%nat) then ascii_of_nat (n + 32) else c.

Fixpoint lower (s : string) : string :=
  match s with
  | EmptyString => EmptyString
  | String c s' => String (lower_ascii c) (lower s')
  end.

(** [str.split()] with no argument: the maximal runs of characters that
    are not white space, in order.  [cur] is the word being read. *)
Fixpoint split_from (cur : string) (s : string) : list string :=
  match s with
  | EmptyString => if String.eqb cur EmptyString then [] else [cur]
  | String c s' =>
      if isspace c
      then (if String.eqb cur EmptyString then split_from EmptyString s'
            else cur :: split_from EmptyString s')
      else split_from (cur +:+ String c EmptyString) s'
  end.

Definition split (s : string) : list string := split_from EmptyString s.

(** [sep.join(words)]. *)
Fixpoint join (sep : string) (words : list string) : string :=
  match words with
  | [] => EmptyString
  | [w] => w
  | w :: ws => w +:+ sep +:+ join sep ws
  end.

(** Truth value of a string, and of an [Optional[str]]. *)
Definition truthy (s : string) : bool := negb (String.eqb s EmptyString).

Definition truthy_opt (o : option string) : bool :=
  match o with
  | Some s => truthy s
  | None => false
  end.

(** [repr] of a list of strings that need no escaping:
    ['a', 'b'] with a comma and a space between the items. *)
Definition repr_str (s : string) : string := "'" +:+ s +:+ "'".

Definition repr_list (l : list string) : string :=
  "[" +:+ join ", " (map repr_str l) +:+ "]".

(** Concatenation of a list of strings. *)
Definition concat (l : list string) : string := fold_right String.append EmptyString l.

End PyStr.

(* ===================================================================== *)
(** * src/models.py                                                      *)
(* ===================================================================== *)

Inductive SessionState : Type :=
| IDLE
| USER_WRITING
| USER_COMMITTED
| AI_GENERATING
| AI_COMMITTED
| ERROR
| TIMEOUT.

#[global] Instance SessionState_eq_dec : EqDecision SessionState.
Proof. solve_decision. Defined.

(** [SessionState.value] *)
Definition value (s : SessionState) : string :=
  match s with
  | IDLE => "idle"
  | USER_WRITING => "user_writing"
  | USER_COMMITTED => "user_committed"
  | AI_GENERATING => "ai_generating"
  | AI_COMMITTED => "ai_committed"
  | ERROR => "error"
  | TIMEOUT => "timeout"
  end.

(** The dictionary [VALID_TRANSITIONS]; every state is a key. *)
Definition VALID_TRANSITIONS (s : SessionState) : list SessionState :=
  match s with
  | IDLE => [USER_WRITING; TIMEOUT]
  | USER_WRITING => [USER_COMMITTED; ERROR]
  | USER_COMMITTED => [AI_GENERATING; ERROR]
  | AI_GENERATING => [AI_COMMITTED; ERROR]
  | AI_COMMITTED => [IDLE]
  | ERROR => [IDLE]
  | TIMEOUT => [IDLE]
  end.

(** A reading of the wall clock. *)
Definition datetime : Type := Z.

Record Message : Type := mkMessage {
  m_id : string;
  role : string;
  content : string;
  timestamp : datetime
}.

Record Session : Type := mkSession {
  s_id : string;
  user_id : string;
  state : SessionState;
  messages : list Message;
  created_at : datetime;
  updated_at : datetime;
  error_message : option string;
  retry_count : Z
}.

Record StreamEvent : Type := mkStreamEvent {
  event_type : string;
  data : string
}.

#[global] Instance StreamEvent_eq_dec : EqDecision StreamEvent.
Proof. solve_decision. Defined.

(** Python exceptions.  The sources raise [ValueError] only; [queue.Empty]
    is raised by [Queue.get_nowait]; [OtherError] stands for any other
    subclass of [Exception] a collaborator may raise.  [CancelledError] is
    [asyncio.CancelledError], raised at an [await] of a task that is being
    cancelled; it is a [BaseException] that is not an [Exception], and
    stands here for all of these. *)
Inductive exn : Type :=
| ValueError (msg : string)
| Empty
| OtherError (msg : string)
| CancelledError.

(** [str(e)] *)
Definition str (e : exn) : string :=
  match e with
  | ValueError msg => msg
  | Empty => EmptyString
  | OtherError msg => msg
  | CancelledError => EmptyString
  end.

(** [isinstance(e, Exception)] *)
Definition is_Exception (e : exn) : bool :=
  match e with
  | CancelledError => false
  | _ => true
  end.

Inductive outcome (A : Type) : Type :=
| Ok (a : A)
| Raise (e : exn)
| Stuck.
Arguments Ok {A} a.
Arguments Raise {A} e.
Arguments Stuck {A}.

(** [Session.add_message]; [now] is the value of [datetime.utcnow()]. *)
Definition add_message (now : datetime) (message : Message) (self : Session) : Session :=
  {| s_id := s_id self; user_id := user_id self; state := state self;
     messages := (messages self ++ [message])%list;
     created_at := created_at self; updated_at := now;
     error_message := error_message self; retry_count := retry_count self |}.

(** The message of the [ValueError] raised by [Session.update_state]. *)
Definition invalid_transition_msg (cur new_state : SessionState) : string :=
  "Invalid state transition: " +:+ value cur +:+ " -> " +:+ value new_state +:+ ". " +:+
  "Valid transitions: " +:+ PyStr.repr_list (map value (VALID_TRANSITIONS cur)).

(** [Session.update_state]; [now] is read only after the validation. *)
Definition update_state (now : datetime) (new_state : SessionState)
    (error_msg : option string) (self : Session) : outcome Session :=
  let valid_next_states := VALID_TRANSITIONS (state self) in
  if bool_decide (new_state ∈ valid_next_states) then
    Ok {| s_id := s_id self; user_id := user_id self;
          state := new_state;
          messages := messages self;
          created_at := created_at self;
          updated_at := now;
          error_message :=
            if PyStr.truthy_opt error_msg then error_msg
            else if bool_decide (new_state ≠ ERROR) then None
            else error_message self;
          retry_count := retry_count self |}
  else Raise (ValueError (invalid_transition_msg (state self) new_state)).

(** [StreamEvent.to_sse_format] *)
Definition to_sse_format (e : StreamEvent) : string :=
  "event: " +:+ event_type e +:+ String "010" ("data: " +:+ data e +:+ String "010" (String "010" EmptyString)).

(* ===================================================================== *)
(** * Coroutines as state transformers with exceptions                   *)
(* ===================================================================== *)

Definition M (S A : Type) : Type := S -> outcome A * S.

Section Coroutines.
Context {S : Type}.

Definition ret {A : Type} (a : A) : M S A := fun s => (Ok a, s).

Definition bind {A C : Type} (m : M S A) (k : A -> M S C) : M S C :=
  fun s =>
    match m s with
    | (Ok a, s') => k a s'
    | (Raise e, s') => (Raise e, s')
    | (Stuck, s') => (Stuck, s')
    end.

(** [raise e] *)
Definition raise {A : Type} (e : exn) : M S A := fun s => (Raise e, s).

Definition stuck {A : Type} : M S A := fun s => (Stuck, s).

(** [try: m  except Exception as e: handler e]; an exception that is not
    an [Exception] is not caught. *)
Definition try_except {A : Type} (m : M S A) (handler : exn -> M S A) : M S A :=
  fun s =>
    match m s with
    | (Raise e, s') => if is_Exception e then handler e s' else (Raise e, s')
    | r => r
    end.

Definition gets {A : Type} (f : S -> A) : M S A := fun s => (Ok (f s), s).

Definition modify (f : S -> S) : M S unit := fun s => (Ok tt, f s).

(** [for x in l: body x] *)
Fixpoint for_each {A : Type} (l : list A) (body : A -> M S unit) : M S unit :=
  match l with
  | [] => ret tt
  | x :: l' => bind (body x) (fun _ => for_each l' body)
  end.

End Coroutines.

Declare Scope coroutine_scope.
Delimit Scope coroutine_scope with coroutine.
Notation "x <- m ;; k" := (bind m (fun x => k))
  (at level 100, m at next level, right associativity) : coroutine_scope.
Notation "m ;; k" := (bind m (fun _ => k))
  (at level 100, right associativity) : coroutine_scope.
Local Open Scope coroutine_scope.

(** [enumerate(l)] *)
Definition enumerate {A : Type} (l : list A) : list (nat * A) :=
  zip (seq 0 (length l)) l.

(** A location in a heap of Python objects. *)
Abbreviation loc := nat (only parsing).

(* ===================================================================== *)
(** * src/interfaces.py: IMessageBroker                                  *)
(* ===================================================================== *)

(** Every method is a coroutine on the event loop: it sees the loop clock
    (seconds) and the broker's own state.  [dequeue_session] takes, before
    its timeout, the number of loop iterations it may use. *)
Class IMessageBroker (B : Type) : Type := {
  enqueue_session : string -> M (Q * B) unit;
  dequeue_session : nat -> Q -> M (Q * B) (option string);
  send_event : string -> StreamEvent -> M (Q * B) unit;
  get_session_events : string -> M (Q * B) loc;
  cleanup_session_queue : string -> M (Q * B) unit
}.

(** [asyncio.sleep(d)] seen from a broker coroutine. *)
Definition loop_sleep {B : Type} (d : Q) : M (Q * B) unit :=
  modify (fun tb => (fst tb + d, snd tb)%Q).

(** [asyncio.get_event_loop().time()] *)
Definition loop_now {B : Type} : M (Q * B) Q := gets fst.

(* ===================================================================== *)
(** * src/broker.py: InMemoryBroker                                      *)
(* ===================================================================== *)

Module InMemoryBroker.

(** [_work_queue] is the [queue.Queue] of session ids, oldest first.
    [_session_queues] maps a session id to a reference to an
    [asyncio.Queue]; [queues] is the heap of those queue objects, each
    with its pending events, oldest first. *)
Record t : Type := mk {
  _work_queue : list string;
  _session_queues : gmap string loc;
  queues : list (list StreamEvent)
}.

(** [InMemoryBroker()] *)
Definition init : t := mk [] ∅ [].

Definition lift {A : Type} (m : M t A) : M (Q * t) A :=
  fun tb => let '(r, b) := m (snd tb) in (r, (fst tb, b)).

(** [self._work_queue.put(session_id)] on an unbounded queue. *)
Definition enqueue_session (session_id : string) : M (Q * t) unit :=
  lift (modify (fun b => mk ((_work_queue b ++ [session_id])%list) (_session_queues b) (queues b))).

(** [self._work_queue.get_nowait()] *)
Definition get_nowait : M (Q * t) string :=
  lift (fun b =>
    match _work_queue b with
    | [] => (Raise Empty, b)
    | x :: rest => (Ok x, mk rest (_session_queues b) (queues b))
    end).

(** One pass through the body of the [while] loop:
    [try: return self._work_queue.get_nowait()
     except Empty: await asyncio.sleep(0.1)].
    [Some x] when the loop returns [x], [None] when it goes round again. *)
Definition try_get_nowait : M (Q * t) (option string) :=
  try_except (x <- get_nowait ;; ret (Some x))
    (fun e => match e with
              | Empty => (loop_sleep 0.1 ;; ret None)
              | _ => raise e
              end).

(** The [while] loop of [dequeue_session]; [fuel] bounds the number of
    iterations, [Stuck] when it is used up. *)
Fixpoint dequeue_loop (fuel : nat) (deadline : Q) : M (Q * t) (option string) :=
  match fuel with
  | O => stuck
  | Datatypes.S fuel' =>
      now <- loop_now ;;
      if Qlt_le_dec now deadline then
        (r <- try_get_nowait ;;
         match r with
         | Some x => ret (Some x)
         | None => dequeue_loop fuel' deadline
         end)
      else ret None
  end.

Definition dequeue_session (fuel : nat) (timeout : Q) : M (Q * t) (option string) :=
  try_except
    (now <- loop_now ;;
     let deadline := (now + timeout)%Q in
     dequeue_loop fuel deadline)
    (fun _ => ret None).

(** [asyncio.Queue()] *)
Definition new_queue : M t loc :=
  fun b => (Ok (length (queues b)),
            mk (_work_queue b) (_session_queues b) ((queues b ++ [[]])%list)).

(** [q.put(event)] on an unbounded queue. *)
Definition put (q : loc) (event : StreamEvent) : M t unit :=
  fun b =>
    match queues b !! q with
    | Some evs => (Ok tt, mk (_work_queue b) (_session_queues b) (<[q := (evs ++ [event])%list]> (queues b)))
    | None => (Stuck, b)
    end.

Definition register (session_id : string) (q : loc) : M t unit :=
  modify (fun b => mk (_work_queue b) (<[session_id := q]> (_session_queues b)) (queues b)).

(** [if session_id not in self._session_queues:
       self._session_queues[session_id] = asyncio.Queue()],
    then the queue registered for [session_id]. *)
Definition queue_for (session_id : string) : M t loc :=
  registered <- gets (fun b => _session_queues b !! session_id) ;;
  match registered with
  | Some q => ret q
  | None => q <- new_queue ;; register session_id q ;; ret q
  end.

Definition send_event (session_id : string) (event : StreamEvent) : M (Q * t) unit :=
  lift (q <- queue_for session_id ;; put q event).

Definition get_session_events (session_id : string) : M (Q * t) loc :=
  lift (queue_for session_id).

Definition cleanup_session_queue (session_id : string) : M (Q * t) unit :=
  lift (modify (fun b => mk (_work_queue b) (delete session_id (_session_queues b)) (queues b))).

(** The events pending in the channel of [session_id]: the content of
    the queue object registered for it, nothing when none is. *)
Definition channel (session_id : string) (b : t) : list StreamEvent :=
  match _session_queues b !! session_id with
  | Some q => default [] (queues b !! q)
  | None => []
  end.

End InMemoryBroker.

#[global] Instance InMemoryBroker_IMessageBroker : IMessageBroker InMemoryBroker.t := {
  enqueue_session := InMemoryBroker.enqueue_session;
  dequeue_session := InMemoryBroker.dequeue_session;
  send_event := InMemoryBroker.send_event;
  get_session_events := InMemoryBroker.get_session_events;
  cleanup_session_queue := InMemoryBroker.cleanup_session_queue
}.

(* ===================================================================== *)
(** * The process state                                                  *)
(* ===================================================================== *)

(** [heap] holds the Session objects; [_sessions] is the dictionary of the
    InMemoryDatabase (session id to object reference); [broker] is the
    state of the message broker; [loop_time] the clock of the event loop;
    [uuid_calls] and [utcnow_calls] count the calls made to [uuid.uuid4]
    and [datetime.utcnow].  [history] is a ghost field: the log of the
    values given to [Session.state], as (object, state), oldest first, one
    entry when the object is built and one for each assignment; no
    operation reads it. *)
Record World (B : Type) : Type := mkWorld {
  heap : list Session;
  _sessions : gmap string loc;
  broker : B;
  loop_time : Q;
  uuid_calls : nat;
  utcnow_calls : nat;
  history : list (loc * SessionState)
}.
Arguments mkWorld {B}.
Arguments heap {B}.
Arguments _sessions {B}.
Arguments broker {B}.
Arguments loop_time {B}.
Arguments uuid_calls {B}.
Arguments utcnow_calls {B}.
Arguments history {B}.

Definition set_heap {B} (h : list Session) (w : World B) : World B :=
  mkWorld h (_sessions w) (broker w) (loop_time w) (uuid_calls w) (utcnow_calls w) (history w).

Definition set_sessions {B} (d : gmap string loc) (w : World B) : World B :=
  mkWorld (heap w) d (broker w) (loop_time w) (uuid_calls w) (utcnow_calls w) (history w).

Definition set_loop {B} (tb : Q * B) (w : World B) : World B :=
  mkWorld (heap w) (_sessions w) (snd tb) (fst tb) (uuid_calls w) (utcnow_calls w) (history w).

(** A process that has just started: no object, an empty database. *)
Definition init_world {B} (b : B) (t : Q) : World B := mkWorld [] ∅ b t 0 0 [].

(** The states the object [ref] has passed through, oldest first. *)
Definition states_of {B} (ref : loc) (w : World B) : list SessionState :=
  map snd (filter (fun e => fst e = ref) (history w)).

(** [walk_from a l]: every step of the sequence [a :: l] is an edge of
    [VALID_TRANSITIONS]. *)
Fixpoint walk_from (a : SessionState) (l : list SessionState) : bool :=
  match l with
  | [] => true
  | b :: l' => bool_decide (b ∈ VALID_TRANSITIONS a) && walk_from b l'
  end.

(** The session stored under [session_id], if any. *)
Definition stored_session {B} (w : World B) (session_id : string) : option Session :=
  ref ← _sessions w !! session_id; heap w !! ref.

Inductive op : Type :=
| HandleUserMessage (user message_content : string) (session_id : option string)
| StartAiGeneration (session_id : string)
| CommitAiMessage (session_id message_content : string)
| MarkError (session_id error_message : string)
| ProcessSession (session_id : string)
| ProcessLoop (fuel : nat)
| DeleteSession (session_id : string)
| GetSessionEvents (session_id : string)
| CleanupSessionQueue (session_id : string).

Section System.
Context {B : Type} `{!IMessageBroker B}.

(** The oracles: the [n]-th value returned by [str(uuid.uuid4())] and by
    [datetime.utcnow()]. *)
Variable uuid_at : nat -> string.
Variable utcnow_at : nat -> datetime.

Definition uuid4 : M (World B) string :=
  fun w => (Ok (uuid_at (uuid_calls w)),
            mkWorld (heap w) (_sessions w) (broker w) (loop_time w)
                    (S (uuid_calls w)) (utcnow_calls w) (history w)).

Definition utcnow : M (World B) datetime :=
  fun w => (Ok (utcnow_at (utcnow_calls w)),
            mkWorld (heap w) (_sessions w) (broker w) (loop_time w)
                    (uuid_calls w) (S (utcnow_calls w)) (history w)).

(** A call of a broker method from a coroutine of the process. *)
Definition lift_broker {A : Type} (m : M (Q * B) A) : M (World B) A :=
  fun w => let '(r, tb) := m (loop_time w, broker w) in (r, set_loop tb w).

(** [await asyncio.sleep(d)] *)
Definition asyncio_sleep (d : Q) : M (World B) unit :=
  lift_broker (loop_sleep d).

(** Reading the object behind a reference. *)
Definition deref (ref : loc) : M (World B) Session :=
  fun w => match heap w !! ref with
           | Some s => (Ok s, w)
           | None => (Stuck, w)
           end.

(** Building a new Session object. *)
Definition new_Session (s : Session) : M (World B) loc :=
  fun w => (Ok (length (heap w)),
            mkWorld (heap w ++ [s])%list (_sessions w) (broker w) (loop_time w)
                    (uuid_calls w) (utcnow_calls w)
                    (history w ++ [(length (heap w), state s)])%list).

(** [session.add_message(message)] *)
Definition call_add_message (session : loc) (message : Message) : M (World B) unit :=
  self <- deref session ;;
  now <- utcnow ;;
  modify (fun w => set_heap (<[session := add_message now message self]> (heap w)) w).

(** [session.update_state(new_state, error_msg)] *)
Definition call_update_state (session : loc) (new_state : SessionState)
    (error_msg : option string) : M (World B) unit :=
  fun w =>
    match heap w !! session with
    | None => (Stuck, w)
    | Some self =>
        match update_state (utcnow_at (utcnow_calls w)) new_state error_msg self with
        | Ok self' =>
            (Ok tt,
             mkWorld (<[session := self']> (heap w)) (_sessions w) (broker w) (loop_time w)
                     (uuid_calls w) (S (utcnow_calls w))
                     (history w ++ [(session, new_state)])%list)
        | Raise e => (Raise e, w)
        | Stuck => (Stuck, w)
        end
    end.

(** [session.retry_count += 1] *)
Definition incr_retry_count (session : loc) : M (World B) unit :=
  self <- deref session ;;
  modify (fun w => set_heap
    (<[session := mkSession (s_id self) (user_id self) (state self) (messages self)
                    (created_at self) (updated_at self) (error_message self)
                    (retry_count self + 1)%Z]> (heap w)) w).

(* ------------------------------------------------------------------- *)
(** ** src/database.py: InMemoryDatabase                               *)
(* ------------------------------------------------------------------- *)

Definition get_session (session_id : string) : M (World B) (option loc) :=
  gets (fun w => _sessions w !! session_id).

Definition create_session (session : loc) : M (World B) unit :=
  self <- deref session ;;
  present <- gets (fun w => bool_decide (is_Some (_sessions w !! s_id self))) ;;
  if present : bool
  then raise (ValueError ("Session " +:+ s_id self +:+ " already exists"))
  else modify (fun w => set_sessions (<[s_id self := session]> (_sessions w)) w).

Definition update_session (session : loc) : M (World B) unit :=
  self <- deref session ;;
  present <- gets (fun w => bool_decide (is_Some (_sessions w !! s_id self))) ;;
  if present : bool
  then modify (fun w => set_sessions (<[s_id self := session]> (_sessions w)) w)
  else raise (ValueError ("Session " +:+ s_id self +:+ " not found")).

Definition delete_session (session_id : string) : M (World B) unit :=
  modify (fun w => set_sessions (delete session_id (_sessions w)) w).

(* ------------------------------------------------------------------- *)
(** ** src/fsm.py: ChatFSM                                             *)
(* ------------------------------------------------------------------- *)

(** The first step of [handle_user_message]: get or create the session. *)
Definition get_or_create (user : string) (session_id : option string) : M (World B) loc :=
  if PyStr.truthy_opt session_id then
    let sid := default EmptyString session_id in
    (session <- get_session sid ;;
     match session with
     | None => raise (ValueError ("Session " +:+ sid +:+ " not found"))
     | Some session =>
         self <- deref session ;;
         if negb (String.eqb (user_id self) user)
         then raise (ValueError ("Session " +:+ sid +:+ " does not belong to user " +:+ user))
         else ret session
     end)
  else
    (new_id <- uuid4 ;;
     created <- utcnow ;;
     updated <- utcnow ;;
     session <- new_Session (mkSession new_id user IDLE [] created updated None 0) ;;
     create_session session ;;
     ret session).

Definition cannot_accept_msg (cur : SessionState) : string :=
  "Cannot accept message in state " +:+ value cur +:+ ". " +:+
  "Session must be IDLE or AI_COMMITTED.".

Definition handle_user_message (user message_content : string)
    (session_id : option string) : M (World B) loc :=
  session <- get_or_create user session_id ;;
  self <- deref session ;;
  if negb (bool_decide (state self ∈ [IDLE; AI_COMMITTED])) then
    raise (ValueError (cannot_accept_msg (state self)))
  else
    try_except
      (call_update_state session USER_WRITING None ;;
       update_session session ;;
       msg_id <- uuid4 ;;
       now <- utcnow ;;
       let user_msg := mkMessage msg_id "user" message_content now in
       call_add_message session user_msg ;;
       call_update_state session USER_COMMITTED None ;;
       update_session session ;;
       self <- deref session ;;
       lift_broker (enqueue_session (s_id self)) ;;
       ret session)
      (fun e =>
         call_update_state session ERROR (Some (str e)) ;;
         update_session session ;;
         raise e).

Definition cannot_start_msg (cur : SessionState) : string :=
  "Cannot start AI generation in state " +:+ value cur +:+ ". " +:+
  "Expected USER_COMMITTED.".

Definition start_ai_generation (session_id : string) : M (World B) loc :=
  session <- get_session session_id ;;
  match session with
  | None => raise (ValueError ("Session " +:+ session_id +:+ " not found"))
  | Some session =>
      self <- deref session ;;
      if bool_decide (state self ≠ USER_COMMITTED) then
        raise (ValueError (cannot_start_msg (state self)))
      else
        (call_update_state session AI_GENERATING None ;;
         update_session session ;;
         ret session)
  end.

Definition cannot_commit_msg (cur : SessionState) : string :=
  "Cannot commit AI message in state " +:+ value cur +:+ ". " +:+
  "Expected AI_GENERATING.".

Definition commit_ai_message (session_id message_content : string) : M (World B) loc :=
  session <- get_session session_id ;;
  match session with
  | None => raise (ValueError ("Session " +:+ session_id +:+ " not found"))
  | Some session =>
      self <- deref session ;;
      if bool_decide (state self ≠ AI_GENERATING) then
        raise (ValueError (cannot_commit_msg (state self)))
      else
        (msg_id <- uuid4 ;;
         now <- utcnow ;;
         let ai_msg := mkMessage msg_id "assistant" message_content now in
         call_add_message session ai_msg ;;
         call_update_state session AI_COMMITTED None ;;
         update_session session ;;
         call_update_state session IDLE None ;;
         update_session session ;;
         ret session)
  end.

Definition mark_error (session_id error_message : string) : M (World B) loc :=
  session <- get_session session_id ;;
  match session with
  | None => raise (ValueError ("Session " +:+ session_id +:+ " not found"))
  | Some session =>
      call_update_state session ERROR (Some error_message) ;;
      incr_retry_count session ;;
      update_session session ;;
      ret session
  end.

(* ------------------------------------------------------------------- *)
(** ** src/ai_service.py: AIService                                    *)
(* ------------------------------------------------------------------- *)

Definition _generate_mock_response (user_message : string) : string :=
  let user_lower := PyStr.lower user_message in
  if PyStr.contains "hello" user_lower || PyStr.contains "hi" user_lower then
    "Hello! I'm a mock AI assistant. How can I help you today?"
  else if PyStr.contains "how are you" user_lower then
    "I'm doing well, thank you for asking! I'm a demo chatbot showcasing FSM-based state management."
  else if PyStr.contains "bye" user_lower || PyStr.contains "goodbye" user_lower then
    "Goodbye! Thanks for chatting with me. Feel free to start a new conversation anytime."
  else if PyStr.contains "name" user_lower then
    "I'm FSM Bot, a demonstration chatbot built to showcase distributed systems patterns."
  else
    "I received your message: '" +:+ user_message +:+
    "'. This is a mock response demonstrating token streaming and state management.".

(** The payload of the token sent for the [i]-th word. *)
Definition token_of (iw : nat * string) : string :=
  if (fst iw =? 0)%nat then snd iw else " " +:+ snd iw.

Definition _stream_response (session_id response : string) : M (World B) unit :=
  let words := PyStr.split response in
  for_each (enumerate words) (fun iw =>
    let token := token_of iw in
    let event := mkStreamEvent "token" token in
    lift_broker (send_event session_id event) ;;
    asyncio_sleep 0.05) ;;
  let end_event := mkStreamEvent "message_end" EmptyString in
  lift_broker (send_event session_id end_event).

(** The body of the [try] block of [_process_session]. *)
Definition generation_cycle (session_id : string) : M (World B) unit :=
  session <- start_ai_generation session_id ;;
  self <- deref session ;;
  match last (messages self) with
  | None => raise (ValueError "No user message found")
  | Some last_message =>
      if negb (String.eqb (role last_message) "user") then
        raise (ValueError "No user message found")
      else
        let response := _generate_mock_response (content last_message) in
        _stream_response session_id response ;;
        commit_ai_message session_id response ;;
        let completion_event := mkStreamEvent "commit_done" session_id in
        lift_broker (send_event session_id completion_event)
  end.

Definition _process_session (session_id : string) : M (World B) unit :=
  try_except (generation_cycle session_id)
    (fun e =>
       try_except
         (mark_error session_id (str e) ;;
          let error_event := mkStreamEvent "error" (str e) in
          lift_broker (send_event session_id error_event))
         (fun mark_error_ex => ret tt)).

(** One iteration of the [while self._running] loop of [_process_loop]. *)
Definition _process_loop (fuel : nat) : M (World B) unit :=
  try_except
    (session_id <- lift_broker (dequeue_session fuel 1.0) ;;
     if PyStr.truthy_opt session_id
     then _process_session (default EmptyString session_id)
     else asyncio_sleep 0.5)
    (fun e => asyncio_sleep 1.0).

(* ------------------------------------------------------------------- *)
(** ** What a turn leaves behind                                       *)
(* ------------------------------------------------------------------- *)

(** The session after a successful [handle_user_message], when
    [now_calls] and [uuid_calls0] calls had been made to the oracles at
    the moment the session was found or created. *)
Definition submitted (now_calls uuid_calls0 : nat) (message_content : string) (s : Session)
    : Session :=
  mkSession (s_id s) (user_id s) USER_COMMITTED
    (messages s ++ [mkMessage (uuid_at uuid_calls0) "user" message_content
                      (utcnow_at (S now_calls))])
    (created_at s) (utcnow_at (3 + now_calls)) None (retry_count s).

(** The session after a successful generation cycle. *)
Definition answered (now_calls uuid_calls0 : nat) (response : string) (s : Session) : Session :=
  mkSession (s_id s) (user_id s) IDLE
    (messages s ++ [mkMessage (uuid_at uuid_calls0) "assistant" response
                      (utcnow_at (S now_calls))])
    (created_at s) (utcnow_at (4 + now_calls)) None (retry_count s).

(* ------------------------------------------------------------------- *)
(** ** The operations of the process                                   *)
(* ------------------------------------------------------------------- *)

Definition forget {A : Type} (m : M (World B) A) : M (World B) unit :=
  m ;; ret tt.

Definition run (o : op) : M (World B) unit :=
  match o with
  | HandleUserMessage user message_content session_id =>
      forget (handle_user_message user message_content session_id)
  | StartAiGeneration session_id => forget (start_ai_generation session_id)
  | CommitAiMessage session_id message_content =>
      forget (commit_ai_message session_id message_content)
  | MarkError session_id error_message => forget (mark_error session_id error_message)
  | ProcessSession session_id => _process_session session_id
  | ProcessLoop fuel => _process_loop fuel
  | DeleteSession session_id => delete_session session_id
  | GetSessionEvents session_id => forget (lift_broker (get_session_events session_id))
  | CleanupSessionQueue session_id => lift_broker (cleanup_session_queue session_id)
  end.

(** The state of the process after running the operations [ops] in
    order; an operation that raises keeps the changes it made. *)
Fixpoint run_all (ops : list op) (w : World B) : World B :=
  match ops with
  | [] => w
  | o :: ops' => run_all ops' (snd (run o w))
  end.

End System.

(* ===================================================================== *)
(** * src/main.py: what the stream relay takes for the end of a stream   *)
(* ===================================================================== *)

(** [event.event_type in ["commit_done", "error"]] *)
Definition terminal (e : StreamEvent) : bool :=
  bool_decide (event_type e ∈ ["commit_done"; "error"]).

(** The events a successful generation cycle publishes for a response. *)
Definition answer_events (session_id response : string) : list StreamEvent :=
  map (fun iw => mkStreamEvent "token" (token_of iw)) (enumerate (PyStr.split response)) ++
  [mkStreamEvent "message_end" EmptyString; mkStreamEvent "commit_done" session_id].

(* ===================================================================== *)
(** * Well-formed states                                                 *)
(* ===================================================================== *)

(** The entry of the database for [session_id], when there is one, refers
    to an object of the heap whose [id] is [session_id]. *)
Definition session_ok {B} (session_id : string) (w : World B) : bool :=
  match _sessions w !! session_id with
  | None => true
  | Some ref =>
      match heap w !! ref with
      | Some s => String.eqb (s_id s) session_id
      | None => false
      end
  end.

(** The queue registered for [session_id], when there is one, is an
    object of the heap of queues. *)
Definition channel_ok (session_id : string) (b : InMemoryBroker.t) : bool :=
  match InMemoryBroker._session_queues b !! session_id with
  | None => true
  | Some q => bool_decide (is_Some (InMemoryBroker.queues b !! q))
  end.

(** Every entry of the database refers to an object of the heap whose
    [id] is the key of the entry. *)
Definition db_wf {B} (w : World B) : Prop :=
  forall sid ref, _sessions w !! sid = Some ref ->
    exists s, heap w !! ref = Some s /\ s_id s = sid.

(** Every registered queue is an object of the heap of queues. *)
Definition broker_wf (b : InMemoryBroker.t) : Prop :=
  forall sid q, InMemoryBroker._session_queues b !! sid = Some q ->
    is_Some (InMemoryBroker.queues b !! q).

Definition wf (w : World InMemoryBroker.t) : Prop := db_wf w /\ broker_wf (broker w).

(** [P] holds of every state that [m] can end in when started in a state
    where [P] holds. *)
Definition preserves {S A : Type} (P : S -> Prop) (m : M S A) : Prop :=
  forall s, P s -> P (snd (m s)).

(** Every object of the heap was built in state [IDLE], has since changed
    state along the edges of [VALID_TRANSITIONS] only, and is in the last
    state of its history; no history is kept for objects not yet built. *)
Definition walks {B} (w : World B) : Prop :=
  (forall ref x, (ref, x) ∈ history w -> ref < length (heap w)) /\
  (forall ref s, heap w !! ref = Some s ->
     exists rest, states_of ref w = IDLE :: rest /\
                  walk_from IDLE rest = true /\
                  last (IDLE :: rest) = Some (state s)).

(** An error description is kept by sessions in state [ERROR] only. *)
Definition error_only {B} (w : World B) : Prop :=
  forall ref s, heap w !! ref = Some s -> state s <> ERROR -> error_message s = None.

(** The two invariants of the heap of sessions together. *)
Definition good {B} (w : World B) : Prop := walks w /\ error_only w.

(** A coroutine that leaves the heap and the history alone. *)
Definition store_stable {B A} (m : M (World B) A) : Prop :=
  forall w, heap (snd (m w)) = heap w /\ history (snd (m w)) = history w.


(* ===================================================================== *)
(** * A broker that cannot be reached                                    *)
(* ===================================================================== *)

(** An implementation of [IMessageBroker] whose connection is down: every
    method raises. *)
Inductive OfflineBroker : Type := offline.

Definition connection_refused {A : Type} : M (Q * OfflineBroker) A :=
  raise (OtherError "connection refused").

#[global] Instance OfflineBroker_IMessageBroker : IMessageBroker OfflineBroker := {
  enqueue_session := fun _ => connection_refused;
  dequeue_session := fun _ _ => connection_refused;
  send_event := fun _ _ => connection_refused;
  get_session_events := fun _ => connection_refused;
  cleanup_session_queue := fun _ => connection_refused
}.

(* ===================================================================== *)
(** * Sample runs                                                        *)
(* ===================================================================== *)

Module Sample.

(** Oracles: the identifiers are "u0", "u1", ...; the wall clock reads
    0, 1, 2, ... *)
Definition uuid_at (n : nat) : string := "u" +:+ pretty n.
Definition utcnow_at (n : nat) : datetime := Z.of_nat n.

Definition start : World InMemoryBroker.t := init_world InMemoryBroker.init 0.

Definition exec (ops : list op) : World InMemoryBroker.t :=
  run_all uuid_at utcnow_at ops start.

(** A first message has been received: session "u0" is [USER_COMMITTED]. *)
Definition submitted : World InMemoryBroker.t :=
  exec [HandleUserMessage "alice" "Hello!" None].

(** The worker has picked the session up: "u0" is [AI_GENERATING]. *)
Definition generating : World InMemoryBroker.t :=
  exec [HandleUserMessage "alice" "Hello!" None; StartAiGeneration "u0"].

(** A whole turn has been served: "u0" is [IDLE] again. *)
Definition served : World InMemoryBroker.t :=
  exec [HandleUserMessage "alice" "Hello!" None; ProcessSession "u0"].

(** The session was deleted after its id was put on the work queue. *)
Definition deleted : World InMemoryBroker.t :=
  exec [HandleUserMessage "alice" "Hello!" None; DeleteSession "u0"].

(** A message with two spaces in a row, on a new session. *)
Definition two_spaces : World InMemoryBroker.t :=
  exec [HandleUserMessage "alice" "a  b" None; ProcessSession "u0"].

(** The first message, and session "u0" as it is in [generating] and in
    [served]. *)
Definition hello : Message := mkMessage "u1" "user" "Hello!" 3%Z.

Definition generating_session : Session :=
  mkSession "u0" "alice" AI_GENERATING [hello] 0%Z 6%Z None 0%Z.

Definition served_session : Session :=
  mkSession "u0" "alice" IDLE
    [hello;
     mkMessage "u2" "assistant" "Hello! I'm a mock AI assistant. How can I help you today?" 7%Z]
    0%Z 10%Z None 0%Z.

(** The payloads of the [token] events of a list of events. *)
Definition token_payloads (evs : list StreamEvent) : list string :=
  map data (filter (fun e => event_type e = "token") evs).

(** A second message on the served session, and the cycle that answers it. *)
Definition asked_again : outcome loc * World InMemoryBroker.t :=
  handle_user_message uuid_at utcnow_at "alice" "How are you?" (Some "u0") served.

Definition answered_again : outcome unit * World InMemoryBroker.t :=
  generation_cycle uuid_at utcnow_at "u0" (snd asked_again).

(** The same first message when the broker cannot be reached. *)
Definition offline_start : World OfflineBroker := init_world offline 0.

Definition offline_submitted : outcome loc * World OfflineBroker :=
  handle_user_message uuid_at utcnow_at "alice" "Hello!" None offline_start.

End Sample.

(* ===================================================================== *)
(** * src/main.py: the stream relay                                      *)
(* ===================================================================== *)

Module Relay.

(** The state of the generator [event_generator]: the chunks it has
    yielded so far, oldest first, and the state of the process. *)
Abbreviation St := (list string * World InMemoryBroker.t)%type.

(** [yield chunk] *)
Definition yield (chunk : string) : M St unit :=
  modify (fun ow => (fst ow ++ [chunk], snd ow)).

(** A coroutine of the process awaited from the generator. *)
Definition await {A : Type} (m : M (World InMemoryBroker.t) A) : M St A :=
  fun ow => let '(r, w) := m (snd ow) in (r, (fst ow, w)).

(** [": keepalive\n\n"] *)
Definition keepalive : string :=
  ": keepalive" +:+ String "010" (String "010" EmptyString).

(** [f"event: error\ndata: {str(e)}\n\n"] *)
Definition error_frame (e : exn) : string :=
  "event: error" +:+ String "010" ("data: " +:+ str e +:+ String "010" (String "010" EmptyString)).

(** [asyncio.wait_for(event_queue.get(), timeout)] on the queue object
    [q]: the oldest pending event, taken from the queue, when there is
    one; when the queue is empty nothing is published while the generator
    waits, the wait times out after [timeout] seconds, and the result is
    [None] (for [asyncio.TimeoutError]). *)
Definition wait_for_get (q : loc) (timeout : Q) : M (Q * InMemoryBroker.t) (option StreamEvent) :=
  fun tb =>
    let b := snd tb in
    match InMemoryBroker.queues b !! q with
    | Some (event :: rest) =>
        (Ok (Some event),
         (fst tb, InMemoryBroker.mk (InMemoryBroker._work_queue b)
                    (InMemoryBroker._session_queues b)
                    (<[q := rest]> (InMemoryBroker.queues b))))
    | Some [] => (Ok None, ((fst tb + timeout)%Q, b))
    | None => (Stuck, tb)
    end.

(** The [while True] loop of [event_generator]; [fuel] bounds the number
    of iterations, [Stuck] when it is used up. *)
Fixpoint relay_loop (fuel : nat) (event_queue : loc) : M St unit :=
  match fuel with
  | O => stuck
  | Datatypes.S fuel' =>
      got <- await (lift_broker (wait_for_get event_queue 30)) ;;
      match got with
      | Some event =>
          yield (to_sse_format event) ;;
          if terminal event then ret tt else relay_loop fuel' event_queue
      | None => yield keepalive ;; relay_loop fuel' event_queue
      end
  end.

(** [try: m  finally: cleanup] *)
Definition try_finally {S A : Type} (m : M S A) (cleanup : M S unit) : M S A :=
  fun s =>
    match m s with
    | (Stuck, s') => (Stuck, s')
    | (r, s') =>
        match cleanup s' with
        | (Ok _, s'') => (r, s'')
        | (Raise e, s'') => (Raise e, s'')
        | (Stuck, s'') => (Stuck, s'')
        end
    end.

(** [event_generator()] of [stream_response(session_id)], read by a
    consumer that stays connected. *)
Definition event_generator (fuel : nat) (session_id : string) : M St unit :=
  try_finally
    (try_except
       (event_queue <- await (lift_broker (get_session_events session_id)) ;;
        relay_loop fuel event_queue)
       (fun e => yield (error_frame e)))
    (await (lift_broker (cleanup_session_queue session_id))).

End Relay.

(** The object behind [ref] is the session [s]. *)
Definition points_to {B} (ref : loc) (s : Session) (w : World B) : Prop :=
  heap w !! ref = Some s.

(* ===================================================================== *)
(** * More sample runs                                                   *)
(* ===================================================================== *)

Module Scenario.

(** The generation of the first answer has failed: "u0" is [ERROR]. *)
Definition failed : World InMemoryBroker.t :=
  Sample.exec [HandleUserMessage "alice" "Hello!" None; StartAiGeneration "u0";
               MarkError "u0" "boom"].

Definition failed_session : Session :=
  mkSession "u0" "alice" ERROR [Sample.hello] 0%Z 7%Z (Some "boom") 1%Z.

(** Everything a client or the worker can try on the failed session. *)
Definition retries : list op :=
  [HandleUserMessage "alice" "again" (Some "u0"); ProcessSession "u0";
   StartAiGeneration "u0"; CommitAiMessage "u0" "late"; MarkError "u0" "again";
   ProcessLoop 20].

(** The first message has been served by the worker loop, which took the
    id of the session from the work queue. *)
Definition picked_up : World InMemoryBroker.t :=
  Sample.exec [HandleUserMessage "alice" "Hello!" None; ProcessLoop 1].

(** The served session of [Sample.served] is asked a second question,
    which is answered. *)
Definition second_turn : list op :=
  [HandleUserMessage "alice" "How are you?" (Some "u0"); ProcessSession "u0"].

(** Session "u0" as it is in [Sample.submitted]. *)
Definition submitted_session : Session :=
  mkSession "u0" "alice" USER_COMMITTED [Sample.hello] 0%Z 5%Z None 0%Z.

(** The events the first answer of [Sample.served] leaves in the channel
    of "u0" before the closing [commit_done]. *)
Definition served_body : list StreamEvent :=
  map (fun iw => mkStreamEvent "token" (token_of iw))
      (enumerate (PyStr.split "Hello! I'm a mock AI assistant. How can I help you today?")) ++
  [mkStreamEvent "message_end" EmptyString].

End Scenario.

(** No two session ids are registered with the same queue object, and
    every registered queue is an object of the heap of queues. *)
Definition registry_ok (b : InMemoryBroker.t) : Prop :=
  broker_wf b /\
  forall sid sid' q,
    InMemoryBroker._session_queues b !! sid = Some q ->
    InMemoryBroker._session_queues b !! sid' = Some q -> sid = sid'.

(** One write of the operations to a session object: a transition that
    [update_state] accepts, a message appended by [add_message], or
    [retry_count += 1]. *)
Inductive written (self : Session) : Session -> Prop :=
| written_state (now : datetime) (new_state : SessionState) (error_msg : option string)
    (self' : Session) :
    update_state now new_state error_msg self = Ok self' -> written self self'
| written_message (now : datetime) (message : Message) :
    written self (add_message now message self)
| written_retry :
    written self
      (mkSession (s_id self) (user_id self) (state self) (messages self) (created_at self)
         (updated_at self) (error_message self) (retry_count self + 1)%Z).

(** [s'] is the session [s] later in its life: the same id, owner and
    creation time, the same messages with more at the end, and a retry
    count that has not gone down. *)
Definition extends (s s' : Session) : Prop :=
  s_id s' = s_id s /\ user_id s' = user_id s /\ created_at s' = created_at s /\
  messages s `prefix_of` messages s' /\ (retry_count s <= retry_count s')%Z.

(** The coroutine [m], started in state [s], returns normally. *)
Definition succeeds {S A : Type} (m : M S A) (s : S) : Prop :=
  exists a s', m s = (Ok a, s').

(** The object that [handle_user_message] builds for a new session. *)
Definition fresh_session {B} (uuid_at : nat -> string) (utcnow_at : nat -> datetime)
    (w : World B) (user : string) : Session :=
  mkSession (uuid_at (uuid_calls w)) user IDLE []
    (utcnow_at (utcnow_calls w)) (utcnow_at (S (utcnow_calls w))) None 0.

(* ===================================================================== *)
(** * What an operation does to the sessions                             *)
(* ===================================================================== *)

(** What a whole operation may do to one session: take a message of the
    user in, start the generation, store the answer, or fail, which is
    counted in [retry_count] when it goes through [mark_error]. *)
Inductive advances (s s' : Session) : Prop :=
| adv_submit (m : Message) :
    state s = IDLE -> role m = "user" -> messages s' = messages s ++ [m] ->
    state s' = USER_COMMITTED \/ state s' = ERROR -> s_id s' = s_id s ->
    retry_count s' = retry_count s -> advances s s'
| adv_start :
    state s = USER_COMMITTED -> state s' = AI_GENERATING -> messages s' = messages s ->
    s_id s' = s_id s -> retry_count s' = retry_count s -> advances s s'
| adv_answer (m : Message) :
    state s = USER_COMMITTED \/ state s = AI_GENERATING -> role m = "assistant" ->
    messages s' = messages s ++ [m] -> state s' = IDLE -> s_id s' = s_id s ->
    retry_count s' = retry_count s -> advances s s'
| adv_fail :
    state s ∈ [USER_WRITING; USER_COMMITTED; AI_GENERATING] -> state s' = ERROR ->
    messages s' = messages s -> s_id s' = s_id s ->
    retry_count s' = (retry_count s + 1)%Z -> advances s s'.

(** What a whole operation may do to the heap of sessions and to the
    database: nothing; remove an entry of the database; advance one
    session; build a session that is not stored (its id was taken); or
    build, store and advance a new session. *)
Inductive effect {B : Type} (w w' : World B) : Prop :=
| eff_none :
    heap w' = heap w -> _sessions w' = _sessions w -> effect w w'
| eff_delete (sid : string) :
    heap w' = heap w -> _sessions w' = delete sid (_sessions w) -> effect w w'
| eff_advance (ref : loc) (s s' : Session) :
    heap w !! ref = Some s -> advances s s' ->
    heap w' = <[ref := s']> (heap w) -> _sessions w' = _sessions w -> effect w w'
| eff_orphan (s0 : Session) :
    state s0 = IDLE -> messages s0 = [] -> retry_count s0 = 0%Z ->
    heap w' = heap w ++ [s0] -> _sessions w' = _sessions w -> effect w w'
| eff_open (s0 s' : Session) :
    state s0 = IDLE -> messages s0 = [] -> retry_count s0 = 0%Z -> advances s0 s' ->
    heap w' = heap w ++ [s'] ->
    _sessions w' = <[s_id s0 := length (heap w)]> (_sessions w) -> effect w w'.

(** The author of the [i]-th message of a conversation that the user
    opens and in which the two take turns. *)
Definition speaker (i : nat) : string := if Nat.even i then "user" else "assistant".

Definition takes_turns (l : list Message) : Prop :=
  forall i m, l !! i = Some m -> role m = speaker i.

(** A session between two operations: the user and the assistant have
    taken turns; every message has its answer when the session is [IDLE],
    the last message of the user waits for its answer when the session is
    [USER_COMMITTED] or [AI_GENERATING]; the session is in no other state
    than these and [ERROR]; nothing has been counted in [retry_count]
    unless the session is in [ERROR], and then once at most. *)
Definition at_rest (s : Session) : Prop :=
  takes_turns (messages s) /\
  match state s with
  | IDLE => Nat.even (length (messages s)) = true /\ retry_count s = 0%Z
  | USER_COMMITTED | AI_GENERATING =>
      Nat.odd (length (messages s)) = true /\ retry_count s = 0%Z
  | ERROR => retry_count s = 0%Z \/ retry_count s = 1%Z
  | USER_WRITING | AI_COMMITTED | TIMEOUT => False
  end.

Definition rests {B : Type} (w : World B) : Prop :=
  db_wf w /\ forall ref s, heap w !! ref = Some s -> at_rest s.

(** No character of [s] is white space. *)
Fixpoint no_space (s : string) : bool :=
  match s with
  | EmptyString => true
  | String c s' => negb (PyStr.isspace c) && no_space s'
  end.

(* ===================================================================== *)
(** * src/broker.py: dequeue_session on the clock of the event loop      *)
(* ===================================================================== *)

(** [InMemoryBroker.dequeue_session] above runs on a clock of rational
    seconds that only [asyncio.sleep] moves.  Here the same method runs on
    what Python gives it: [loop.time()] returns a binary64 float read from
    a monotonic clock that moves by itself, [timeout] is any float, [inf]
    and [nan] included, [+] and [<] are those of binary64, and while the
    task sleeps other tasks may enqueue ids, or cancel it. *)

Module Polling.

(** Python's [float]: IEEE 754 binary64. *)
Definition float : Type := spec_float.
Definition prec : Z := 53.
Definition emax : Z := 1024.

Definition add : float -> float -> float := SFadd prec emax.
Definition ltb : float -> float -> bool := SFltb.

Definition zero : float := S754_zero false.
Definition one : float := S754_finite false 4503599627370496 (-52).
Definition ten : float := S754_finite false 5629499534213120 (-49).
Definition nan : float := S754_nan.

(** The literal [0.1], 0x1.999999999999ap-4. *)
Definition tenth : float := S754_finite false 7205759403792794 (-56).


(** A call in progress: how many times the clock has been read, how many
    times the task has slept, and the broker object. *)
Record state : Type := mkState {
  reads : nat;
  sleeps : nat;
  self : InMemoryBroker.t
}.

Definition start (b : InMemoryBroker.t) : state := mkState 0 0 b.

(** What happens while the task sleeps: other tasks put the ids [arrived]
    on the work queue, in order, or the task is cancelled. *)
Inductive nap : Type :=
| Slept (arrived : list string)
| Cancelled.

(** [self._work_queue.put(session_id)] *)
Definition enqueue_session (session_id : string) : M state unit :=
  modify (fun s =>
    mkState (reads s) (sleeps s)
      (InMemoryBroker.mk (InMemoryBroker._work_queue (self s) ++ [session_id])
         (InMemoryBroker._session_queues (self s)) (InMemoryBroker.queues (self s)))).

(** [self._work_queue.get_nowait()] *)
Definition get_nowait : M state string :=
  fun s =>
    match InMemoryBroker._work_queue (self s) with
    | [] => (Raise Empty, s)
    | x :: rest =>
        (Ok x, mkState (reads s) (sleeps s)
                 (InMemoryBroker.mk rest (InMemoryBroker._session_queues (self s))
                    (InMemoryBroker.queues (self s))))
    end.

Section Clock.

(** The oracles: [time_at n] is what the [n]-th call of
    [asyncio.get_event_loop().time()] returns, and [nap_at n] is what
    happens during the [n]-th sleep of the task (both counted from 0). *)
Variable time_at : nat -> float.
Variable nap_at : nat -> nap.

(** [asyncio.get_event_loop().time()] *)
Definition loop_time : M state float :=
  fun s => (Ok (time_at (reads s)), mkState (S (reads s)) (sleeps s) (self s)).

(** [await asyncio.sleep(d)]: the other tasks run; a cancelled task gets
    [CancelledError] at the await. *)
Definition asyncio_sleep (d : float) : M state unit :=
  fun s =>
    match nap_at (sleeps s) with
    | Slept arrived =>
        (Ok tt,
         mkState (reads s) (S (sleeps s))
           (InMemoryBroker.mk (InMemoryBroker._work_queue (self s) ++ arrived)
              (InMemoryBroker._session_queues (self s)) (InMemoryBroker.queues (self s))))
    | Cancelled => (Raise CancelledError, mkState (reads s) (S (sleeps s)) (self s))
    end.

(** One pass through the body of the [while] loop. *)
Definition try_get_nowait : M state (option string) :=
  try_except (x <- get_nowait ;; ret (Some x))
    (fun e => match e with
              | Empty => (asyncio_sleep tenth ;; ret None)
              | _ => raise e
              end).

(** The [while] loop; [fuel] bounds the number of iterations, [Stuck] when
    it is used up. *)
Fixpoint dequeue_loop (fuel : nat) (deadline : float) : M state (option string) :=
  match fuel with
  | O => stuck
  | Datatypes.S fuel' =>
      now <- loop_time ;;
      if ltb now deadline then
        (r <- try_get_nowait ;;
         match r with
         | Some x => ret (Some x)
         | None => dequeue_loop fuel' deadline
         end)
      else ret None
  end.

Definition dequeue_session (fuel : nat) (timeout : float) : M state (option string) :=
  try_except
    (now <- loop_time ;;
     let deadline := add now timeout in
     dequeue_loop fuel deadline)
    (fun _ => ret None).



End Clock.

(** A clock that only the sleeps of the task move, by 0.1 s each, from
    [t0]: the reading of the deadline and the first test of the loop see
    [t0], the test after the [n]-th sleep sees 0.1 added [n] times. *)
Fixpoint tick (n : nat) (t : float) : float :=
  match n with
  | O => t
  | Datatypes.S n' => add (tick n' t) tenth
  end.

Definition logical (t0 : float) (n : nat) : float := tick (pred n) t0.

(** No other task does anything. *)
Definition quiet (n : nat) : nap := Slept [].

End Polling.

(* ===================================================================== *)
(** * src/ai_service.py: the worker among the tasks of the event loop    *)
(* ===================================================================== *)

(** The worker and the request handlers of [src/main.py] are tasks of one
    event loop: a task runs until it awaits something that is not ready,
    and the others run meanwhile.  In [_process_session] the one such
    await is the [asyncio.sleep(0.05)] of [_stream_response]: the locks of
    the database and of the broker are free whenever a task asks for them,
    and the queues are unbounded.  Here [_process_session] runs with a
    schedule: for each sleep to come, what the event loop does before the
    worker goes on. *)

Module EventLoop.

Inductive wake : Type :=
| Resumed (served : list op)
| Cancelled.

Section EventLoop.
Context {B : Type} `{!IMessageBroker B}.
Variable uuid_at : nat -> string.
Variable utcnow_at : nat -> datetime.

(** A step of the worker between two awaits: no other task runs. *)
Definition now {A : Type} (m : M (World B) A) : M (list wake * World B) A :=
  fun s => let '(r, w) := m (snd s) in (r, (fst s, w)).

(** With an empty schedule the coroutine [m'] of the worker does what
    [m] does when it runs alone. *)
Definition agree {A : Type} (m' : M (list wake * World B) A) (m : M (World B) A) : Prop :=
  forall w, m' ([], w) = now m ([], w).

(** [await asyncio.sleep(d)]: the loop clock advances and the requests
    of the schedule are served, in order, before the worker goes on; a
    cancelled worker gets [CancelledError] at the await.  At the end of
    the schedule nothing else is served. *)
Definition asyncio_sleep (d : Q) : M (list wake * World B) unit :=
  fun s =>
    match fst s with
    | [] => (Ok tt, ([], snd (lift_broker (loop_sleep d) (snd s))))
    | Resumed served :: later =>
        (Ok tt, (later, run_all uuid_at utcnow_at served
                          (snd (lift_broker (loop_sleep d) (snd s)))))
    | Cancelled :: later => (Raise CancelledError, (later, snd s))
    end.

Definition _stream_response (session_id response : string) : M (list wake * World B) unit :=
  let words := PyStr.split response in
  for_each (enumerate words) (fun iw =>
    let token := token_of iw in
    let event := mkStreamEvent "token" token in
    now (lift_broker (send_event session_id event)) ;;
    asyncio_sleep 0.05) ;;
  let end_event := mkStreamEvent "message_end" EmptyString in
  now (lift_broker (send_event session_id end_event)).

(** The body of the [try] block of [_process_session]. *)
Definition generation_cycle (session_id : string) : M (list wake * World B) unit :=
  session <- now (start_ai_generation utcnow_at session_id) ;;
  self <- now (deref session) ;;
  match last (messages self) with
  | None => raise (ValueError "No user message found")
  | Some last_message =>
      if negb (String.eqb (role last_message) "user") then
        raise (ValueError "No user message found")
      else
        let response := _generate_mock_response (content last_message) in
        _stream_response session_id response ;;
        now (commit_ai_message uuid_at utcnow_at session_id response) ;;
        let completion_event := mkStreamEvent "commit_done" session_id in
        now (lift_broker (send_event session_id completion_event))
  end.

Definition _process_session (session_id : string) : M (list wake * World B) unit :=
  try_except (generation_cycle session_id)
    (fun e =>
       try_except
         (now (mark_error utcnow_at session_id (str e)) ;;
          let error_event := mkStreamEvent "error" (str e) in
          now (lift_broker (send_event session_id error_event)))
         (fun mark_error_ex => ret tt)).

End EventLoop.
End EventLoop.

(* ===================================================================== *)
(** * Properties                                                         *)
(* ===================================================================== *)

(** ** Coroutines and invariants *)

Section Preservation.
Context {S : Type} (P : S -> Prop).

Lemma preserves_ret {A} (a : A) : preserves P (ret a).
Proof. intros s Hs. exact Hs. Qed.

Lemma preserves_raise {A} (e : exn) : preserves P (raise (A := A) e).
Proof. intros s Hs. exact Hs. Qed.

Lemma preserves_gets {A} (f : S -> A) : preserves P (gets f).
Proof. intros s Hs. exact Hs. Qed.

Lemma preserves_bind {A C} (m : M S A) (k : A -> M S C) :
  preserves P m -> (forall a, preserves P (k a)) -> preserves P (bind m k).
Proof.
  intros Hm Hk s Hs. unfold bind. specialize (Hm s Hs).
  destruct (m s) as [[a|e|] s']; cbn in *; [apply Hk|..]; assumption.
Qed.

Lemma preserves_try_except {A} (m : M S A) (h : exn -> M S A) :
  preserves P m -> (forall e, preserves P (h e)) -> preserves P (try_except m h).
Proof.
  intros Hm Hh s Hs. unfold try_except. specialize (Hm s Hs).
  destruct (m s) as [[a|e|] s']; cbn in *; [|destruct (is_Exception e); [apply Hh|]|];
    assumption.
Qed.

Lemma preserves_for_each {A} (l : list A) (body : A -> M S unit) :
  (forall x, preserves P (body x)) -> preserves P (for_each l body).
Proof.
  intros Hb. induction l as [|x l IH]; cbn [for_each].
  - apply preserves_ret.
  - apply preserves_bind; [apply Hb | intros _; exact IH].
Qed.
End Preservation.

Lemma filter_none {A} (P : A -> Prop) `{!forall x, Decision (P x)} (l : list A) :
  (forall x, x ∈ l -> ~ P x) -> filter P l = [].
Proof.
  induction l as [|x l IH]; intros Hl; [reflexivity|].
  rewrite filter_cons_False by (apply Hl; left).
  apply IH. intros y Hy. apply Hl. right. exact Hy.
Qed.

Lemma walk_from_snoc (l : list SessionState) :
  forall a x b,
    walk_from a l = true -> last (a :: l) = Some x -> b ∈ VALID_TRANSITIONS x ->
    walk_from a (l ++ [b]) = true.
Proof.
  induction l as [|c l IH]; intros a x b Hw Hl Hb; cbn in *.
  - injection Hl as ->. rewrite bool_decide_eq_true_2 by exact Hb. reflexivity.
  - apply andb_true_iff in Hw as [Hc Hw]. rewrite Hc. cbn.
    eapply IH; [exact Hw| |exact Hb]. exact Hl.
Qed.

Lemma update_state_ok (now : datetime) (new_state : SessionState) (error_msg : option string)
    (self self' : Session) :
  update_state now new_state error_msg self = Ok self' ->
  new_state ∈ VALID_TRANSITIONS (state self) /\
  self' = mkSession (s_id self) (user_id self) new_state (messages self) (created_at self) now
            (if PyStr.truthy_opt error_msg then error_msg
             else if bool_decide (new_state <> ERROR) then None else error_message self)
            (retry_count self).
Proof.
  unfold update_state. case_bool_decide as Hin; [|discriminate].
  intros [= <-]. split; [exact Hin | reflexivity].
Qed.

Lemma update_state_rejected (now : datetime) (new_state : SessionState) (error_msg : option string)
    (self : Session) :
  new_state ∉ VALID_TRANSITIONS (state self) ->
  update_state now new_state error_msg self =
    Raise (ValueError (invalid_transition_msg (state self) new_state)).
Proof. intros Hin. unfold update_state. rewrite bool_decide_eq_false_2 by exact Hin. reflexivity. Qed.

Section Invariants.
Context {B : Type} `{!IMessageBroker B}.
Variable uuid_at : nat -> string.
Variable utcnow_at : nat -> datetime.

Lemma good_init (b : B) (t : Q) : good (init_world b t).
Proof.
  split; [split|].
  - intros ref x Hin. cbn in Hin. apply elem_of_nil in Hin as [].
  - intros ref s Hs. cbn in Hs. rewrite lookup_nil in Hs. discriminate.
  - intros ref s Hs. cbn in Hs. rewrite lookup_nil in Hs. discriminate.
Qed.

Lemma good_ext (w w' : World B) :
  heap w' = heap w -> history w' = history w -> good w -> good w'.
Proof.
  intros Hh Hl [[Hb Hw] He]. unfold good, walks, error_only, states_of. rewrite Hh, Hl. auto.
Qed.

Lemma stable_preserves {A} (m : M (World B) A) : store_stable m -> preserves (@good B) m.
Proof. intros Hm w Hw. destruct (Hm w) as [Hh Hl]. exact (good_ext _ _ Hh Hl Hw). Qed.

Lemma states_of_snoc (ref ref' : loc) (x : SessionState) (log : list (loc * SessionState)) :
  map snd (filter (fun e => fst e = ref) (log ++ [(ref', x)])) =
  (map snd (filter (fun e => fst e = ref) log) ++ (if decide (ref' = ref) then [x] else []))%list.
Proof.
  rewrite filter_app, map_app. f_equal.
  rewrite filter_cons. cbn. destruct (decide (ref' = ref)); reflexivity.
Qed.

(** Replacing an object by one in the same state with the same error
    description. *)
Lemma good_replace (w w' : World B) (ref : loc) (s s' : Session) :
  heap w !! ref = Some s ->
  state s' = state s -> error_message s' = error_message s ->
  heap w' = <[ref := s']> (heap w) -> history w' = history w ->
  good w -> good w'.
Proof.
  intros Hs Hst Herr Hh Hl [[Hb Hw] He].
  assert (Hlt : ref < length (heap w)) by (eapply lookup_lt_Some, Hs).
  split; [split|].
  - intros r x. rewrite Hl, Hh, length_insert. apply Hb.
  - intros r s0. rewrite Hh. unfold states_of. rewrite Hl.
    destruct (decide (r = ref)) as [->|Hne].
    + rewrite list_lookup_insert_eq by exact Hlt. intros [= <-]. rewrite Hst. apply (Hw _ _ Hs).
    + rewrite list_lookup_insert_ne by congruence. apply Hw.
  - intros r s0. rewrite Hh.
    destruct (decide (r = ref)) as [->|Hne].
    + rewrite list_lookup_insert_eq by exact Hlt. intros [= <-]. rewrite Hst, Herr. apply (He _ _ Hs).
    + rewrite list_lookup_insert_ne by congruence. apply He.
Qed.

(** Moving an object along an edge of the table. *)
Lemma good_transition (w w' : World B) (ref : loc) (s s' : Session) :
  heap w !! ref = Some s ->
  state s' ∈ VALID_TRANSITIONS (state s) ->
  (state s' <> ERROR -> error_message s' = None) ->
  heap w' = <[ref := s']> (heap w) -> history w' = (history w ++ [(ref, state s')])%list ->
  good w -> good w'.
Proof.
  intros Hs Hedge Herr Hh Hl [[Hb Hw] He].
  assert (Hlt : ref < length (heap w)) by (eapply lookup_lt_Some, Hs).
  split; [split|].
  - intros r x. rewrite Hl, Hh, length_insert. intros Hin.
    apply elem_of_app in Hin as [Hin|Hin]; [exact (Hb _ _ Hin)|].
    apply list_elem_of_singleton in Hin. injection Hin as -> ->. exact Hlt.
  - intros r s0. rewrite Hh. unfold states_of. rewrite Hl, states_of_snoc.
    destruct (decide (r = ref)) as [->|Hne].
    + rewrite list_lookup_insert_eq by exact Hlt. intros [= <-].
      destruct (Hw _ _ Hs) as (rest & Hrest & Hwalk & Hlast). unfold states_of in Hrest.
      rewrite decide_True by reflexivity. rewrite Hrest.
      exists (rest ++ [state s'])%list. split; [reflexivity|]. split.
      * eapply walk_from_snoc; eauto.
      * rewrite app_comm_cons. apply last_snoc.
    + rewrite list_lookup_insert_ne by congruence. rewrite decide_False by congruence.
      rewrite app_nil_r. apply Hw.
  - intros r s0. rewrite Hh.
    destruct (decide (r = ref)) as [->|Hne].
    + rewrite list_lookup_insert_eq by exact Hlt. intros [= <-]. exact Herr.
    + rewrite list_lookup_insert_ne by congruence. apply He.
Qed.

(** Building an object in state [IDLE] with no error description. *)
Lemma good_alloc (w w' : World B) (s : Session) :
  state s = IDLE -> error_message s = None ->
  heap w' = (heap w ++ [s])%list ->
  history w' = (history w ++ [(length (heap w), state s)])%list ->
  good w -> good w'.
Proof.
  intros Hst Herr Hh Hl [[Hb Hw] He].
  split; [split|].
  - intros r x. rewrite Hl, Hh, length_app. cbn. intros Hin.
    apply elem_of_app in Hin as [Hin|Hin]; [specialize (Hb _ _ Hin); lia|].
    apply list_elem_of_singleton in Hin. injection Hin as -> ->. lia.
  - intros r s0. rewrite Hh. unfold states_of. rewrite Hl, states_of_snoc.
    destruct (decide (r < length (heap w))) as [Hlt|Hge].
    + rewrite lookup_app_l by exact Hlt. rewrite decide_False by lia. rewrite app_nil_r. apply Hw.
    + intros Hlook.
      assert (r = length (heap w)) as ->.
      { apply lookup_lt_Some in Hlook. rewrite length_app in Hlook. cbn in Hlook. lia. }
      rewrite lookup_app_r, Nat.sub_diag in Hlook by lia. injection Hlook as <-.
      rewrite decide_True by reflexivity.
      assert (Hnone : filter (fun e : loc * SessionState => fst e = length (heap w)) (history w) = []).
      { apply filter_none. intros [r x] Hin Heq. cbn in Heq. subst r.
        specialize (Hb _ _ Hin). lia. }
      rewrite Hnone, Hst. exists []. auto.
  - intros r s0. rewrite Hh.
    destruct (decide (r < length (heap w))) as [Hlt|Hge].
    + rewrite lookup_app_l by exact Hlt. apply He.
    + intros Hlook.
      assert (r = length (heap w)) as ->.
      { apply lookup_lt_Some in Hlook. rewrite length_app in Hlook. cbn in Hlook. lia. }
      rewrite lookup_app_r, Nat.sub_diag in Hlook by lia. injection Hlook as <-. auto.
Qed.

(* --- primitives --- *)

Lemma good_modify (f : World B -> World B) :
  (forall w, heap (f w) = heap w /\ history (f w) = history w) ->
  preserves (@good B) (modify f).
Proof. intros Hf. apply stable_preserves. intros w. apply Hf. Qed.

Lemma good_uuid4 : preserves (@good B) (uuid4 uuid_at).
Proof. apply stable_preserves. intros w. split; reflexivity. Qed.

Lemma good_utcnow : preserves (@good B) (utcnow utcnow_at).
Proof. apply stable_preserves. intros w. split; reflexivity. Qed.

Lemma good_lift_broker {A} (m : M (Q * B) A) : preserves (@good B) (lift_broker m).
Proof.
  apply stable_preserves. intros w. unfold lift_broker.
  destruct (m (loop_time w, broker w)) as [r tb]. split; reflexivity.
Qed.

Lemma good_asyncio_sleep (d : Q) : preserves (@good B) (asyncio_sleep d).
Proof. apply good_lift_broker. Qed.

Lemma good_deref (ref : loc) : preserves (@good B) (deref ref).
Proof.
  apply stable_preserves. intros w. unfold deref.
  destruct (heap w !! ref); split; reflexivity.
Qed.

Lemma good_get_session (sid : string) : preserves (@good B) (get_session sid).
Proof. apply preserves_gets. Qed.

Lemma good_create_session (session : loc) : preserves (@good B) (create_session session).
Proof.
  unfold create_session.
  apply preserves_bind; [apply good_deref | intros self].
  apply preserves_bind; [apply preserves_gets | intros present].
  destruct present; [apply preserves_raise | apply good_modify; intros w; split; reflexivity].
Qed.

Lemma good_update_session (session : loc) : preserves (@good B) (update_session session).
Proof.
  unfold update_session.
  apply preserves_bind; [apply good_deref | intros self].
  apply preserves_bind; [apply preserves_gets | intros present].
  destruct present; [apply good_modify; intros w; split; reflexivity | apply preserves_raise].
Qed.

Lemma good_delete_session (sid : string) : preserves (@good B) (delete_session sid).
Proof. apply good_modify. intros w. split; reflexivity. Qed.

Lemma good_new_Session (s : Session) :
  state s = IDLE -> error_message s = None -> preserves (@good B) (new_Session s).
Proof.
  intros Hst Herr w Hw. unfold new_Session. cbn [snd].
  eapply good_alloc with (w := w) (s := s); [exact Hst | exact Herr | reflexivity | reflexivity | exact Hw].
Qed.

Lemma good_call_add_message (session : loc) (message : Message) :
  preserves (@good B) (call_add_message utcnow_at session message).
Proof.
  intros w Hw. unfold call_add_message, bind, deref.
  destruct (heap w !! session) as [self|] eqn:Hs; [|exact Hw].
  cbn [snd]. eapply good_replace with (w := w) (s := self);
    [exact Hs | | | reflexivity | reflexivity | exact Hw]; reflexivity.
Qed.

Lemma good_incr_retry_count (session : loc) : preserves (@good B) (incr_retry_count session).
Proof.
  intros w Hw. unfold incr_retry_count, bind, deref.
  destruct (heap w !! session) as [self|] eqn:Hs; [|exact Hw].
  cbn [snd]. eapply good_replace with (w := w) (s := self);
    [exact Hs | | | reflexivity | reflexivity | exact Hw]; reflexivity.
Qed.

(** [update_state] keeps the invariant when an error description comes
    with a move to [ERROR] only. *)
Lemma good_call_update_state (session : loc) (new_state : SessionState) (error_msg : option string) :
  new_state = ERROR \/ PyStr.truthy_opt error_msg = false ->
  preserves (@good B) (call_update_state utcnow_at session new_state error_msg).
Proof.
  intros Hargs w Hw. unfold call_update_state.
  destruct (heap w !! session) as [self|] eqn:Hs; [|exact Hw].
  destruct (update_state _ new_state error_msg self) as [self'| |] eqn:Hup; [|exact Hw..].
  apply update_state_ok in Hup as [Hedge Hself]. subst self'. cbn [snd].
  eapply good_transition with (w := w) (s := self);
    [exact Hs | | | reflexivity | reflexivity | exact Hw]; [exact Hedge|].
  cbn. intros Hne. destruct Hargs as [-> | ->]; [congruence|].
  rewrite bool_decide_eq_true_2 by exact Hne. reflexivity.
Qed.

(* --- ChatFSM and AIService --- *)

Create HintDb good.
Hint Resolve preserves_ret preserves_raise preserves_gets good_uuid4 good_utcnow
  good_lift_broker good_asyncio_sleep good_deref good_get_session good_create_session
  good_update_session good_delete_session good_call_add_message good_incr_retry_count
  : good.

Ltac preserve :=
  repeat first
    [ solve [auto with good]
    | apply good_call_update_state; (left; reflexivity) || (right; reflexivity)
    | apply good_new_Session; reflexivity
    | apply preserves_bind; [|intros ?]
    | apply preserves_try_except; [|intros ?]
    | apply preserves_for_each; intros ?
    | match goal with
      | |- preserves _ (if ?c then _ else _) => destruct c
      | |- preserves _ (match ?x with _ => _ end) => destruct x
      end ].

Lemma good_handle_user_message (user message_content : string) (session_id : option string) :
  preserves (@good B) (handle_user_message uuid_at utcnow_at user message_content session_id).
Proof. unfold handle_user_message, get_or_create. preserve. Qed.

Lemma good_start_ai_generation (sid : string) :
  preserves (@good B) (start_ai_generation utcnow_at sid).
Proof. unfold start_ai_generation. preserve. Qed.

Lemma good_commit_ai_message (sid message_content : string) :
  preserves (@good B) (commit_ai_message uuid_at utcnow_at sid message_content).
Proof. unfold commit_ai_message. preserve. Qed.

Lemma good_mark_error (sid error_message : string) :
  preserves (@good B) (mark_error utcnow_at sid error_message).
Proof. unfold mark_error. preserve. Qed.

Hint Resolve good_handle_user_message good_start_ai_generation good_commit_ai_message
  good_mark_error : good.

Lemma good_process_session (sid : string) :
  preserves (@good B) (_process_session uuid_at utcnow_at sid).
Proof. unfold _process_session, generation_cycle, _stream_response. preserve. Qed.

Hint Resolve good_process_session : good.

Lemma good_process_loop (fuel : nat) : preserves (@good B) (_process_loop uuid_at utcnow_at fuel).
Proof. unfold _process_loop. preserve. Qed.

Hint Resolve good_process_loop : good.

Lemma good_run (o : op) : preserves (@good B) (run uuid_at utcnow_at o).
Proof. destruct o; unfold run, forget; preserve. Qed.

Lemma good_run_all (ops : list op) (w : World B) :
  good w -> good (run_all uuid_at utcnow_at ops w).
Proof.
  revert w. induction ops as [|o ops IH]; intros w Hw; [exact Hw|].
  cbn [run_all]. apply IH, good_run, Hw.
Qed.

End Invariants.

(** ** The work queue *)

Module DequeueFacts.
Import InMemoryBroker.

Lemma try_get_nowait_empty (t : Q) (b : InMemoryBroker.t) :
  _work_queue b = [] ->
  try_get_nowait (t, b) = (Ok None, ((t + 0.1)%Q, b)).
Proof.
  intros Hq. unfold try_get_nowait, try_except, bind, get_nowait, lift. simpl.
  rewrite Hq. reflexivity.
Qed.



End DequeueFacts.

(** ** The event channels *)

Module ChannelFacts.
Import InMemoryBroker.

(** Sending to a session whose queue is registered appends to that queue. *)
Lemma send_event_registered (sid : string) (ev : StreamEvent) (t : Q) (b : InMemoryBroker.t)
    (q : loc) (evs : list StreamEvent) :
  _session_queues b !! sid = Some q ->
  queues b !! q = Some evs ->
  send_event sid ev (t, b) =
    (Ok tt, (t, mk (_work_queue b) (_session_queues b) (<[q := (evs ++ [ev])%list]> (queues b)))).
Proof.
  intros Hreg Hq. unfold send_event, lift, queue_for, bind, gets, put. cbn [snd fst].
  rewrite Hreg. cbn. rewrite Hq. reflexivity.
Qed.

(** Sending to a session with no registered queue builds a queue,
    registers it and puts the event in it. *)
Lemma send_event_unregistered (sid : string) (ev : StreamEvent) (t : Q) (b : InMemoryBroker.t) :
  _session_queues b !! sid = None ->
  send_event sid ev (t, b) =
    (Ok tt, (t, mk (_work_queue b) (<[sid := length (queues b)]> (_session_queues b))
                   (queues b ++ [[ev]])%list)).
Proof.
  intros Hreg. unfold send_event, lift, queue_for, bind, gets, put, new_queue, register, modify, ret.
  cbn [snd fst]. rewrite Hreg. cbn.
  rewrite lookup_app_r by lia. rewrite Nat.sub_diag. cbn.
  rewrite insert_app_r_alt by lia. rewrite Nat.sub_diag. reflexivity.
Qed.

Lemma channel_registered (sid : string) (b : InMemoryBroker.t) (q : loc) (evs : list StreamEvent) :
  _session_queues b !! sid = Some q -> queues b !! q = Some evs -> channel sid b = evs.
Proof. intros Hreg Hq. unfold channel. rewrite Hreg, Hq. reflexivity. Qed.

(** Sending a batch of events to a registered queue. *)
Lemma send_all_registered (sid : string) (evs : list StreamEvent) :
  forall (t : Q) (b : InMemoryBroker.t) (q : loc) (pre : list StreamEvent),
    _session_queues b !! sid = Some q ->
    queues b !! q = Some pre ->
    exists b', for_each evs (send_event sid) (t, b) = (Ok tt, (t, b')) /\
               _session_queues b' = _session_queues b /\
               _work_queue b' = _work_queue b /\
               length (queues b') = length (queues b) /\
               queues b' !! q = Some (pre ++ evs)%list.
Proof.
  induction evs as [|ev evs IH]; intros t b q pre Hreg Hq.
  - exists b. cbn. rewrite app_nil_r. auto.
  - cbn [for_each]. unfold bind at 1.
    rewrite (send_event_registered sid ev t b q pre Hreg Hq).
    edestruct (IH t (mk (_work_queue b) (_session_queues b) (<[q := (pre ++ [ev])%list]> (queues b))) q
                  (pre ++ [ev])%list) as (b' & Hrun & Hsq & Hwq & Hlen & Hlook).
    { exact Hreg. }
    { cbn. apply list_lookup_insert_eq. eapply lookup_lt_Some, Hq. }
    exists b'. cbn in *. rewrite Hrun, Hsq, Hwq, Hlen, Hlook, length_insert, <- app_assoc.
    auto.
Qed.

(** C10.  After [cleanup_session_queue] the session has no registered
    queue; however many events are then sent to it, each [send_event]
    succeeds, and [get_session_events] returns a queue object that did
    not exist before the release and holds exactly those events, in
    order. *)
Theorem release_is_not_permanent (sid : string) (evs : list StreamEvent) (t : Q) (b : InMemoryBroker.t) :
  exists released b' q b'',
    cleanup_session_queue sid (t, b) = (Ok tt, (t, released)) /\
    _session_queues released !! sid = None /\
    for_each evs (send_event sid) (t, released) = (Ok tt, (t, b')) /\
    get_session_events sid (t, b') = (Ok q, (t, b'')) /\
    queues b'' !! q = Some evs /\
    channel sid b'' = evs /\
    queues b !! q = None.
Proof.
  set (released := mk (_work_queue b) (delete sid (_session_queues b)) (queues b)).
  assert (Hrel : _session_queues released !! sid = None) by apply lookup_delete_eq.
  destruct evs as [|ev evs].
  - exists released, released, (length (queues b)).
    eexists. split; [reflexivity|]. split; [exact Hrel|]. split; [reflexivity|].
    unfold get_session_events, lift, queue_for, bind, gets, new_queue, register, modify, ret.
    cbn [snd fst]. rewrite Hrel. cbn.
    split; [reflexivity|]. unfold channel. cbn. rewrite lookup_insert_eq.
    rewrite lookup_app_r by lia. rewrite Nat.sub_diag. cbn.
    repeat split. apply lookup_ge_None. lia.
  - set (b1 := mk (_work_queue released) (<[sid := length (queues released)]> (_session_queues released))
                  (queues released ++ [[ev]])%list).
    destruct (send_all_registered sid evs t b1 (length (queues b)) [ev]) as (b' & Hrun & Hsq & Hwq & Hlen & Hlook).
    { cbn. apply lookup_insert_eq. }
    { cbn. rewrite lookup_app_r by lia. rewrite Nat.sub_diag. reflexivity. }
    exists released, b', (length (queues b)), b'.
    split; [reflexivity|]. split; [exact Hrel|].
    split.
    { cbn [for_each]. unfold bind at 1. rewrite (send_event_unregistered sid ev t released Hrel).
      exact Hrun. }
    assert (Hreg' : _session_queues b' !! sid = Some (length (queues b))).
    { rewrite Hsq. cbn. apply lookup_insert_eq. }
    split.
    { unfold get_session_events, lift, queue_for, bind, gets, ret. cbn [snd fst].
      rewrite Hreg'. cbn. destruct b'; reflexivity. }
    split; [exact Hlook|]. split.
    { apply (channel_registered _ _ _ _ Hreg' Hlook). }
    apply lookup_ge_None. lia.
Qed.
End ChannelFacts.

(** ** Runs of the state machine *)

Lemma bind_ok {S A C} (m : M S A) (k : A -> M S C) (s s' : S) (a : A) :
  m s = (Ok a, s') -> bind m k s = k a s'.
Proof. intros H. unfold bind. rewrite H. reflexivity. Qed.

Lemma bind_raise {S A C} (m : M S A) (k : A -> M S C) (s s' : S) (e : exn) :
  m s = (Raise e, s') -> bind m k s = (Raise e, s').
Proof. intros H. unfold bind. rewrite H. reflexivity. Qed.

Lemma try_except_ok {S A} (m : M S A) (h : exn -> M S A) (s s' : S) (a : A) :
  m s = (Ok a, s') -> try_except m h s = (Ok a, s').
Proof. intros H. unfold try_except. rewrite H. reflexivity. Qed.

Lemma try_except_raise {S A} (m : M S A) (h : exn -> M S A) (s s' : S) (e : exn) :
  m s = (Raise e, s') -> is_Exception e = true -> try_except m h s = h e s'.
Proof. intros H He. unfold try_except. rewrite H, He. reflexivity. Qed.

(** The body raises an [Exception], shown by [t]: the handler runs. *)
Tactic Notation "caught" "by" tactic3(t) :=
  erewrite try_except_raise; [ | solve [t] | reflexivity ].

Lemma update_state_run (now : datetime) (new_state : SessionState) (error_msg : option string)
    (self : Session) :
  new_state ∈ VALID_TRANSITIONS (state self) ->
  update_state now new_state error_msg self =
    Ok (mkSession (s_id self) (user_id self) new_state (messages self) (created_at self) now
          (if PyStr.truthy_opt error_msg then error_msg
           else if bool_decide (new_state <> ERROR) then None else error_message self)
          (retry_count self)).
Proof. intros Hin. unfold update_state. rewrite bool_decide_eq_true_2 by exact Hin. reflexivity. Qed.

Lemma set_sessions_same {B} (w : World B) (sid : string) (ref : loc) :
  _sessions w !! sid = Some ref ->
  set_sessions (<[sid := ref]> (_sessions w)) w = w.
Proof. intros H. unfold set_sessions. rewrite insert_id by exact H. destruct w; reflexivity. Qed.

(** Projections of explicit states, and look-ups of the cell just written. *)
(** Closed decidable facts. *)
Ltac decided := apply (bool_decide_unpack _); vm_compute; exact I.

Ltac wsimpl :=
  cbn [heap _sessions broker loop_time uuid_calls utcnow_calls history
       set_heap set_sessions set_loop fst snd
       s_id user_id state messages created_at updated_at error_message retry_count
       add_message].

(** Side conditions of the run lemmas. *)
Ltac side :=
  wsimpl;
  first
    [ eassumption
    | apply list_lookup_insert_eq; rewrite ?length_insert; eapply lookup_lt_Some; eassumption
    | match goal with H : s_id _ = _ |- _ => rewrite H; eassumption end
    | match goal with H : state _ = _ |- _ =>
        rewrite H; cbn [VALID_TRANSITIONS]; solve [set_solver] end
    | solve [cbn [VALID_TRANSITIONS]; set_solver]
    | reflexivity ].

(** Runs the first step of a sequence with the run lemma [L]. *)
Tactic Notation "step" uconstr(L) :=
  erewrite bind_ok; [| eapply L; [> side ..]]; wsimpl.

Section Runs.
Context {B : Type} `{!IMessageBroker B}.
Variable uuid_at : nat -> string.
Variable utcnow_at : nat -> datetime.

Lemma deref_run (w : World B) (ref : loc) (s : Session) :
  heap w !! ref = Some s -> deref ref w = (Ok s, w).
Proof. intros H. unfold deref. rewrite H. reflexivity. Qed.

Lemma get_session_run (w : World B) (sid : string) :
  get_session sid w = (Ok (_sessions w !! sid), w).
Proof. reflexivity. Qed.

Lemma update_session_run (w : World B) (ref : loc) (s : Session) :
  heap w !! ref = Some s -> _sessions w !! s_id s = Some ref ->
  update_session ref w = (Ok tt, w).
Proof.
  intros Hs Hd. unfold update_session.
  rewrite (bind_ok _ _ _ _ _ (deref_run _ _ _ Hs)).
  unfold bind, gets, modify. rewrite Hd.
  rewrite bool_decide_eq_true_2 by eauto.
  rewrite set_sessions_same by exact Hd. reflexivity.
Qed.

Lemma call_update_state_run (w : World B) (ref : loc) (s : Session)
    (new_state : SessionState) (error_msg : option string) :
  heap w !! ref = Some s ->
  new_state ∈ VALID_TRANSITIONS (state s) ->
  call_update_state utcnow_at ref new_state error_msg w =
    (Ok tt,
     mkWorld
       (<[ref := mkSession (s_id s) (user_id s) new_state (messages s) (created_at s)
                   (utcnow_at (utcnow_calls w))
                   (if PyStr.truthy_opt error_msg then error_msg
                    else if bool_decide (new_state <> ERROR) then None else error_message s)
                   (retry_count s)]> (heap w))
       (_sessions w) (broker w) (loop_time w) (uuid_calls w) (S (utcnow_calls w))
       (history w ++ [(ref, new_state)])).
Proof.
  intros Hs Hin. unfold call_update_state. rewrite Hs.
  rewrite (update_state_run _ _ _ _ Hin). reflexivity.
Qed.

Lemma call_update_state_rejected (w : World B) (ref : loc) (s : Session)
    (new_state : SessionState) (error_msg : option string) :
  heap w !! ref = Some s ->
  new_state ∉ VALID_TRANSITIONS (state s) ->
  call_update_state utcnow_at ref new_state error_msg w =
    (Raise (ValueError (invalid_transition_msg (state s) new_state)), w).
Proof.
  intros Hs Hin. unfold call_update_state. rewrite Hs.
  rewrite (update_state_rejected _ _ _ _ Hin). reflexivity.
Qed.

Lemma call_add_message_run (w : World B) (ref : loc) (s : Session) (message : Message) :
  heap w !! ref = Some s ->
  call_add_message utcnow_at ref message w =
    (Ok tt,
     mkWorld (<[ref := add_message (utcnow_at (utcnow_calls w)) message s]> (heap w))
       (_sessions w) (broker w) (loop_time w) (uuid_calls w) (S (utcnow_calls w)) (history w)).
Proof.
  intros Hs. unfold call_add_message.
  rewrite (bind_ok _ _ _ _ _ (deref_run _ _ _ Hs)). reflexivity.
Qed.

Lemma incr_retry_count_run (w : World B) (ref : loc) (s : Session) :
  heap w !! ref = Some s ->
  incr_retry_count ref w =
    (Ok tt,
     set_heap (<[ref := mkSession (s_id s) (user_id s) (state s) (messages s) (created_at s)
                         (updated_at s) (error_message s) (retry_count s + 1)%Z]> (heap w)) w).
Proof.
  intros Hs. unfold incr_retry_count.
  rewrite (bind_ok _ _ _ _ _ (deref_run _ _ _ Hs)). reflexivity.
Qed.

Lemma mark_error_run (w : World B) (sid error_message0 : string) (ref : loc) (s : Session) :
  _sessions w !! sid = Some ref -> heap w !! ref = Some s -> s_id s = sid ->
  ERROR ∈ VALID_TRANSITIONS (state s) ->
  mark_error utcnow_at sid error_message0 w =
    (Ok ref,
     mkWorld
       (<[ref := mkSession (s_id s) (user_id s) ERROR (messages s) (created_at s)
                   (utcnow_at (utcnow_calls w))
                   (if PyStr.truthy error_message0 then Some error_message0 else error_message s)
                   (retry_count s + 1)%Z]> (heap w))
       (_sessions w) (broker w) (loop_time w) (uuid_calls w) (S (utcnow_calls w))
       (history w ++ [(ref, ERROR)])).
Proof.
  intros Hd Hs Hid Hin. unfold mark_error.
  rewrite (bind_ok _ _ _ _ _ (get_session_run _ _)), Hd.
  step call_update_state_run. step incr_retry_count_run. step update_session_run.
  unfold ret. rewrite list_insert_insert_eq. reflexivity.
Qed.

Lemma mark_error_rejected (w : World B) (sid error_message0 : string) (ref : loc) (s : Session) :
  _sessions w !! sid = Some ref -> heap w !! ref = Some s ->
  ERROR ∉ VALID_TRANSITIONS (state s) ->
  mark_error utcnow_at sid error_message0 w =
    (Raise (ValueError (invalid_transition_msg (state s) ERROR)), w).
Proof.
  intros Hd Hs Hin. unfold mark_error.
  rewrite (bind_ok _ _ _ _ _ (get_session_run _ _)), Hd.
  erewrite bind_raise; [reflexivity|]. apply call_update_state_rejected; assumption.
Qed.

Lemma mark_error_missing (w : World B) (sid error_message0 : string) :
  _sessions w !! sid = None ->
  mark_error utcnow_at sid error_message0 w =
    (Raise (ValueError ("Session " +:+ sid +:+ " not found")), w).
Proof.
  intros Hd. unfold mark_error.
  rewrite (bind_ok _ _ _ _ _ (get_session_run _ _)), Hd. reflexivity.
Qed.

Lemma start_ai_generation_run (w : World B) (sid : string) (ref : loc) (s : Session) :
  _sessions w !! sid = Some ref -> heap w !! ref = Some s -> s_id s = sid ->
  state s = USER_COMMITTED ->
  start_ai_generation utcnow_at sid w =
    (Ok ref,
     mkWorld
       (<[ref := mkSession (s_id s) (user_id s) AI_GENERATING (messages s) (created_at s)
                   (utcnow_at (utcnow_calls w)) None (retry_count s)]> (heap w))
       (_sessions w) (broker w) (loop_time w) (uuid_calls w) (S (utcnow_calls w))
       (history w ++ [(ref, AI_GENERATING)])).
Proof.
  intros Hd Hs Hid Hst. unfold start_ai_generation.
  rewrite (bind_ok _ _ _ _ _ (get_session_run _ _)), Hd.
  step deref_run. rewrite Hst. rewrite bool_decide_eq_false_2 by (intros Hne; apply Hne; reflexivity).
  step call_update_state_run. step update_session_run.
  reflexivity.
Qed.

Lemma start_ai_generation_gate (w : World B) (sid : string) (ref : loc) (s : Session) :
  _sessions w !! sid = Some ref -> heap w !! ref = Some s ->
  state s <> USER_COMMITTED ->
  start_ai_generation utcnow_at sid w = (Raise (ValueError (cannot_start_msg (state s))), w).
Proof.
  intros Hd Hs Hst. unfold start_ai_generation.
  rewrite (bind_ok _ _ _ _ _ (get_session_run _ _)), Hd.
  step deref_run. rewrite bool_decide_eq_true_2 by exact Hst. reflexivity.
Qed.

Lemma start_ai_generation_missing (w : World B) (sid : string) :
  _sessions w !! sid = None ->
  start_ai_generation utcnow_at sid w =
    (Raise (ValueError ("Session " +:+ sid +:+ " not found")), w).
Proof.
  intros Hd. unfold start_ai_generation.
  rewrite (bind_ok _ _ _ _ _ (get_session_run _ _)), Hd. reflexivity.
Qed.

Lemma commit_ai_message_run (w : World B) (sid message_content : string) (ref : loc) (s : Session) :
  _sessions w !! sid = Some ref -> heap w !! ref = Some s -> s_id s = sid ->
  state s = AI_GENERATING ->
  commit_ai_message uuid_at utcnow_at sid message_content w =
    (Ok ref,
     mkWorld
       (<[ref := mkSession (s_id s) (user_id s) IDLE
                   (messages s ++ [mkMessage (uuid_at (uuid_calls w)) "assistant" message_content
                                     (utcnow_at (utcnow_calls w))])
                   (created_at s)
                   (utcnow_at (S (S (S (utcnow_calls w))))) None (retry_count s)]> (heap w))
       (_sessions w) (broker w) (loop_time w) (S (uuid_calls w)) (S (S (S (S (utcnow_calls w)))))
       (history w ++ [(ref, AI_COMMITTED); (ref, IDLE)])).
Proof.
  intros Hd Hs Hid Hst. unfold commit_ai_message.
  rewrite (bind_ok _ _ _ _ _ (get_session_run _ _)), Hd.
  step deref_run. rewrite Hst. rewrite bool_decide_eq_false_2 by (intros Hne; apply Hne; reflexivity).
  unfold bind at 1, uuid4 at 1. unfold bind at 1, utcnow at 1. wsimpl.
  step call_add_message_run. step call_update_state_run. step update_session_run.
  step call_update_state_run. step update_session_run.
  unfold ret. rewrite !list_insert_insert_eq, <- app_assoc. reflexivity.
Qed.
End Runs.

Section Submit.
Context {B : Type} `{!IMessageBroker B}.
Variable uuid_at : nat -> string.
Variable utcnow_at : nat -> datetime.

Lemma get_or_create_existing (w : World B) (user sid : string) (ref : loc) (s : Session) :
  PyStr.truthy sid = true ->
  _sessions w !! sid = Some ref -> heap w !! ref = Some s -> user_id s = user ->
  get_or_create uuid_at utcnow_at user (Some sid) w = (Ok ref, w).
Proof.
  intros Ht Hd Hs Hu. unfold get_or_create. cbn [PyStr.truthy_opt]. rewrite Ht.
  change (default EmptyString (Some sid)) with sid. cbv zeta.
  rewrite (bind_ok _ _ _ _ _ (get_session_run _ _)), Hd.
  step deref_run. rewrite Hu, String.eqb_refl. reflexivity.
Qed.

Lemma get_or_create_foreign (w : World B) (user sid : string) (ref : loc) (s : Session) :
  PyStr.truthy sid = true ->
  _sessions w !! sid = Some ref -> heap w !! ref = Some s -> user_id s <> user ->
  get_or_create uuid_at utcnow_at user (Some sid) w =
    (Raise (ValueError ("Session " +:+ sid +:+ " does not belong to user " +:+ user)), w).
Proof.
  intros Ht Hd Hs Hu. unfold get_or_create. cbn [PyStr.truthy_opt]. rewrite Ht.
  change (default EmptyString (Some sid)) with sid. cbv zeta.
  rewrite (bind_ok _ _ _ _ _ (get_session_run _ _)), Hd.
  step deref_run. apply String.eqb_neq in Hu. rewrite Hu. reflexivity.
Qed.

Lemma create_session_run (w : World B) (ref : loc) (s : Session) :
  heap w !! ref = Some s -> _sessions w !! s_id s = None ->
  create_session ref w = (Ok tt, set_sessions (<[s_id s := ref]> (_sessions w)) w).
Proof.
  intros Hs Hd. unfold create_session. step deref_run.
  unfold bind, gets, modify. rewrite Hd.
  rewrite bool_decide_eq_false_2 by (intros [x Hx]; discriminate). reflexivity.
Qed.

Lemma create_session_exists (w : World B) (ref ref' : loc) (s : Session) :
  heap w !! ref = Some s -> _sessions w !! s_id s = Some ref' ->
  create_session ref w = (Raise (ValueError ("Session " +:+ s_id s +:+ " already exists")), w).
Proof.
  intros Hs Hd. unfold create_session. step deref_run.
  unfold bind, gets. rewrite Hd.
  rewrite bool_decide_eq_true_2 by eauto. reflexivity.
Qed.

(** A session made by [get_or_create] is a new object. *)
Lemma get_or_create_new (w w' : World B) (user : string) (session_id : option string) (r : loc) :
  PyStr.truthy_opt session_id = false ->
  get_or_create uuid_at utcnow_at user session_id w = (Ok r, w') ->
  r = length (heap w) /\
  _sessions w !! uuid_at (uuid_calls w) = None /\
  w' = mkWorld
         (heap w ++ [mkSession (uuid_at (uuid_calls w)) user IDLE []
                       (utcnow_at (utcnow_calls w)) (utcnow_at (S (utcnow_calls w))) None 0])
         (<[uuid_at (uuid_calls w) := length (heap w)]> (_sessions w))
         (broker w) (loop_time w) (S (uuid_calls w)) (S (S (utcnow_calls w)))
         (history w ++ [(length (heap w), IDLE)]).
Proof.
  intros Ht. unfold get_or_create. rewrite Ht.
  unfold bind at 1, uuid4 at 1. unfold bind at 1, utcnow at 1. unfold bind at 1, utcnow at 1.
  unfold bind at 1, new_Session at 1. wsimpl.
  set (s := mkSession _ _ _ _ _ _ _ _).
  set (w1 := mkWorld _ _ _ _ _ _ _).
  assert (Hs : heap w1 !! length (heap w) = Some s).
  { subst w1. wsimpl. rewrite lookup_app_r by lia. rewrite Nat.sub_diag. reflexivity. }
  destruct (_sessions w !! uuid_at (uuid_calls w)) as [ref'|] eqn:Hd.
  - erewrite bind_raise; [discriminate|].
    eapply create_session_exists; [exact Hs | exact Hd].
  - erewrite bind_ok; [|apply (create_session_run w1 _ s Hs Hd)].
    unfold ret. intros [= <- <-]. auto.
Qed.

(** A call that returns a session returns the one [get_or_create] gave. *)
Lemma handle_user_message_ok (w w1 : World B) (user message_content : string)
    (session_id : option string) (r : loc) :
  handle_user_message uuid_at utcnow_at user message_content session_id w = (Ok r, w1) ->
  exists w', get_or_create uuid_at utcnow_at user session_id w = (Ok r, w').
Proof.
  unfold handle_user_message. unfold bind at 1.
  destruct (get_or_create _ _ _ _ w) as [[session| |] w']; [|discriminate..].
  unfold bind at 1. destruct (deref session w') as [[self| |] w'']; [|discriminate..].
  destruct (negb _); [discriminate|].
  unfold try_except.
  match goal with |- context [match ?m w'' with _ => _ end] => destruct (m w'') as [[x|e|] w3] eqn:Hbody end.
  - intros [= <- <-]. exists w'.
    (* the body ends with [ret session] *)
    revert Hbody. unfold bind.
    repeat match goal with
           | |- context [match ?m ?s with _ => _ end] =>
               lazymatch m with
               | ret _ => fail
               | _ => destruct (m s) as [[?| |] ?]; try discriminate
               end
           end.
    unfold ret. intros [= -> _]. reflexivity.
  - destruct (is_Exception e); [|discriminate]. unfold bind, raise.
    repeat match goal with
           | |- context [match ?m ?s with _ => _ end] =>
               destruct (m s) as [[?| |] ?]; try discriminate
           end.
  - discriminate.
Qed.

(** The state gate of [handle_user_message]. *)
Lemma handle_user_message_gate (w : World B) (user message_content sid : string)
    (ref : loc) (s : Session) :
  PyStr.truthy sid = true ->
  _sessions w !! sid = Some ref -> heap w !! ref = Some s -> user_id s = user ->
  state s ∉ [IDLE; AI_COMMITTED] ->
  handle_user_message uuid_at utcnow_at user message_content (Some sid) w =
    (Raise (ValueError (cannot_accept_msg (state s))), w).
Proof.
  intros Ht Hd Hs Hu Hst. unfold handle_user_message.
  rewrite (bind_ok _ _ _ _ _ (get_or_create_existing _ _ _ _ _ Ht Hd Hs Hu)).
  step deref_run. rewrite bool_decide_eq_false_2 by exact Hst. reflexivity.
Qed.

(** From [AI_COMMITTED] the gate lets the call through, but neither the
    move to [USER_WRITING] nor, in the handler, the move to [ERROR] is
    an edge of the table. *)
Lemma handle_user_message_ai_committed (w : World B) (user message_content sid : string)
    (ref : loc) (s : Session) :
  PyStr.truthy sid = true ->
  _sessions w !! sid = Some ref -> heap w !! ref = Some s -> user_id s = user ->
  state s = AI_COMMITTED ->
  handle_user_message uuid_at utcnow_at user message_content (Some sid) w =
    (Raise (ValueError (invalid_transition_msg AI_COMMITTED ERROR)), w).
Proof.
  intros Ht Hd Hs Hu Hst. unfold handle_user_message.
  rewrite (bind_ok _ _ _ _ _ (get_or_create_existing _ _ _ _ _ Ht Hd Hs Hu)).
  step deref_run.
  rewrite bool_decide_eq_true_2 by (rewrite Hst; decided). cbn [negb].
  assert (Hno : forall x, x <> IDLE -> x ∉ VALID_TRANSITIONS (state s)).
  { intros x Hx. rewrite Hst. cbn [VALID_TRANSITIONS]. intros Hin.
    apply list_elem_of_singleton in Hin. contradiction. }
  erewrite try_except_raise.
  2:{ erewrite bind_raise; [reflexivity|].
      apply call_update_state_rejected with (s := s); [exact Hs | apply Hno; discriminate]. }
  2:{ reflexivity. }
  erewrite bind_raise.
  2:{ apply call_update_state_rejected with (s := s); [exact Hs | apply Hno; discriminate]. }
  rewrite Hst. reflexivity.
Qed.
End Submit.

(** ** Runs on the in-memory broker *)

Section InMemory.
Variable uuid_at : nat -> string.
Variable utcnow_at : nat -> datetime.

Abbreviation W := (World InMemoryBroker.t).

Lemma set_loop_same (w : W) : set_loop (loop_time w, broker w) w = w.
Proof. destruct w; reflexivity. Qed.

(** Publishing one event on a well-formed channel. *)
Lemma send_event_channel (sid : string) (ev : StreamEvent) (t : Q) (b : InMemoryBroker.t) :
  channel_ok sid b = true ->
  exists b', InMemoryBroker.send_event sid ev (t, b) = (Ok tt, (t, b')) /\
             InMemoryBroker.channel sid b' = InMemoryBroker.channel sid b ++ [ev] /\
             channel_ok sid b' = true /\
             InMemoryBroker._work_queue b' = InMemoryBroker._work_queue b.
Proof.
  unfold channel_ok, InMemoryBroker.channel.
  destruct (InMemoryBroker._session_queues b !! sid) as [q|] eqn:Hreg.
  - intros Hq. apply bool_decide_eq_true_1 in Hq as [evs Hq].
    eexists. split; [apply (ChannelFacts.send_event_registered _ _ _ _ _ _ Hreg Hq)|].
    cbn [InMemoryBroker._session_queues InMemoryBroker.queues InMemoryBroker._work_queue]. rewrite Hreg, Hq.
    rewrite list_lookup_insert_eq by (eapply lookup_lt_Some, Hq). cbn.
    repeat split; reflexivity.
  - intros _. eexists. split; [apply (ChannelFacts.send_event_unregistered _ _ _ _ Hreg)|].
    cbn [InMemoryBroker._session_queues InMemoryBroker.queues InMemoryBroker._work_queue]. rewrite lookup_insert_eq.
    rewrite lookup_app_r by lia. rewrite Nat.sub_diag. cbn.
    repeat split; reflexivity.
Qed.

Lemma lift_send_event (sid : string) (ev : StreamEvent) (w : W) :
  channel_ok sid (broker w) = true ->
  exists b', lift_broker (send_event sid ev) w = (Ok tt, set_loop (loop_time w, b') w) /\
             InMemoryBroker.channel sid b' = InMemoryBroker.channel sid (broker w) ++ [ev] /\
             channel_ok sid b' = true /\
             InMemoryBroker._work_queue b' = InMemoryBroker._work_queue (broker w).
Proof.
  intros Hok. destruct (send_event_channel sid ev (loop_time w) (broker w) Hok)
    as (b' & Hrun & Hch & Hok' & Hwq).
  exists b'. split; [|auto]. unfold lift_broker.
  change (send_event sid ev) with (InMemoryBroker.send_event sid ev). rewrite Hrun. reflexivity.
Qed.

(** The [for] loop of [_stream_response]. *)
Lemma stream_tokens (sid : string) (l : list (nat * string)) :
  forall w : W,
    channel_ok sid (broker w) = true ->
    exists t' b',
      for_each l (fun iw =>
        lift_broker (send_event sid (mkStreamEvent "token" (token_of iw))) ;;
        asyncio_sleep 0.05) w = (Ok tt, set_loop (t', b') w) /\
      InMemoryBroker.channel sid b' =
        InMemoryBroker.channel sid (broker w) ++ map (fun iw => mkStreamEvent "token" (token_of iw)) l /\
      channel_ok sid b' = true /\
      InMemoryBroker._work_queue b' = InMemoryBroker._work_queue (broker w).
Proof.
  induction l as [|iw l IH]; intros w Hok.
  - exists (loop_time w), (broker w). cbn [for_each map]. unfold ret.
    rewrite set_loop_same, app_nil_r. auto.
  - destruct (lift_send_event sid (mkStreamEvent "token" (token_of iw)) w Hok)
      as (b1 & Hrun & Hch & Hok1 & Hwq).
    cbn [for_each map].
    rewrite (bind_ok _ _ _ _ _ (bind_ok _ _ _ _ _ Hrun)).
    destruct (IH (set_loop ((loop_time w + 0.05)%Q, b1) w))
      as (t' & b' & Hrun' & Hch' & Hok' & Hwq'); [exact Hok1|].
    exists t', b'. split; [exact Hrun'|]. cbn [broker loop_time set_loop fst snd] in *.
    rewrite Hch', Hch, Hwq', Hwq, <- app_assoc. auto.
Qed.

Lemma stream_response_run (sid response : string) (w : W) :
  channel_ok sid (broker w) = true ->
  exists t' b',
    _stream_response sid response w = (Ok tt, set_loop (t', b') w) /\
    InMemoryBroker.channel sid b' =
      InMemoryBroker.channel sid (broker w) ++
      map (fun iw => mkStreamEvent "token" (token_of iw)) (enumerate (PyStr.split response)) ++
      [mkStreamEvent "message_end" EmptyString] /\
    channel_ok sid b' = true /\
    InMemoryBroker._work_queue b' = InMemoryBroker._work_queue (broker w).
Proof.
  intros Hok. unfold _stream_response. cbv zeta.
  destruct (stream_tokens sid (enumerate (PyStr.split response)) w Hok)
    as (t1 & b1 & Hrun & Hch & Hok1 & Hwq).
  rewrite (bind_ok _ _ _ _ _ Hrun).
  destruct (lift_send_event sid (mkStreamEvent "message_end" EmptyString) (set_loop (t1, b1) w))
    as (b' & Hrun' & Hch' & Hok' & Hwq'); [exact Hok1|].
  exists t1, b'. cbv beta. rewrite Hrun'. cbn [broker loop_time set_loop fst snd] in *.
  rewrite Hch', Hch, Hwq', Hwq, <- app_assoc. auto.
Qed.

Lemma lift_enqueue_run (sid : string) (w : W) :
  lift_broker (enqueue_session sid) w =
    (Ok tt,
     set_loop (loop_time w,
               InMemoryBroker.mk (InMemoryBroker._work_queue (broker w) ++ [sid])
                 (InMemoryBroker._session_queues (broker w))
                 (InMemoryBroker.queues (broker w))) w).
Proof. reflexivity. Qed.

Lemma generation_cycle_run (w : W) (sid : string) (ref : loc) (s : Session) (m : Message) :
  _sessions w !! sid = Some ref -> heap w !! ref = Some s -> s_id s = sid ->
  state s = USER_COMMITTED ->
  last (messages s) = Some m -> role m = "user" ->
  channel_ok sid (broker w) = true ->
  exists w',
    generation_cycle uuid_at utcnow_at sid w = (Ok tt, w') /\
    heap w' = <[ref := answered uuid_at utcnow_at (utcnow_calls w) (uuid_calls w)
                         (_generate_mock_response (content m)) s]> (heap w) /\
    _sessions w' = _sessions w /\
    InMemoryBroker.channel sid (broker w') =
      InMemoryBroker.channel sid (broker w) ++
      answer_events sid (_generate_mock_response (content m)) /\
    InMemoryBroker._work_queue (broker w') = InMemoryBroker._work_queue (broker w) /\
    channel_ok sid (broker w') = true.
Proof.
  intros Hd Hs Hid Hst Hlast Hrole Hok. unfold generation_cycle.
  step start_ai_generation_run. step deref_run.
  rewrite Hlast, Hrole. cbn [String.eqb Ascii.eqb Bool.eqb negb]. cbv zeta.
  set (response := _generate_mock_response (content m)).
  set (w1 := mkWorld _ _ _ _ _ _ _).
  destruct (stream_response_run sid response w1) as (t2 & b2 & Hrun2 & Hch2 & Hok2 & Hwq2);
    [exact Hok|].
  rewrite (bind_ok _ _ _ _ _ Hrun2).
  erewrite bind_ok.
  2:{ eapply commit_ai_message_run with (s := mkSession (s_id s) (user_id s) AI_GENERATING
        (messages s) (created_at s) (utcnow_at (utcnow_calls w)) None (retry_count s));
        subst w1; wsimpl; [exact Hd | | exact Hid | reflexivity].
      apply list_lookup_insert_eq. eapply lookup_lt_Some, Hs. }
  set (w3 := mkWorld _ _ _ _ _ _ _).
  destruct (lift_send_event sid (mkStreamEvent "commit_done" sid) w3)
    as (b4 & Hrun4 & Hch4 & Hok4 & Hwq4); [subst w3; wsimpl; exact Hok2|].
  eexists. split; [exact Hrun4|].
  subst w3 w1. wsimpl. cbn [broker loop_time set_loop fst snd] in *.
  split; [rewrite list_insert_insert_eq; reflexivity|].
  split; [reflexivity|].
  split; [rewrite Hch4, Hch2; unfold answer_events; rewrite <- !app_assoc; reflexivity|].
  split; [rewrite Hwq4, Hwq2; reflexivity | exact Hok4].
Qed.




Lemma stored_session_found (w : W) (sid : string) (ref : loc) :
  _sessions w !! sid = Some ref -> stored_session w sid = heap w !! ref.
Proof. intros Hd. unfold stored_session. rewrite Hd. reflexivity. Qed.

Lemma stored_session_missing (w : W) (sid : string) :
  _sessions w !! sid = None -> stored_session w sid = None.
Proof. intros Hd. unfold stored_session. rewrite Hd. reflexivity. Qed.


Lemma tokens_not_terminal (l : list (nat * string)) :
  Forall (fun e => terminal e = false)
    (map (fun iw => mkStreamEvent "token" (token_of iw)) l).
Proof. apply Forall_map, Forall_forall. intros iw _. reflexivity. Qed.

Lemma answer_events_closed (sid response : string) :
  exists body t, answer_events sid response = body ++ [t] /\
                 terminal t = true /\ Forall (fun e => terminal e = false) body.
Proof.
  exists (map (fun iw => mkStreamEvent "token" (token_of iw)) (enumerate (PyStr.split response)) ++
          [mkStreamEvent "message_end" EmptyString]), (mkStreamEvent "commit_done" sid).
  split; [unfold answer_events; rewrite <- app_assoc; reflexivity|].
  split; [reflexivity|].
  apply Forall_app. split; [apply tokens_not_terminal|].
  constructor; [reflexivity | constructor].
Qed.

Lemma handle_user_message_run (w0 w : W) (user message_content : string)
    (session_id : option string) (ref : loc) (s : Session) :
  get_or_create uuid_at utcnow_at user session_id w0 = (Ok ref, w) ->
  heap w !! ref = Some s -> _sessions w !! s_id s = Some ref -> state s = IDLE ->
  handle_user_message uuid_at utcnow_at user message_content session_id w0 =
    (Ok ref,
     mkWorld
       (<[ref := submitted uuid_at utcnow_at (utcnow_calls w) (uuid_calls w) message_content s]> (heap w))
       (_sessions w)
       (InMemoryBroker.mk (InMemoryBroker._work_queue (broker w) ++ [s_id s])
          (InMemoryBroker._session_queues (broker w)) (InMemoryBroker.queues (broker w)))
       (loop_time w) (S (uuid_calls w)) (4 + utcnow_calls w)
       (history w ++ [(ref, USER_WRITING); (ref, USER_COMMITTED)])).
Proof.
  intros Hgc Hs Hd Hst. unfold handle_user_message.
  rewrite (bind_ok _ _ _ _ _ Hgc). step deref_run.
  rewrite bool_decide_eq_true_2 by (rewrite Hst; decided).
  cbn [negb]. apply try_except_ok.
  step call_update_state_run. step update_session_run.
  unfold bind at 1, uuid4 at 1. unfold bind at 1, utcnow at 1. wsimpl.
  step call_add_message_run. step call_update_state_run. step update_session_run.
  step deref_run. erewrite bind_ok; [|apply lift_enqueue_run]. wsimpl. unfold ret, submitted.
  rewrite !list_insert_insert_eq, <- app_assoc. reflexivity.
Qed.

(** C7.  For a stored session in state [IDLE] or [AI_COMMITTED], when
    [handle_user_message] returns the session and the generation cycle
    that follows completes, the session is [IDLE] and its messages are
    the former ones followed by the user message and then the assistant
    message: two more. *)
Theorem turn_adds_two_messages_and_returns_to_idle
    (w w1 w2 : World InMemoryBroker.t) (user message_content sid : string) (ref : loc) (s : Session) :
  _sessions w !! sid = Some ref -> heap w !! ref = Some s -> s_id s = sid ->
  channel_ok sid (broker w) = true ->
  state s ∈ [IDLE; AI_COMMITTED] ->
  handle_user_message uuid_at utcnow_at user message_content (Some sid) w = (Ok ref, w1) ->
  generation_cycle uuid_at utcnow_at sid w1 = (Ok tt, w2) ->
  _process_session uuid_at utcnow_at sid w1 = (Ok tt, w2) /\
  exists s2 user_msg ai_msg,
    stored_session w2 sid = Some s2 /\
    state s2 = IDLE /\
    messages s2 = messages s ++ [user_msg; ai_msg] /\
    role user_msg = "user" /\ content user_msg = message_content /\
    role ai_msg = "assistant" /\
    length (messages s2) = length (messages s) + 2.
Proof.
  intros Hd Hs Hid Hcok Hst Hsubmit Hcycle.
  split; [unfold _process_session; apply try_except_ok, Hcycle|].
  destruct (PyStr.truthy sid) eqn:Ht.
  - destruct (decide (user_id s = user)) as [Hu|Hu].
    + apply elem_of_cons in Hst as [Hst|Hst].
      * pose proof (get_or_create_existing uuid_at utcnow_at w user sid ref s Ht Hd Hs Hu) as Hgc.
        rewrite <- Hid in Hd.
        rewrite (handle_user_message_run w w user message_content (Some sid) ref s Hgc Hs Hd Hst)
          in Hsubmit.
        injection Hsubmit as <-. rewrite Hid in *.
        set (s1 := submitted uuid_at utcnow_at (utcnow_calls w) (uuid_calls w) message_content s) in *.
        set (w1 := mkWorld _ _ _ _ _ _ _) in *.
        destruct (generation_cycle_run w1 sid ref s1
                    (mkMessage (uuid_at (uuid_calls w)) "user" message_content
                       (utcnow_at (S (utcnow_calls w)))))
          as (w' & Hrun & Hheap & Hsess & _); subst w1 s1; wsimpl;
          [ exact Hd | apply list_lookup_insert_eq; eapply lookup_lt_Some, Hs | exact Hid
          | reflexivity | apply last_snoc | reflexivity | exact Hcok | ].
        rewrite Hrun in Hcycle. injection Hcycle as <-.
        eexists _, _, _. split.
        { unfold stored_session. rewrite Hsess. wsimpl. rewrite Hd. cbn [mbind option_bind].
          rewrite Hheap. wsimpl. apply list_lookup_insert_eq.
          rewrite length_insert. eapply lookup_lt_Some, Hs. }
        unfold answered, submitted. wsimpl. rewrite <- app_assoc.
        repeat split. rewrite length_app. reflexivity.
      * apply list_elem_of_singleton in Hst.
        rewrite (handle_user_message_ai_committed uuid_at utcnow_at w user message_content sid
                   ref s Ht Hd Hs Hu Hst) in Hsubmit.
        discriminate.
    + exfalso. revert Hsubmit. unfold handle_user_message.
      rewrite (bind_raise _ _ _ _ _
                 (get_or_create_foreign uuid_at utcnow_at w user sid ref s Ht Hd Hs Hu)).
      discriminate.
  - exfalso.
    destruct (handle_user_message_ok _ _ _ _ _ _ _ _ Hsubmit) as [w' Hgc].
    apply get_or_create_new in Hgc as [Href _]; [|cbn [PyStr.truthy_opt]; exact Ht].
    apply lookup_lt_Some in Hs. lia.
Qed.
End InMemory.

(** ** Tokens *)

Lemma append_assoc (a b c : string) : (a +:+ b) +:+ c = a +:+ (b +:+ c).
Proof.
  induction a as [|x a IH]; [reflexivity|].
  change (String x ((a +:+ b) +:+ c) = String x (a +:+ b +:+ c)). rewrite IH. reflexivity.
Qed.

Lemma append_empty (a : string) : a +:+ EmptyString = a.
Proof.
  induction a as [|x a IH]; [reflexivity|].
  change (String x (a +:+ EmptyString) = String x a). rewrite IH. reflexivity.
Qed.

(** Every word after the first is sent with one leading space. *)
Lemma later_tokens (words : list string) :
  forall k, (0 < k)%nat ->
    map token_of (zip (seq k (length words)) words) = map (String.append " ") words.
Proof.
  induction words as [|word words IH]; intros k Hk; [reflexivity|].
  cbn [length seq zip zip_with map]. rewrite IH by lia.
  unfold token_of at 1. cbn [fst snd].
  destruct k as [|k]; [lia | reflexivity].
Qed.

Lemma join_cons (word : string) (words : list string) :
  PyStr.join " " (word :: words) = word +:+ PyStr.concat (map (String.append " ") words).
Proof.
  revert word. induction words as [|w words IH]; intros word.
  - cbn [map PyStr.concat fold_right PyStr.join]. rewrite append_empty. reflexivity.
  - change (PyStr.join " " (word :: w :: words))
      with (word +:+ " " +:+ PyStr.join " " (w :: words)).
    rewrite IH. cbn [map]. unfold PyStr.concat. cbn [fold_right]. rewrite !append_assoc. reflexivity.
Qed.

(** The first token is the first word as it is, every later token is one
    space followed by the word, and together they spell the words of the
    response joined by single spaces. *)
Lemma token_payloads_join (response : string) :
  map token_of (enumerate (PyStr.split response)) =
    match PyStr.split response with
    | [] => []
    | word :: words => word :: map (String.append " ") words
    end /\
  PyStr.concat (map token_of (enumerate (PyStr.split response))) =
    PyStr.join " " (PyStr.split response).
Proof.
  unfold enumerate. destruct (PyStr.split response) as [|word words]; [split; reflexivity|].
  cbn [length seq zip zip_with map]. rewrite later_tokens by lia.
  split; [reflexivity|]. rewrite join_cons. reflexivity.
Qed.

(** ** Reachable states of the in-memory process are well formed *)

Section WellFormed.
Variable uuid_at : nat -> string.
Variable utcnow_at : nat -> datetime.

Abbreviation W := (World InMemoryBroker.t).
Abbreviation broker_ok := (fun tb : Q * InMemoryBroker.t => broker_wf (snd tb)).




Lemma wf_ext (w w' : W) :
  heap w' = heap w -> _sessions w' = _sessions w -> broker w' = broker w -> wf w -> wf w'.
Proof. intros Hh Hd Hb [H1 H2]. unfold wf, db_wf. rewrite Hh, Hd, Hb. auto. Qed.

(** Replacing an object by one with the same [id]. *)
Lemma wf_replace (w w' : W) (ref : loc) (s s' : Session) :
  heap w !! ref = Some s -> s_id s' = s_id s ->
  heap w' = <[ref := s']> (heap w) -> _sessions w' = _sessions w -> broker w' = broker w ->
  wf w -> wf w'.
Proof.
  intros Hs Hid Hh Hd Hb [H1 H2]. split; [|rewrite Hb; exact H2].
  intros sid r. rewrite Hd, Hh. intros Hr. destruct (H1 sid r Hr) as (s0 & Hs0 & Hid0).
  destruct (decide (r = ref)) as [->|Hne].
  - exists s'. rewrite list_lookup_insert_eq by (eapply lookup_lt_Some, Hs).
    split; [reflexivity|]. congruence.
  - exists s0. rewrite list_lookup_insert_ne by congruence. auto.
Qed.

(** Registering an object under its own [id]. *)
Lemma wf_register (w w' : W) (ref : loc) (s : Session) :
  heap w !! ref = Some s ->
  heap w' = heap w -> _sessions w' = <[s_id s := ref]> (_sessions w) -> broker w' = broker w ->
  wf w -> wf w'.
Proof.
  intros Hs Hh Hd Hb [H1 H2]. split; [|rewrite Hb; exact H2].
  intros sid r. rewrite Hd, Hh.
  destruct (decide (sid = s_id s)) as [->|Hne].
  - rewrite lookup_insert_eq. intros [= <-]. eauto.
  - rewrite lookup_insert_ne by congruence. apply H1.
Qed.

Lemma wf_stable {A} (m : M W A) :
  (forall w, heap (snd (m w)) = heap w /\ _sessions (snd (m w)) = _sessions w /\
             broker (snd (m w)) = broker w) ->
  preserves wf m.
Proof. intros Hm w Hw. destruct (Hm w) as (Hh & Hd & Hb). exact (wf_ext _ _ Hh Hd Hb Hw). Qed.

Lemma wf_uuid4 : preserves wf (uuid4 uuid_at).
Proof. apply wf_stable. intros w. auto. Qed.

Lemma wf_utcnow : preserves wf (utcnow utcnow_at).
Proof. apply wf_stable. intros w. auto. Qed.

Lemma wf_deref (ref : loc) : preserves wf (deref (B := InMemoryBroker.t) ref).
Proof. apply wf_stable. intros w. unfold deref. destruct (heap w !! ref); auto. Qed.

Lemma wf_new_Session (s : Session) : preserves wf (new_Session s).
Proof.
  intros w [H1 H2]. split; [|exact H2].
  intros sid r Hr. cbn in Hr. destruct (H1 sid r Hr) as (s0 & Hs0 & Hid0).
  exists s0. cbn. rewrite lookup_app_l by (eapply lookup_lt_Some, Hs0). auto.
Qed.

Lemma wf_call_add_message (session : loc) (message : Message) :
  preserves wf (call_add_message utcnow_at session message).
Proof.
  intros w Hw. unfold call_add_message, bind, deref.
  destruct (heap w !! session) as [self|] eqn:Hs; [|exact Hw].
  cbn [snd]. eapply wf_replace with (w := w) (s := self);
    [exact Hs | | reflexivity | reflexivity | reflexivity | exact Hw]; reflexivity.
Qed.

Lemma wf_incr_retry_count (session : loc) : preserves wf (incr_retry_count session).
Proof.
  intros w Hw. unfold incr_retry_count, bind, deref.
  destruct (heap w !! session) as [self|] eqn:Hs; [|exact Hw].
  cbn [snd]. eapply wf_replace with (w := w) (s := self);
    [exact Hs | | reflexivity | reflexivity | reflexivity | exact Hw]; reflexivity.
Qed.

Lemma wf_call_update_state (session : loc) (new_state : SessionState) (error_msg : option string) :
  preserves wf (call_update_state utcnow_at session new_state error_msg).
Proof.
  intros w Hw. unfold call_update_state.
  destruct (heap w !! session) as [self|] eqn:Hs; [|exact Hw].
  destruct (update_state _ new_state error_msg self) as [self'| |] eqn:Hup; [|exact Hw..].
  apply update_state_ok in Hup as [_ Hself]. subst self'. cbn [snd].
  eapply wf_replace with (w := w) (s := self);
    [exact Hs | | reflexivity | reflexivity | reflexivity | exact Hw]; reflexivity.
Qed.

Lemma wf_create_session (session : loc) : preserves wf (create_session session).
Proof.
  intros w Hw. unfold create_session, bind, deref.
  destruct (heap w !! session) as [self|] eqn:Hs; [|exact Hw].
  unfold gets. destruct (bool_decide _); [exact Hw|].
  cbn [snd modify]. eapply wf_register with (w := w) (s := self);
    [exact Hs | reflexivity | reflexivity | reflexivity | exact Hw].
Qed.

Lemma wf_update_session (session : loc) : preserves wf (update_session session).
Proof.
  intros w Hw. unfold update_session, bind, deref.
  destruct (heap w !! session) as [self|] eqn:Hs; [|exact Hw].
  unfold gets. destruct (bool_decide _); [|exact Hw].
  cbn [snd modify]. eapply wf_register with (w := w) (s := self);
    [exact Hs | reflexivity | reflexivity | reflexivity | exact Hw].
Qed.

Lemma wf_delete_session (sid : string) : preserves wf (delete_session sid).
Proof.
  intros w [H1 H2]. split; [|exact H2].
  intros sid' r Hr. cbn in Hr. apply lookup_delete_Some in Hr as [_ Hr]. exact (H1 _ _ Hr).
Qed.


Lemma broker_ok_lift {A} (m : M InMemoryBroker.t A) :
  preserves broker_wf m -> preserves broker_ok (InMemoryBroker.lift m).
Proof.
  intros Hm tb Htb. unfold InMemoryBroker.lift. specialize (Hm (snd tb) Htb).
  destruct (m (snd tb)) as [r b]. exact Hm.
Qed.

Lemma broker_ok_loop_sleep (d : Q) : preserves broker_ok (loop_sleep d).
Proof. intros tb Htb. exact Htb. Qed.

Lemma broker_ok_enqueue (sid : string) : preserves broker_ok (InMemoryBroker.enqueue_session sid).
Proof. apply broker_ok_lift. intros b Hb. exact Hb. Qed.

Lemma broker_ok_get_nowait : preserves broker_ok InMemoryBroker.get_nowait.
Proof.
  apply broker_ok_lift. intros b Hb.
  cbv beta. destruct (InMemoryBroker._work_queue b); exact Hb.
Qed.

Lemma broker_ok_try_get_nowait : preserves broker_ok InMemoryBroker.try_get_nowait.
Proof.
  unfold InMemoryBroker.try_get_nowait. apply preserves_try_except.
  - apply preserves_bind; [apply broker_ok_get_nowait | intros x; apply preserves_ret].
  - intros [msg| |msg|]; try apply preserves_raise.
    apply preserves_bind; [apply broker_ok_loop_sleep | intros _; apply preserves_ret].
Qed.

Lemma broker_ok_dequeue_loop (fuel : nat) (deadline : Q) :
  preserves broker_ok (InMemoryBroker.dequeue_loop fuel deadline).
Proof.
  induction fuel as [|fuel IH]; cbn [InMemoryBroker.dequeue_loop].
  - intros tb Htb. exact Htb.
  - apply preserves_bind; [apply preserves_gets | intros now].
    destruct (Qlt_le_dec now deadline); [|apply preserves_ret].
    apply preserves_bind; [apply broker_ok_try_get_nowait | intros [x|]];
      [apply preserves_ret | exact IH].
Qed.

Lemma broker_ok_dequeue (fuel : nat) (timeout : Q) :
  preserves broker_ok (InMemoryBroker.dequeue_session fuel timeout).
Proof.
  unfold InMemoryBroker.dequeue_session. apply preserves_try_except.
  - apply preserves_bind; [apply preserves_gets | intros now; apply broker_ok_dequeue_loop].
  - intros e. apply preserves_ret.
Qed.

Lemma broker_wf_queue_for (sid : string) (b : InMemoryBroker.t) :
  broker_wf b ->
  exists q b', InMemoryBroker.queue_for sid b = (Ok q, b') /\ broker_wf b' /\
               is_Some (InMemoryBroker.queues b' !! q).
Proof.
  intros Hb. unfold InMemoryBroker.queue_for, bind, gets.
  destruct (InMemoryBroker._session_queues b !! sid) as [q|] eqn:Hq.
  - exists q, b. split; [reflexivity|]. split; [exact Hb | exact (Hb sid q Hq)].
  - eexists _, _. split; [reflexivity|]. cbn. split.
    + intros sid' q'. cbn. destruct (decide (sid' = sid)) as [->|Hne].
      * rewrite lookup_insert_eq. intros [= <-].
        rewrite lookup_app_r, Nat.sub_diag by lia. eauto.
      * rewrite lookup_insert_ne by congruence. intros Hq'.
        destruct (Hb sid' q' Hq') as [evs Hevs].
        rewrite lookup_app_l by (eapply lookup_lt_Some, Hevs). eauto.
    + rewrite lookup_app_r, Nat.sub_diag by lia. eauto.
Qed.

Lemma broker_wf_put (q : loc) (event : StreamEvent) : preserves broker_wf (InMemoryBroker.put q event).
Proof.
  intros b Hb. unfold InMemoryBroker.put.
  destruct (InMemoryBroker.queues b !! q) as [evs|] eqn:Hq; [|exact Hb].
  intros sid q' Hq'. cbn in *. destruct (Hb sid q' Hq') as [evs' Hevs'].
  destruct (decide (q' = q)) as [->|Hne].
  - rewrite list_lookup_insert_eq by (eapply lookup_lt_Some, Hq). eauto.
  - rewrite list_lookup_insert_ne by congruence. eauto.
Qed.

Lemma broker_ok_send_event (sid : string) (event : StreamEvent) :
  preserves broker_ok (InMemoryBroker.send_event sid event).
Proof.
  apply broker_ok_lift. intros b Hb. unfold bind.
  destruct (broker_wf_queue_for sid b Hb) as (q & b' & -> & Hb' & _).
  apply broker_wf_put, Hb'.
Qed.

Lemma broker_ok_get_session_events (sid : string) :
  preserves broker_ok (InMemoryBroker.get_session_events sid).
Proof.
  apply broker_ok_lift. intros b Hb.
  destruct (broker_wf_queue_for sid b Hb) as (q & b' & -> & Hb' & _). exact Hb'.
Qed.

Lemma broker_ok_cleanup (sid : string) :
  preserves broker_ok (InMemoryBroker.cleanup_session_queue sid).
Proof.
  apply broker_ok_lift. intros b Hb sid' q Hq. cbn in Hq.
  apply lookup_delete_Some in Hq as [_ Hq]. exact (Hb _ _ Hq).
Qed.

Create HintDb wf.
Hint Resolve preserves_ret preserves_raise preserves_gets wf_uuid4 wf_utcnow wf_deref
  wf_new_Session wf_call_add_message wf_incr_retry_count wf_call_update_state
  wf_create_session wf_update_session wf_delete_session
  broker_ok_loop_sleep broker_ok_enqueue broker_ok_dequeue broker_ok_send_event
  broker_ok_get_session_events broker_ok_cleanup : wf.





End WellFormed.

(** ** The first turn of a conversation *)

Section FirstTurn.
Variable uuid_at : nat -> string.
Variable utcnow_at : nat -> datetime.

(** The first turn of a conversation: a message submitted without a
    session id makes a new session, and once the cycle that follows has
    completed the session is [IDLE] and holds the user message and the
    assistant message, in that order. *)
Lemma first_turn_leaves_two_messages
    (w w1 w2 : World InMemoryBroker.t) (user message_content : string)
    (session_id : option string) (r : loc) :
  PyStr.truthy_opt session_id = false ->
  channel_ok (uuid_at (uuid_calls w)) (broker w) = true ->
  handle_user_message uuid_at utcnow_at user message_content session_id w = (Ok r, w1) ->
  generation_cycle uuid_at utcnow_at (uuid_at (uuid_calls w)) w1 = (Ok tt, w2) ->
  exists s2 user_msg ai_msg,
    stored_session w2 (uuid_at (uuid_calls w)) = Some s2 /\
    state s2 = IDLE /\
    messages s2 = [user_msg; ai_msg] /\
    role user_msg = "user" /\ content user_msg = message_content /\
    role ai_msg = "assistant".
Proof.
  intros Hfalsy Hcok Hsubmit Hcycle.
  destruct (handle_user_message_ok _ _ _ _ _ _ _ _ Hsubmit) as [w' Hgc].
  destruct (get_or_create_new _ _ _ _ _ _ _ Hfalsy Hgc) as (-> & Hnone & ->).
  set (sid := uuid_at (uuid_calls w)) in *.
  set (fresh := mkSession sid user IDLE [] (utcnow_at (utcnow_calls w))
                  (utcnow_at (S (utcnow_calls w))) None 0) in *.
  erewrite (handle_user_message_run uuid_at utcnow_at w _ user message_content session_id
              (length (heap w)) fresh Hgc) in Hsubmit.
  2:{ wsimpl. rewrite lookup_app_r, Nat.sub_diag by lia. reflexivity. }
  2:{ wsimpl. apply lookup_insert_eq. }
  2:{ reflexivity. }
  injection Hsubmit as <-.
  match type of Hcycle with
  | generation_cycle _ _ _ ?w1 = _ =>
      destruct (generation_cycle_run uuid_at utcnow_at w1 sid (length (heap w))
                  (submitted uuid_at utcnow_at (S (S (utcnow_calls w))) (S (uuid_calls w))
                     message_content fresh)
                  (mkMessage (uuid_at (S (uuid_calls w))) "user" message_content
                     (utcnow_at (S (S (S (utcnow_calls w)))))))
        as (w' & Hrun & Hheap & Hsess & _)
  end.
  { wsimpl. apply lookup_insert_eq. }
  { wsimpl. apply list_lookup_insert_eq. rewrite length_app. cbn [length]. lia. }
  { reflexivity. }
  { reflexivity. }
  { reflexivity. }
  { reflexivity. }
  { exact Hcok. }
  rewrite Hrun in Hcycle. injection Hcycle as <-.
  eexists _, _, _. split.
  { unfold stored_session. rewrite Hsess. wsimpl. rewrite lookup_insert_eq. cbn [mbind option_bind].
    rewrite Hheap. wsimpl. apply list_lookup_insert_eq.
    rewrite length_insert, length_app. cbn [length]. lia. }
  unfold answered, submitted. wsimpl. repeat split.
Qed.
End FirstTurn.

(** ** The work queue on the clock of the event loop *)

Module PollingFacts.
Import Polling.

Lemma tenth_is_one_tenth : SFdiv prec emax one ten = tenth.
Proof. vm_compute. reflexivity. Qed.


Lemma ltb_nan (x y : float) : ltb x (add y nan) = false.
Proof. destruct x as [| | |[] ? ?], y as [| | |[] ? ?]; reflexivity. Qed.

Section OnAClock.
Variable time_at : nat -> float.
Variable nap_at : nat -> Polling.nap.




Lemma poll_takes_the_head (s : state) (x : string) (rest : list string) :
  InMemoryBroker._work_queue (self s) = x :: rest ->
  try_get_nowait nap_at s =
    (Ok (Some x),
     mkState (reads s) (sleeps s)
       (InMemoryBroker.mk rest (InMemoryBroker._session_queues (self s))
          (InMemoryBroker.queues (self s)))).
Proof.
  intros Hq. unfold try_get_nowait, try_except, bind, get_nowait. rewrite Hq. reflexivity.
Qed.






(** With an id waiting, the call returns it when the loop is entered, and
    [None] when it is not; it does not sleep. *)
Lemma call_takes_the_head (fuel : nat) (timeout : float) (s : state)
    (x : string) (rest : list string) :
  InMemoryBroker._work_queue (self s) = x :: rest ->
  dequeue_session time_at nap_at (S fuel) timeout s =
    if ltb (time_at (S (reads s))) (add (time_at (reads s)) timeout)
    then (Ok (Some x),
          mkState (reads s + 2) (sleeps s)
            (InMemoryBroker.mk rest (InMemoryBroker._session_queues (self s))
               (InMemoryBroker.queues (self s))))
    else (Ok None, mkState (reads s + 2) (sleeps s) (self s)).
Proof.
  intros Hq. unfold dequeue_session, try_except, bind at 1, loop_time at 1.
  cbn [dequeue_loop]. unfold bind at 1, loop_time at 1. cbn [reads sleeps self].
  replace (reads s + 2)%nat with (S (S (reads s))) by lia.
  destruct (ltb _ _); [|reflexivity].
  unfold bind at 1. rewrite poll_takes_the_head with (x := x) (rest := rest) by exact Hq.
  reflexivity.
Qed.

(** With [timeout = float('nan')] the loop is not entered. *)
Lemma call_with_nan_timeout (fuel : nat) (s : state) :
  dequeue_session time_at nap_at (S fuel) nan s =
    (Ok None, mkState (S (S (reads s))) (sleeps s) (self s)).
Proof.
  unfold dequeue_session, try_except, bind at 1, loop_time at 1.
  cbn [dequeue_loop]. unfold bind at 1, loop_time at 1. cbn [reads sleeps self].
  rewrite ltb_nan. reflexivity.
Qed.

End OnAClock.

Lemma enqueue_in_order (ids : list string) :
  forall s : state,
    for_each ids enqueue_session s =
      (Ok tt, mkState (reads s) (sleeps s)
                (InMemoryBroker.mk (InMemoryBroker._work_queue (self s) ++ ids)
                   (InMemoryBroker._session_queues (self s))
                   (InMemoryBroker.queues (self s)))).
Proof.
  induction ids as [|x ids IH]; intros s.
  - cbn [for_each]. unfold ret. rewrite app_nil_r. destruct s as [r n []]; reflexivity.
  - cbn [for_each]. unfold bind, enqueue_session, modify. rewrite IH.
    cbn [reads sleeps self InMemoryBroker._work_queue InMemoryBroker._session_queues
         InMemoryBroker.queues].
    rewrite <- app_assoc. reflexivity.
Qed.

End PollingFacts.

(** ** The worker among the tasks of the event loop *)

Module EventLoopFacts.

Section Agree.
Context {B : Type}.

Local Abbreviation agree := (EventLoop.agree (B := B)).

Lemma agree_now {A} (m : M (World B) A) : agree (EventLoop.now m) m.
Proof. intros w. reflexivity. Qed.

Lemma agree_ret {A} (a : A) : agree (ret a) (ret a).
Proof. intros w. reflexivity. Qed.

Lemma agree_raise {A} (e : exn) : agree (raise (A := A) e) (raise e).
Proof. intros w. reflexivity. Qed.

Lemma agree_bind {A C} (m' : M (list EventLoop.wake * World B) A) (m : M (World B) A)
    (k' : A -> M (list EventLoop.wake * World B) C) (k : A -> M (World B) C) :
  agree m' m -> (forall a, agree (k' a) (k a)) -> agree (bind m' k') (bind m k).
Proof.
  intros Hm Hk w. unfold bind, EventLoop.now. rewrite (Hm w). unfold EventLoop.now. cbn [snd fst].
  destruct (m w) as [[a|e|] w1]; [|reflexivity..].
  rewrite (Hk a w1). reflexivity.
Qed.

Lemma agree_try_except {A} (m' : M (list EventLoop.wake * World B) A) (m : M (World B) A)
    (h' : exn -> M (list EventLoop.wake * World B) A) (h : exn -> M (World B) A) :
  agree m' m -> (forall e, agree (h' e) (h e)) -> agree (try_except m' h') (try_except m h).
Proof.
  intros Hm Hh w. unfold try_except, EventLoop.now. rewrite (Hm w). unfold EventLoop.now.
  cbn [snd fst].
  destruct (m w) as [[a|e|] w1]; [reflexivity| |reflexivity].
  destruct (is_Exception e); [|reflexivity].
  rewrite (Hh e w1). reflexivity.
Qed.

Lemma agree_for_each {A} (l : list A) (body' : A -> M (list EventLoop.wake * World B) unit)
    (body : A -> M (World B) unit) :
  (forall x, agree (body' x) (body x)) -> agree (for_each l body') (for_each l body).
Proof.
  intros Hb. induction l as [|x l IH]; cbn [for_each].
  - apply agree_ret.
  - apply agree_bind; [apply Hb | intros _; exact IH].
Qed.

End Agree.

Section Scheduled.
Context {B : Type} `{!IMessageBroker B}.
Variable uuid_at : nat -> string.
Variable utcnow_at : nat -> datetime.

Local Abbreviation agree := (EventLoop.agree (B := B)).

Lemma agree_sleep (d : Q) : agree (EventLoop.asyncio_sleep uuid_at utcnow_at d) (asyncio_sleep d).
Proof. intros w. reflexivity. Qed.

Lemma agree_stream_response (sid response : string) :
  agree (EventLoop._stream_response uuid_at utcnow_at sid response) (_stream_response sid response).
Proof.
  unfold EventLoop._stream_response, _stream_response.
  apply agree_bind; [|intros _; apply agree_now].
  apply agree_for_each. intros iw.
  apply agree_bind; [apply agree_now | intros _; apply agree_sleep].
Qed.

Lemma agree_generation_cycle (sid : string) :
  agree (EventLoop.generation_cycle uuid_at utcnow_at sid) (generation_cycle uuid_at utcnow_at sid).
Proof.
  unfold EventLoop.generation_cycle, generation_cycle.
  apply agree_bind; [apply agree_now | intros session].
  apply agree_bind; [apply agree_now | intros self].
  destruct (last (messages self)) as [m|]; [|apply agree_raise].
  destruct (negb (String.eqb (role m) "user")); [apply agree_raise|].
  apply agree_bind; [apply agree_stream_response | intros _].
  apply agree_bind; [apply agree_now | intros _; apply agree_now].
Qed.

(** With nothing else to serve, the worker among the tasks of the event
    loop does what it does alone. *)
Lemma agree_process_session (sid : string) :
  agree (EventLoop._process_session uuid_at utcnow_at sid) (_process_session uuid_at utcnow_at sid).
Proof.
  unfold EventLoop._process_session, _process_session.
  apply agree_try_except; [apply agree_generation_cycle | intros e].
  apply agree_try_except; [|intros _; apply agree_ret].
  apply agree_bind; [apply agree_now | intros _; apply agree_now].
Qed.

(** Whatever the schedule, the worker catches every [Exception]. *)
Lemma scheduled_session_no_raise (sid : string) (s : list EventLoop.wake * World B) (e : exn) :
  is_Exception e = true ->
  fst (EventLoop._process_session uuid_at utcnow_at sid s) <> Raise e.
Proof.
  intros He. unfold EventLoop._process_session, try_except at 1.
  destruct (EventLoop.generation_cycle uuid_at utcnow_at sid s) as [[[]|e1|] s1];
    cbn [fst]; try discriminate.
  destruct (is_Exception e1) eqn:He1; [|cbn [fst]; congruence].
  unfold try_except.
  match goal with |- context [let (o, s') := ?m s1 in _] => destruct (m s1) as [[[]|e2|] s2] end;
    cbn [fst]; try discriminate.
  destruct (is_Exception e2) eqn:He2; cbn [fst]; [discriminate | congruence].
Qed.

End Scheduled.
End EventLoopFacts.

(** ** The claims of the specification *)

(** C1 (the code departs from the claim and from the docstring of
    [mark_error], "Can be called from any state").  Session "u0" has been
    served once and is [IDLE]; [mark_error] on it raises the [ValueError]
    of [Session.update_state] and changes nothing: the state stays
    [IDLE], the retry counter stays 0, no error description is set. *)
Theorem mark_error_raises_on_an_idle_session :
  (state <$> stored_session Sample.served "u0") = Some IDLE /\
  mark_error Sample.utcnow_at "u0" "boom" Sample.served =
    (Raise (ValueError
       "Invalid state transition: idle -> error. Valid transitions: ['user_writing', 'timeout']"),
     Sample.served) /\
  (retry_count <$> stored_session Sample.served "u0") = Some 0%Z /\
  (error_message <$> stored_session Sample.served "u0") = Some None.
Proof. vm_compute. repeat split; reflexivity. Qed.

(** C3 (the code departs from the claim).  With a broker that cannot be
    reached, [handle_user_message] fails at [enqueue_session]; its
    handler moves the new session from [USER_COMMITTED] to [ERROR] and
    re-raises, and the retry counter of the session is still 0. *)
Theorem submit_failure_enters_error_without_counting :
  exists w s,
    Sample.offline_submitted = (Raise (OtherError "connection refused"), w) /\
    stored_session w "u0" = Some s /\
    states_of 0 w = [IDLE; USER_WRITING; USER_COMMITTED; ERROR] /\
    state s = ERROR /\
    error_message s = Some "connection refused" /\
    retry_count s = 0%Z.
Proof. eexists _, _. vm_compute. repeat split; reflexivity. Qed.

(** C4 (the code departs from the claim).  The user message "a  b" has
    two spaces in a row; the response quotes it, [split] drops one of
    the spaces, and the concatenation of the token payloads is not the
    text that [commit_ai_message] stored. *)
Theorem token_payloads_differ_from_committed_text :
  exists s m,
    stored_session Sample.two_spaces "u0" = Some s /\
    last (messages s) = Some m /\
    role m = "assistant" /\
    content m =
      "I received your message: 'a  b'. This is a mock response demonstrating token streaming and state management." /\
    PyStr.concat (Sample.token_payloads (InMemoryBroker.channel "u0" (broker Sample.two_spaces))) =
      "I received your message: 'a b'. This is a mock response demonstrating token streaming and state management." /\
    PyStr.concat (Sample.token_payloads (InMemoryBroker.channel "u0" (broker Sample.two_spaces))) <>
      content m.
Proof. eexists _, _. vm_compute. repeat split; try reflexivity. discriminate. Qed.

(** C2 does not hold of the code: a generation cycle can end without a
    terminal event.  [_process_session] sends the [error] event after
    [mark_error], inside a [try] whose handler only logs: when
    [mark_error] raises, nothing is sent.  Two runs on session "u0", whose
    first message has been accepted:
    - the session is deleted before the worker takes its id from the work
      queue: the cycle publishes no event at all;
    - the session is deleted while the worker sleeps after its first
      token: the cycle publishes its twelve tokens and [message_end], then
      [commit_ai_message] and [mark_error] find no session, and neither
      [commit_done] nor [error] follows. *)
Theorem a_cycle_can_end_without_a_terminal_event :
  (InMemoryBroker._work_queue (broker Sample.deleted) = ["u0"] /\
   InMemoryBroker.channel "u0" (broker Sample.deleted) = [] /\
   exists w1,
     _process_loop Sample.uuid_at Sample.utcnow_at 20 Sample.deleted = (Ok tt, w1) /\
     InMemoryBroker._work_queue (broker w1) = [] /\
     InMemoryBroker.channel "u0" (broker w1) = []) /\
  (option_map state (stored_session Sample.submitted "u0") = Some USER_COMMITTED /\
   InMemoryBroker.channel "u0" (broker Sample.submitted) = [] /\
   exists w1,
     EventLoop._process_session Sample.uuid_at Sample.utcnow_at "u0"
       ([EventLoop.Resumed [DeleteSession "u0"]], Sample.submitted) = (Ok tt, ([], w1)) /\
     map event_type (InMemoryBroker.channel "u0" (broker w1)) =
       ["token"; "token"; "token"; "token"; "token"; "token"; "token"; "token"; "token";
        "token"; "token"; "token"; "message_end"] /\
     filter (fun e => terminal e = true) (InMemoryBroker.channel "u0" (broker w1)) = [] /\
     stored_session w1 "u0" = None).
Proof.
  split; (split; [vm_compute; reflexivity|]); (split; [vm_compute; reflexivity|]);
    eexists; vm_compute; repeat split.
Qed.

(** C5, as stated, fails: a message submitted while session "u0" is
    generating is rejected by the state gate of [handle_user_message],
    whose error names the current state but neither the target
    [user_writing] nor the set of states allowed after [ai_generating]. *)
Lemma gate_error_names_the_current_state_only :
  (state <$> stored_session Sample.generating "u0") = Some AI_GENERATING /\
  exists msg,
    handle_user_message Sample.uuid_at Sample.utcnow_at "alice" "again" (Some "u0") Sample.generating =
      (Raise (ValueError msg), Sample.generating) /\
    PyStr.contains (value AI_GENERATING) msg = true /\
    PyStr.contains (value USER_WRITING) msg = false /\
    PyStr.contains (PyStr.repr_list (map value (VALID_TRANSITIONS AI_GENERATING))) msg = false.
Proof. split; [vm_compute; reflexivity|]. eexists. vm_compute. repeat split; reflexivity. Qed.

Lemma invalid_transition_msg_names (cur new_state : SessionState) :
  PyStr.contains (value cur) (invalid_transition_msg cur new_state) = true /\
  PyStr.contains (value new_state) (invalid_transition_msg cur new_state) = true /\
  PyStr.contains (PyStr.repr_list (map value (VALID_TRANSITIONS cur)))
    (invalid_transition_msg cur new_state) = true.
Proof. destruct cur, new_state; vm_compute; auto. Qed.

Lemma cannot_accept_msg_names (cur : SessionState) :
  PyStr.contains (value cur) (cannot_accept_msg cur) = true.
Proof. destruct cur; vm_compute; reflexivity. Qed.

(** C5, amended.  A call of [Session.update_state] with a target that is
    not in the table raises an error that names the current state, the
    target and the allowed set, and leaves the whole process state, hence
    the session, as it was.  A message submitted by its owner to a
    session that is neither [IDLE] nor [AI_COMMITTED] (in particular one
    that is generating) is rejected by the state gate of
    [handle_user_message] with an error that names the current state,
    and the process state is as it was. *)
Theorem rejected_transition_leaves_the_session_unmodified
    {B : Type} `{!IMessageBroker B}
    (uuid_at : nat -> string) (utcnow_at : nat -> datetime)
    (w : World B) (user message_content sid : string) (ref : loc) (s : Session)
    (new_state : SessionState) (error_msg : option string) :
  PyStr.truthy sid = true ->
  _sessions w !! sid = Some ref -> heap w !! ref = Some s -> user_id s = user ->
  (new_state ∉ VALID_TRANSITIONS (state s) ->
     update_state (utcnow_at (utcnow_calls w)) new_state error_msg s =
       Raise (ValueError (invalid_transition_msg (state s) new_state)) /\
     call_update_state utcnow_at ref new_state error_msg w =
       (Raise (ValueError (invalid_transition_msg (state s) new_state)), w) /\
     PyStr.contains (value (state s)) (invalid_transition_msg (state s) new_state) = true /\
     PyStr.contains (value new_state) (invalid_transition_msg (state s) new_state) = true /\
     PyStr.contains (PyStr.repr_list (map value (VALID_TRANSITIONS (state s))))
       (invalid_transition_msg (state s) new_state) = true) /\
  (state s ∉ [IDLE; AI_COMMITTED] ->
     handle_user_message uuid_at utcnow_at user message_content (Some sid) w =
       (Raise (ValueError (cannot_accept_msg (state s))), w) /\
     PyStr.contains (value (state s)) (cannot_accept_msg (state s)) = true).
Proof.
  intros Ht Hd Hs Hu. split.
  - intros Hin. split; [apply update_state_rejected, Hin|].
    split; [apply call_update_state_rejected; assumption|].
    apply invalid_transition_msg_names.
  - intros Hst. split; [|apply cannot_accept_msg_names].
    eapply handle_user_message_gate; eassumption.
Qed.

(** The theorem at session "u0" while it is generating. *)
Lemma rejected_transition_witness :
  PyStr.truthy "u0" = true /\
  _sessions Sample.generating !! "u0" = Some 0 /\
  heap Sample.generating !! 0 = Some Sample.generating_session /\
  user_id Sample.generating_session = "alice" /\
  (USER_WRITING ∉ VALID_TRANSITIONS (state Sample.generating_session)) /\
  (state Sample.generating_session ∉ [IDLE; AI_COMMITTED]) /\
  call_update_state Sample.utcnow_at 0 USER_WRITING None Sample.generating =
    (Raise (ValueError (invalid_transition_msg AI_GENERATING USER_WRITING)), Sample.generating) /\
  handle_user_message Sample.uuid_at Sample.utcnow_at "alice" "again" (Some "u0") Sample.generating =
    (Raise (ValueError (cannot_accept_msg AI_GENERATING)), Sample.generating).
Proof.
  assert (H1 : PyStr.truthy "u0" = true) by reflexivity.
  assert (H2 : _sessions Sample.generating !! "u0" = Some 0) by (vm_compute; reflexivity).
  assert (H3 : heap Sample.generating !! 0 = Some Sample.generating_session)
    by (vm_compute; reflexivity).
  assert (H4 : user_id Sample.generating_session = "alice") by reflexivity.
  assert (H5 : USER_WRITING ∉ VALID_TRANSITIONS (state Sample.generating_session)) by decided.
  assert (H6 : state Sample.generating_session ∉ [IDLE; AI_COMMITTED]) by decided.
  destruct (rejected_transition_leaves_the_session_unmodified
              Sample.uuid_at Sample.utcnow_at Sample.generating "alice" "again" "u0" 0
              Sample.generating_session USER_WRITING None H1 H2 H3 H4) as [Ha Hb].
  repeat (split; [assumption|]).
  split; [apply (Ha H5) | apply (Hb H6)].
Defined.

(** C6.  In every state the process can reach from its start by any
    sequence of operations, with any broker, every session object was
    built in [IDLE], has since changed state along the edges of
    [VALID_TRANSITIONS] only, and is in the last state of that walk. *)
Theorem session_states_walk_the_transition_table
    {B : Type} `{!IMessageBroker B}
    (uuid_at : nat -> string) (utcnow_at : nat -> datetime)
    (ops : list op) (b : B) (t : Q) (ref : loc) (s : Session) :
  heap (run_all uuid_at utcnow_at ops (init_world b t)) !! ref = Some s ->
  exists rest,
    states_of ref (run_all uuid_at utcnow_at ops (init_world b t)) = IDLE :: rest /\
    walk_from IDLE rest = true /\
    last (IDLE :: rest) = Some (state s).
Proof.
  intros Hs.
  destruct (good_run_all uuid_at utcnow_at ops (init_world b t) (good_init b t)) as [[_ Hw] _].
  exact (Hw ref s Hs).
Qed.

(** The theorem at session "u0" after its first turn. *)
Lemma session_states_walk_witness :
  heap Sample.served !! 0 = Some Sample.served_session /\
  exists rest,
    states_of 0 Sample.served = IDLE :: rest /\
    walk_from IDLE rest = true /\
    last (IDLE :: rest) = Some (state Sample.served_session).
Proof.
  assert (H1 : heap Sample.served !! 0 = Some Sample.served_session) by (vm_compute; reflexivity).
  split; [exact H1|].
  exact (session_states_walk_the_transition_table Sample.uuid_at Sample.utcnow_at
           [HandleUserMessage "alice" "Hello!" None; ProcessSession "u0"]
           InMemoryBroker.init 0%Q 0 Sample.served_session H1).
Defined.

(** C9.  A successful [update_state] to a state other than [ERROR],
    called with no error description ([None], or the empty string, which
    Python takes for false), leaves no error description; and
    in every state the process can reach, with any broker, a session
    that is not in [ERROR] has no error description. *)
Theorem error_description_only_in_error_state
    {B : Type} `{!IMessageBroker B}
    (uuid_at : nat -> string) (utcnow_at : nat -> datetime) :
  (forall (now : datetime) (new_state : SessionState) (error_msg : option string)
          (s s' : Session),
     PyStr.truthy_opt error_msg = false ->
     update_state now new_state error_msg s = Ok s' -> new_state <> ERROR ->
     state s' = new_state /\ error_message s' = None) /\
  (forall (ops : list op) (b : B) (t : Q) (ref : loc) (s : Session),
     heap (run_all uuid_at utcnow_at ops (init_world b t)) !! ref = Some s ->
     state s <> ERROR -> error_message s = None).
Proof.
  split.
  - intros now new_state error_msg s s' Hnone Hup Hne.
    apply update_state_ok in Hup as [_ ->].
    cbn [state error_message]. rewrite Hnone, bool_decide_eq_true_2 by exact Hne. auto.
  - intros ops b t ref s Hs Hne.
    destruct (good_run_all uuid_at utcnow_at ops (init_world b t) (good_init b t)) as [_ He].
    exact (He ref s Hs Hne).
Qed.

(** The theorem at a session leaving [ERROR], and at session "u0" after
    its first turn. *)
Lemma error_description_witness :
  PyStr.truthy_opt None = false /\
  update_state 7%Z IDLE None (mkSession "u9" "bob" ERROR [] 0%Z 1%Z (Some "boom") 1%Z) =
    Ok (mkSession "u9" "bob" IDLE [] 0%Z 7%Z None 1%Z) /\
  IDLE <> ERROR /\
  heap Sample.served !! 0 = Some Sample.served_session /\
  state Sample.served_session <> ERROR /\
  error_message (mkSession "u9" "bob" IDLE [] 0%Z 7%Z None 1%Z) = None /\
  error_message Sample.served_session = None.
Proof.
  assert (H1 : update_state 7%Z IDLE None (mkSession "u9" "bob" ERROR [] 0%Z 1%Z (Some "boom") 1%Z) =
               Ok (mkSession "u9" "bob" IDLE [] 0%Z 7%Z None 1%Z)) by reflexivity.
  assert (H0 : PyStr.truthy_opt None = false) by reflexivity.
  assert (H2 : IDLE <> ERROR) by discriminate.
  assert (H3 : heap Sample.served !! 0 = Some Sample.served_session) by (vm_compute; reflexivity).
  assert (H4 : state Sample.served_session <> ERROR) by discriminate.
  destruct (error_description_only_in_error_state (B := InMemoryBroker.t)
              Sample.uuid_at Sample.utcnow_at) as [Ha Hb].
  split; [exact H0|]. split; [exact H1|]. split; [exact H2|]. split; [exact H3|].
  split; [exact H4|].
  split.
  - exact (proj2 (Ha _ _ _ _ _ H0 H1 H2)).
  - exact (Hb [HandleUserMessage "alice" "Hello!" None; ProcessSession "u0"]
              InMemoryBroker.init 0%Q 0 Sample.served_session H3 H4).
Defined.




(** The theorem of C7 at the second turn of session "u0". *)
Lemma turn_adds_two_messages_witness :
  _sessions Sample.served !! "u0" = Some 0 /\
  heap Sample.served !! 0 = Some Sample.served_session /\
  s_id Sample.served_session = "u0" /\
  channel_ok "u0" (broker Sample.served) = true /\
  (state Sample.served_session ∈ [IDLE; AI_COMMITTED]) /\
  handle_user_message Sample.uuid_at Sample.utcnow_at "alice" "How are you?" (Some "u0")
    Sample.served = (Ok 0, snd Sample.asked_again) /\
  generation_cycle Sample.uuid_at Sample.utcnow_at "u0" (snd Sample.asked_again) =
    (Ok tt, snd Sample.answered_again) /\
  _process_session Sample.uuid_at Sample.utcnow_at "u0" (snd Sample.asked_again) =
    (Ok tt, snd Sample.answered_again) /\
  exists s2 user_msg ai_msg,
    stored_session (snd Sample.answered_again) "u0" = Some s2 /\
    state s2 = IDLE /\
    messages s2 = messages Sample.served_session ++ [user_msg; ai_msg] /\
    role user_msg = "user" /\ content user_msg = "How are you?" /\
    role ai_msg = "assistant" /\
    length (messages s2) = length (messages Sample.served_session) + 2.
Proof.
  assert (H1 : _sessions Sample.served !! "u0" = Some 0) by (vm_compute; reflexivity).
  assert (H2 : heap Sample.served !! 0 = Some Sample.served_session) by (vm_compute; reflexivity).
  assert (H3 : s_id Sample.served_session = "u0") by reflexivity.
  assert (H4 : channel_ok "u0" (broker Sample.served) = true) by (vm_compute; reflexivity).
  assert (H5 : state Sample.served_session ∈ [IDLE; AI_COMMITTED]) by decided.
  assert (H6 : handle_user_message Sample.uuid_at Sample.utcnow_at "alice" "How are you?"
                 (Some "u0") Sample.served = (Ok 0, snd Sample.asked_again))
    by (vm_compute; reflexivity).
  assert (H7 : generation_cycle Sample.uuid_at Sample.utcnow_at "u0" (snd Sample.asked_again) =
               (Ok tt, snd Sample.answered_again))
    by (vm_compute; reflexivity).
  split; [exact H1|]. split; [exact H2|]. split; [exact H3|]. split; [exact H4|].
  split; [exact H5|]. split; [exact H6|]. split; [exact H7|].
  exact (turn_adds_two_messages_and_returns_to_idle Sample.uuid_at Sample.utcnow_at
           Sample.served (snd Sample.asked_again) (snd Sample.answered_again)
           "alice" "How are you?" "u0" 0 Sample.served_session H1 H2 H3 H4 H5 H6 H7).
Defined.

(* ===================================================================== *)
(** * Further properties of the code                                     *)
(* ===================================================================== *)

(** ** The work queue is first in, first out *)


Lemma dequeue_session_no_time (fuel : nat) (timeout t : Q) (b : InMemoryBroker.t) :
  (timeout <= 0)%Q ->
  InMemoryBroker.dequeue_session (S fuel) timeout (t, b) = (Ok None, (t, b)).
Proof.
  intros Hneg.
  unfold InMemoryBroker.dequeue_session, try_except, bind at 1, loop_now, gets. cbn [fst].
  cbn [InMemoryBroker.dequeue_loop]. unfold bind at 1, loop_now, gets. cbn [fst].
  destruct (Qlt_le_dec t (t + timeout)) as [Hlt|_]; [exfalso; lra | reflexivity].
Qed.

(** X1.  The work queue is first in, first out: after the ids [x :: rest]
    have been enqueued, in order, on a broker whose work queue is empty, a
    [dequeue_session] that enters its loop, the clock read again being
    below the deadline, returns [x] without sleeping and leaves [rest], in
    order, for the next calls; the event channels are not touched.  A call
    that does not enter its loop ([timeout] zero, negative, [nan], too
    small to change the sum, or elapsed between the two readings) returns
    [None] and leaves every id in the queue. *)
Theorem work_queue_is_first_in_first_out
    (time_at : nat -> Polling.float) (nap_at : nat -> Polling.nap)
    (fuel : nat) (timeout : Polling.float) (s : Polling.state)
    (x : string) (rest : list string) :
  InMemoryBroker._work_queue (Polling.self s) = [] ->
  exists s1,
    for_each (x :: rest) Polling.enqueue_session s = (Ok tt, s1) /\
    InMemoryBroker._work_queue (Polling.self s1) = x :: rest /\
    Polling.dequeue_session time_at nap_at (S fuel) timeout s1 =
      if Polling.ltb (time_at (S (Polling.reads s)))
           (Polling.add (time_at (Polling.reads s)) timeout)
      then (Ok (Some x),
            Polling.mkState (Polling.reads s + 2) (Polling.sleeps s)
              (InMemoryBroker.mk rest (InMemoryBroker._session_queues (Polling.self s))
                 (InMemoryBroker.queues (Polling.self s))))
      else (Ok None, Polling.mkState (Polling.reads s + 2) (Polling.sleeps s) (Polling.self s1)).
Proof.
  intros Hempty. eexists.
  split; [apply PollingFacts.enqueue_in_order|].
  cbn [Polling.self InMemoryBroker._work_queue]. rewrite Hempty. cbn [app].
  split; [reflexivity|].
  rewrite (PollingFacts.call_takes_the_head time_at nap_at fuel timeout _ x rest)
    by reflexivity.
  reflexivity.
Qed.

Lemma work_queue_fifo_witness :
  InMemoryBroker._work_queue (Polling.self (Polling.start InMemoryBroker.init)) = [] /\
  exists s1,
    for_each ["a"; "b"; "c"] Polling.enqueue_session (Polling.start InMemoryBroker.init) =
      (Ok tt, s1) /\
    InMemoryBroker._work_queue (Polling.self s1) = ["a"; "b"; "c"] /\
    Polling.dequeue_session (Polling.logical Polling.zero) Polling.quiet 1 Polling.one s1 =
      (Ok (Some "a"), Polling.mkState 2 0 (InMemoryBroker.mk ["b"; "c"] ∅ [])) /\
    Polling.dequeue_session (Polling.logical Polling.one) Polling.quiet 1
        (S754_finite false 4503599627370496 (-106)) s1 =
      (Ok None, Polling.mkState 2 0 (Polling.self s1)).
Proof.
  assert (H1 : InMemoryBroker._work_queue (Polling.self (Polling.start InMemoryBroker.init)) = [])
    by reflexivity.
  split; [exact H1|].
  destruct (work_queue_is_first_in_first_out (Polling.logical Polling.zero) Polling.quiet 0
              Polling.one (Polling.start InMemoryBroker.init) "a" ["b"; "c"] H1)
    as (s1 & Hrun & Hq & Hdeq).
  exists s1. split; [exact Hrun|]. split; [exact Hq|]. split; [exact Hdeq|].
  injection Hrun as <-. vm_compute. reflexivity.
Defined.

(** X2.  A [dequeue_session] whose timeout is zero or negative returns
    [None] at once and takes nothing, even when ids are waiting in the
    work queue: the deadline has passed before the queue is looked at. *)
Theorem dequeue_without_time_takes_no_work
    (fuel : nat) (timeout t : Q) (b : InMemoryBroker.t) :
  (timeout <= 0)%Q ->
  InMemoryBroker.dequeue_session (S fuel) timeout (t, b) = (Ok None, (t, b)).
Proof. apply dequeue_session_no_time. Qed.

Lemma dequeue_without_time_witness :
  (0 <= 0)%Q /\
  InMemoryBroker.dequeue_session 1 0 (0%Q, broker Sample.submitted) =
    (Ok None, (0%Q, broker Sample.submitted)) /\
  InMemoryBroker._work_queue (broker Sample.submitted) = ["u0"].
Proof.
  assert (H1 : (0 <= 0)%Q) by (apply Qle_refl).
  split; [exact H1|].
  split; [exact (dequeue_without_time_takes_no_work 0 0 0 (broker Sample.submitted) H1)|].
  vm_compute. reflexivity.
Defined.

(** ** ERROR is final *)

Section ErrorIsFinal.
Context {B : Type} `{!IMessageBroker B}.
Variable uuid_at : nat -> string.
Variable utcnow_at : nat -> datetime.
Variable ref : loc.
Variable s : Session.
Hypothesis Herror : state s = ERROR.

Local Abbreviation kept := (@points_to B ref s).

Lemma kept_stable {A} (m : M (World B) A) :
  (forall w, heap (snd (m w)) = heap w) -> preserves kept m.
Proof. intros Hm w Hw. unfold points_to. rewrite Hm. exact Hw. Qed.

Ltac stable := apply kept_stable; intros w; reflexivity.

Lemma kept_uuid4 : preserves kept (uuid4 (B := B) uuid_at).
Proof. stable. Qed.

Lemma kept_utcnow : preserves kept (utcnow (B := B) utcnow_at).
Proof. stable. Qed.

Lemma kept_lift_broker {A} (m : M (Q * B) A) : preserves kept (lift_broker m).
Proof. apply kept_stable. intros w. unfold lift_broker. destruct (m _). reflexivity. Qed.

Lemma kept_asyncio_sleep (d : Q) : preserves kept (asyncio_sleep (B := B) d).
Proof. apply kept_lift_broker. Qed.

Lemma kept_deref (r : loc) : preserves kept (deref (B := B) r).
Proof. apply kept_stable. intros w. unfold deref. destruct (heap w !! r); reflexivity. Qed.

Lemma kept_get_session (sid : string) : preserves kept (get_session (B := B) sid).
Proof. stable. Qed.

Lemma kept_create_session (session : loc) :
  preserves kept (create_session (B := B) session).
Proof.
  apply kept_stable. intros w. unfold create_session, bind, deref, gets, raise, modify.
  destruct (heap w !! session); [|reflexivity].
  destruct (bool_decide _); reflexivity.
Qed.

Lemma kept_update_session (session : loc) :
  preserves kept (update_session (B := B) session).
Proof.
  apply kept_stable. intros w. unfold update_session, bind, deref, gets, raise, modify.
  destruct (heap w !! session); [|reflexivity].
  destruct (bool_decide _); reflexivity.
Qed.

Lemma kept_delete_session (sid : string) :
  preserves kept (delete_session (B := B) sid).
Proof. stable. Qed.

Lemma kept_new_Session (s0 : Session) : preserves kept (new_Session (B := B) s0).
Proof.
  intros w Hw. unfold points_to in *. cbn.
  rewrite lookup_app_l by (eapply lookup_lt_Some, Hw). exact Hw.
Qed.

(** The only transition [update_state] accepts from [ERROR] is the one to
    [IDLE]. *)
Lemma kept_call_update_state (session : loc) (new_state : SessionState)
    (error_msg : option string) :
  session <> ref \/ new_state <> IDLE ->
  preserves kept (call_update_state (B := B) utcnow_at session new_state error_msg).
Proof.
  intros Hside w Hw. unfold points_to in *.
  destruct (decide (session = ref)) as [->|Hne].
  - destruct Hside as [Hside|Hside]; [congruence|].
    erewrite call_update_state_rejected; [exact Hw | exact Hw |].
    rewrite Herror. cbn [VALID_TRANSITIONS]. rewrite list_elem_of_singleton. exact Hside.
  - unfold call_update_state.
    destruct (heap w !! session) as [self|] eqn:Hself; [|exact Hw].
    destruct (update_state _ _ _ self); cbn; try exact Hw.
    rewrite list_lookup_insert_ne by exact Hne. exact Hw.
Qed.

Lemma kept_call_add_message (session : loc) (message : Message) :
  session <> ref ->
  preserves kept (call_add_message (B := B) utcnow_at session message).
Proof.
  intros Hne w Hw. unfold points_to in *.
  unfold call_add_message, bind, deref, utcnow, modify.
  destruct (heap w !! session) as [self|] eqn:Hself; [|exact Hw].
  cbn. rewrite list_lookup_insert_ne by exact Hne. exact Hw.
Qed.

Lemma kept_incr_retry_count (session : loc) :
  session <> ref ->
  preserves kept (incr_retry_count (B := B) session).
Proof.
  intros Hne w Hw. unfold points_to in *.
  unfold incr_retry_count, bind, deref, modify.
  destruct (heap w !! session) as [self|] eqn:Hself; [|exact Hw].
  cbn. rewrite list_lookup_insert_ne by exact Hne. exact Hw.
Qed.

Create HintDb kept.
Hint Resolve preserves_ret preserves_raise preserves_gets kept_uuid4 kept_utcnow
  kept_lift_broker kept_asyncio_sleep kept_deref kept_get_session kept_create_session
  kept_update_session kept_delete_session kept_new_Session
  kept_call_add_message kept_incr_retry_count : kept.

Ltac keep :=
  repeat first
    [ solve [auto with kept]
    | apply kept_call_update_state; (left; assumption) || (right; discriminate)
    | apply preserves_bind; [|intros ?]
    | apply preserves_try_except; [|intros ?]
    | apply preserves_for_each; intros ?
    | match goal with
      | |- preserves _ (if ?c then _ else _) => destruct c
      | |- preserves _ (match ?x with _ => _ end) => destruct x
      end ].

(** A coroutine that reads the object and raises when it is in [ERROR]
    before it writes anything. *)
Lemma kept_gate {A} (session : loc) (gate : Session -> bool) (e : Session -> exn)
    (body : M (World B) A) :
  (session = ref -> gate s = true) ->
  (session <> ref -> preserves kept body) ->
  preserves kept
    (self <- deref session ;; if gate self then raise (e self) else body).
Proof.
  intros Hgate Hbody w Hw.
  destruct (decide (session = ref)) as [->|Hne].
  - erewrite bind_ok by (apply deref_run; exact Hw).
    rewrite Hgate by reflexivity. exact Hw.
  - revert w Hw. apply preserves_bind; [apply kept_deref|].
    intros self. destruct (gate self); [apply preserves_raise | apply Hbody, Hne].
Qed.

Lemma kept_get_or_create (user : string) (session_id : option string) :
  preserves kept (get_or_create uuid_at utcnow_at user session_id).
Proof. unfold get_or_create. keep. Qed.

Lemma kept_handle_user_message (user message_content : string) (session_id : option string) :
  preserves kept
    (handle_user_message uuid_at utcnow_at user message_content session_id).
Proof.
  unfold handle_user_message.
  apply preserves_bind; [apply kept_get_or_create|]. intros session.
  apply (kept_gate session (fun self => negb (bool_decide (state self ∈ [IDLE; AI_COMMITTED])))
           (fun self => ValueError (cannot_accept_msg (state self)))).
  - intros _. rewrite Herror. reflexivity.
  - intros Hne. keep.
Qed.

Lemma kept_start_ai_generation (sid : string) :
  preserves kept (start_ai_generation utcnow_at sid).
Proof.
  unfold start_ai_generation.
  apply preserves_bind; [apply kept_get_session|]. intros [session|]; [|keep].
  apply (kept_gate session (fun self => bool_decide (state self <> USER_COMMITTED))
           (fun self => ValueError (cannot_start_msg (state self)))).
  - intros _. rewrite Herror. reflexivity.
  - intros Hne. keep.
Qed.

Lemma kept_commit_ai_message (sid message_content : string) :
  preserves kept (commit_ai_message uuid_at utcnow_at sid message_content).
Proof.
  unfold commit_ai_message.
  apply preserves_bind; [apply kept_get_session|]. intros [session|]; [|keep].
  apply (kept_gate session (fun self => bool_decide (state self <> AI_GENERATING))
           (fun self => ValueError (cannot_commit_msg (state self)))).
  - intros _. rewrite Herror. reflexivity.
  - intros Hne. keep.
Qed.

Lemma kept_mark_error (sid error_message0 : string) :
  preserves kept (mark_error utcnow_at sid error_message0).
Proof.
  intros w Hw.
  destruct (_sessions w !! sid) as [session|] eqn:Hsid.
  - destruct (decide (session = ref)) as [->|Hne].
    + erewrite mark_error_rejected; [exact Hw | exact Hsid | exact Hw |].
      rewrite Herror. cbn [VALID_TRANSITIONS]. rewrite list_elem_of_singleton. discriminate.
    + unfold mark_error. erewrite bind_ok by apply get_session_run. rewrite Hsid.
      revert w Hw Hsid. intros w Hw _. revert w Hw. keep.
  - erewrite mark_error_missing by exact Hsid. exact Hw.
Qed.

Hint Resolve kept_handle_user_message kept_start_ai_generation kept_commit_ai_message
  kept_mark_error : kept.

Lemma kept_process_session (sid : string) :
  preserves kept (_process_session uuid_at utcnow_at sid).
Proof. unfold _process_session, generation_cycle, _stream_response. keep. Qed.

Hint Resolve kept_process_session : kept.

Lemma kept_process_loop (fuel : nat) :
  preserves kept (_process_loop uuid_at utcnow_at fuel).
Proof. unfold _process_loop. keep. Qed.

Hint Resolve kept_process_loop : kept.

Lemma kept_run (o : op) : preserves kept (run uuid_at utcnow_at o).
Proof. destruct o; cbn [run]; unfold forget; keep. Qed.

End ErrorIsFinal.

(** X6.  A session in [ERROR] is never touched again.  The table has an
    edge from [ERROR] to [IDLE], but no operation takes it: whatever the
    broker, every sequence of calls of the state machine, of the worker
    and of the database leaves the object exactly as it is, with its
    state, messages, description, retry count and time stamps. *)
Theorem a_session_in_error_is_never_modified
    {B : Type} `{!IMessageBroker B}
    (uuid_at : nat -> string) (utcnow_at : nat -> datetime)
    (ops : list op) (w : World B) (ref : loc) (s : Session) :
  heap w !! ref = Some s -> state s = ERROR ->
  heap (run_all uuid_at utcnow_at ops w) !! ref = Some s.
Proof.
  intros Hs Herror. revert w Hs.
  induction ops as [|o ops IH]; intros w Hs; [exact Hs|].
  cbn [run_all]. apply IH.
  exact (kept_run uuid_at utcnow_at ref s Herror o w Hs).
Qed.

Lemma a_session_in_error_witness :
  heap Scenario.failed !! 0 = Some Scenario.failed_session /\
  state Scenario.failed_session = ERROR /\
  heap (run_all Sample.uuid_at Sample.utcnow_at Scenario.retries Scenario.failed) !! 0 =
    Some Scenario.failed_session.
Proof.
  assert (H1 : heap Scenario.failed !! 0 = Some Scenario.failed_session)
    by (vm_compute; reflexivity).
  assert (H2 : state Scenario.failed_session = ERROR) by reflexivity.
  split; [exact H1|]. split; [exact H2|].
  exact (a_session_in_error_is_never_modified Sample.uuid_at Sample.utcnow_at
           Scenario.retries Scenario.failed 0 Scenario.failed_session H1 H2).
Defined.

(** ** What holds of the broker holds of the process *)

Section BrokerInvariant.
Context {B : Type} `{!IMessageBroker B}.
Variable uuid_at : nat -> string.
Variable utcnow_at : nat -> datetime.
Variable P : B -> Prop.

Local Abbreviation on_broker := (fun w : World B => P (broker w)).
Local Abbreviation on_snd := (fun tb : Q * B => P (snd tb)).

Hypothesis P_enqueue : forall sid, preserves on_snd (enqueue_session sid).
Hypothesis P_dequeue : forall fuel timeout, preserves on_snd (dequeue_session fuel timeout).
Hypothesis P_send : forall sid ev, preserves on_snd (send_event sid ev).
Hypothesis P_events : forall sid, preserves on_snd (get_session_events sid).
Hypothesis P_cleanup : forall sid, preserves on_snd (cleanup_session_queue sid).

Lemma on_broker_stable {A} (m : M (World B) A) :
  (forall w, broker (snd (m w)) = broker w) -> preserves on_broker m.
Proof. intros Hm w Hw. cbn beta. rewrite Hm. exact Hw. Qed.

Lemma on_broker_lift {A} (m : M (Q * B) A) :
  preserves on_snd m -> preserves on_broker (lift_broker m).
Proof.
  intros Hm w Hw. unfold lift_broker.
  specialize (Hm (loop_time w, broker w) Hw).
  destruct (m (loop_time w, broker w)) as [r tb]. exact Hm.
Qed.

Lemma on_snd_loop_sleep (d : Q) : preserves on_snd (loop_sleep (B := B) d).
Proof. intros tb Htb. exact Htb. Qed.

Lemma on_broker_uuid4 : preserves on_broker (uuid4 uuid_at).
Proof. apply on_broker_stable. reflexivity. Qed.

Lemma on_broker_utcnow : preserves on_broker (utcnow utcnow_at).
Proof. apply on_broker_stable. reflexivity. Qed.

Lemma on_broker_deref (r : loc) : preserves on_broker (deref r).
Proof. apply on_broker_stable. intros w. unfold deref. destruct (heap w !! r); reflexivity. Qed.

Lemma on_broker_new_Session (s : Session) : preserves on_broker (new_Session s).
Proof. apply on_broker_stable. reflexivity. Qed.

Lemma on_broker_call_add_message (session : loc) (message : Message) :
  preserves on_broker (call_add_message utcnow_at session message).
Proof.
  apply on_broker_stable. intros w. unfold call_add_message, bind, deref.
  destruct (heap w !! session); reflexivity.
Qed.

Lemma on_broker_incr_retry_count (session : loc) : preserves on_broker (incr_retry_count session).
Proof.
  apply on_broker_stable. intros w. unfold incr_retry_count, bind, deref.
  destruct (heap w !! session); reflexivity.
Qed.

Lemma on_broker_call_update_state (session : loc) (new_state : SessionState)
    (error_msg : option string) :
  preserves on_broker (call_update_state utcnow_at session new_state error_msg).
Proof.
  apply on_broker_stable. intros w. unfold call_update_state.
  destruct (heap w !! session); [|reflexivity].
  destruct (update_state _ _ _ _); reflexivity.
Qed.

Lemma on_broker_create_session (session : loc) : preserves on_broker (create_session session).
Proof.
  apply on_broker_stable. intros w. unfold create_session, bind, deref, gets.
  destruct (heap w !! session); [|reflexivity].
  destruct (bool_decide _); reflexivity.
Qed.

Lemma on_broker_update_session (session : loc) : preserves on_broker (update_session session).
Proof.
  apply on_broker_stable. intros w. unfold update_session, bind, deref, gets.
  destruct (heap w !! session); [|reflexivity].
  destruct (bool_decide _); reflexivity.
Qed.

Lemma on_broker_delete_session (sid : string) : preserves on_broker (delete_session sid).
Proof. apply on_broker_stable. reflexivity. Qed.

Create HintDb on_broker.
Hint Resolve preserves_ret preserves_raise preserves_gets on_broker_uuid4 on_broker_utcnow
  on_broker_deref on_broker_new_Session on_broker_call_add_message on_broker_incr_retry_count
  on_broker_call_update_state on_broker_create_session on_broker_update_session
  on_broker_delete_session on_snd_loop_sleep P_enqueue P_dequeue P_send P_events P_cleanup
  : on_broker.

Ltac keep_broker :=
  repeat first
    [ solve [auto with on_broker]
    | apply on_broker_lift; solve [auto with on_broker]
    | apply preserves_bind; [|intros ?]
    | apply preserves_try_except; [|intros ?]
    | apply preserves_for_each; intros ?
    | match goal with
      | |- preserves _ (if ?c then _ else _) => destruct c
      | |- preserves _ (match ?x with _ => _ end) => destruct x
      end ].

Lemma on_broker_run (o : op) : preserves on_broker (run uuid_at utcnow_at o).
Proof.
  destruct o; unfold run, forget, handle_user_message, get_or_create, start_ai_generation,
    commit_ai_message, mark_error, _process_loop, _process_session, generation_cycle,
    _stream_response, get_session, asyncio_sleep; keep_broker.
Qed.

Lemma on_broker_run_all (ops : list op) (w : World B) :
  P (broker w) -> P (broker (run_all uuid_at utcnow_at ops w)).
Proof.
  revert w. induction ops as [|o ops IH]; intros w Hw; [exact Hw|].
  cbn [run_all]. apply IH. exact (on_broker_run o w Hw).
Qed.

End BrokerInvariant.

(** ** Event channels of different sessions *)

Lemma try_get_nowait_head (t : Q) (b : InMemoryBroker.t) (x : string) (rest : list string) :
  InMemoryBroker._work_queue b = x :: rest ->
  InMemoryBroker.try_get_nowait (t, b) =
    (Ok (Some x),
     (t, InMemoryBroker.mk rest (InMemoryBroker._session_queues b) (InMemoryBroker.queues b))).
Proof.
  intros Hq. unfold InMemoryBroker.try_get_nowait.
  erewrite try_except_ok; [reflexivity|].
  erewrite bind_ok; [reflexivity|].
  unfold InMemoryBroker.get_nowait, InMemoryBroker.lift. cbn [fst snd]. rewrite Hq. reflexivity.
Qed.

Lemma dequeue_loop_channels (fuel : nat) (deadline : Q) :
  forall tb : Q * InMemoryBroker.t,
    InMemoryBroker._session_queues (snd (snd (InMemoryBroker.dequeue_loop fuel deadline tb))) =
      InMemoryBroker._session_queues (snd tb) /\
    InMemoryBroker.queues (snd (snd (InMemoryBroker.dequeue_loop fuel deadline tb))) =
      InMemoryBroker.queues (snd tb).
Proof.
  induction fuel as [|fuel IH]; intros [t b]; [split; reflexivity|].
  cbn [InMemoryBroker.dequeue_loop].
  erewrite bind_ok by reflexivity. cbn [fst snd].
  destruct (Qlt_le_dec t deadline); [|split; reflexivity].
  destruct (InMemoryBroker._work_queue b) as [|x rest] eqn:Hq.
  - erewrite bind_ok by (apply DequeueFacts.try_get_nowait_empty, Hq).
    apply (IH (_, b)).
  - erewrite bind_ok by (apply try_get_nowait_head, Hq). split; reflexivity.
Qed.

(** [dequeue_session] leaves the event channels alone. *)
Lemma dequeue_session_channels (fuel : nat) (timeout : Q) (tb : Q * InMemoryBroker.t) :
  InMemoryBroker._session_queues (snd (snd (InMemoryBroker.dequeue_session fuel timeout tb))) =
    InMemoryBroker._session_queues (snd tb) /\
  InMemoryBroker.queues (snd (snd (InMemoryBroker.dequeue_session fuel timeout tb))) =
    InMemoryBroker.queues (snd tb).
Proof.
  unfold InMemoryBroker.dequeue_session, try_except.
  erewrite bind_ok by reflexivity. cbn [fst snd].
  pose proof (dequeue_loop_channels fuel (fst tb + timeout) tb) as H.
  destruct (InMemoryBroker.dequeue_loop fuel (fst tb + timeout) tb) as [[r|e|] tb'];
    [|destruct (is_Exception e)|]; exact H.
Qed.

Lemma registry_ok_same (b b' : InMemoryBroker.t) :
  InMemoryBroker._session_queues b' = InMemoryBroker._session_queues b ->
  InMemoryBroker.queues b' = InMemoryBroker.queues b ->
  registry_ok b -> registry_ok b'.
Proof.
  intros Hr Hq [Hwf Hinj]. split.
  - intros sid q. rewrite Hr, Hq. apply Hwf.
  - intros sid sid' q. rewrite Hr. apply Hinj.
Qed.

Lemma registry_ok_queue_for (sid : string) (b : InMemoryBroker.t) :
  registry_ok b ->
  exists q b', InMemoryBroker.queue_for sid b = (Ok q, b') /\ registry_ok b' /\
               is_Some (InMemoryBroker.queues b' !! q).
Proof.
  intros [Hwf Hinj]. unfold InMemoryBroker.queue_for, bind, gets. cbn [fst snd].
  destruct (InMemoryBroker._session_queues b !! sid) as [q|] eqn:Hreg.
  - exists q, b. split; [reflexivity|]. split; [split; assumption|]. exact (Hwf _ _ Hreg).
  - eexists _, _. split; [reflexivity|].
    cbn [InMemoryBroker._session_queues InMemoryBroker.queues snd].
    split; [split|].
    + intros sid' q Hq. cbn [InMemoryBroker._session_queues InMemoryBroker.queues] in *.
      apply lookup_insert_Some in Hq as [[_ <-]|[_ Hq]].
      * rewrite lookup_app_r, Nat.sub_diag by lia. eexists; reflexivity.
      * destruct (Hwf _ _ Hq) as [evs Hevs].
        exists evs. rewrite lookup_app_l by (eapply lookup_lt_Some, Hevs). exact Hevs.
    + intros sid1 sid2 q H1 H2. cbn [InMemoryBroker._session_queues] in *.
      apply lookup_insert_Some in H1 as [[<- <-]|[Hn1 H1]];
        apply lookup_insert_Some in H2 as [[<- E2]|[Hn2 H2]]; try reflexivity.
      * destruct (Hwf _ _ H2) as [evs Hevs]. apply lookup_lt_Some in Hevs. lia.
      * subst q. destruct (Hwf _ _ H1) as [evs Hevs]. apply lookup_lt_Some in Hevs. lia.
      * exact (Hinj _ _ _ H1 H2).
    + rewrite lookup_app_r, Nat.sub_diag by lia. eexists; reflexivity.
Qed.

Lemma registry_ok_put (q : loc) (event : StreamEvent) :
  preserves registry_ok (InMemoryBroker.put q event).
Proof.
  intros b [Hwf Hinj]. unfold InMemoryBroker.put.
  destruct (InMemoryBroker.queues b !! q) as [evs|] eqn:Hq; [|split; assumption].
  split; [|exact Hinj].
  intros sid q' Hq'. cbn [snd InMemoryBroker._session_queues InMemoryBroker.queues] in *.
  destruct (Hwf _ _ Hq') as [evs' Hevs'].
  destruct (decide (q' = q)) as [->|Hne].
  - rewrite list_lookup_insert_eq by (eapply lookup_lt_Some, Hq). eexists; reflexivity.
  - rewrite list_lookup_insert_ne by congruence. eexists; exact Hevs'.
Qed.

Lemma registry_ok_lift {A} (m : M InMemoryBroker.t A) :
  preserves registry_ok m ->
  preserves (fun tb : Q * InMemoryBroker.t => registry_ok (snd tb)) (InMemoryBroker.lift m).
Proof.
  intros Hm tb Htb. unfold InMemoryBroker.lift. specialize (Hm (snd tb) Htb).
  destruct (m (snd tb)) as [r b]. exact Hm.
Qed.

Lemma registry_ok_init : registry_ok InMemoryBroker.init.
Proof.
  split.
  - intros sid q Hq. cbn in Hq. rewrite lookup_empty in Hq. discriminate.
  - intros sid sid' q Hq. cbn in Hq. rewrite lookup_empty in Hq. discriminate.
Qed.

(** In every state the in-memory process can reach, each session has a
    queue object of its own. *)
Lemma reachable_registry (uuid_at : nat -> string) (utcnow_at : nat -> datetime)
    (ops : list op) (t : Q) :
  registry_ok (broker (run_all uuid_at utcnow_at ops (init_world InMemoryBroker.init t))).
Proof.
  apply (on_broker_run_all (B := InMemoryBroker.t) uuid_at utcnow_at registry_ok).
  - intros sid. apply registry_ok_lift. intros b Hb.
    exact (registry_ok_same b _ eq_refl eq_refl Hb).
  - intros fuel timeout tb Htb.
    destruct (dequeue_session_channels fuel timeout tb) as [Hr Hq].
    exact (registry_ok_same _ _ Hr Hq Htb).
  - intros sid ev. apply registry_ok_lift. intros b Hb. unfold bind.
    destruct (registry_ok_queue_for sid b Hb) as (q & b' & -> & Hb' & _).
    apply registry_ok_put, Hb'.
  - intros sid. apply registry_ok_lift. intros b Hb.
    destruct (registry_ok_queue_for sid b Hb) as (q & b' & -> & Hb' & _). exact Hb'.
  - intros sid. apply registry_ok_lift. intros b [Hwf Hinj]. split.
    + intros sid' q Hq. cbn in Hq. apply lookup_delete_Some in Hq as [_ Hq]. exact (Hwf _ _ Hq).
    + intros sid1 sid2 q H1 H2. cbn in H1, H2.
      apply lookup_delete_Some in H1 as [_ H1]. apply lookup_delete_Some in H2 as [_ H2].
      exact (Hinj _ _ _ H1 H2).
  - apply registry_ok_init.
Qed.

(** Publishing for one session leaves the channel of another alone when
    the two do not share a queue object. *)
Lemma send_event_separate
    (sid sid' : string) (ev : StreamEvent) (t : Q) (b : InMemoryBroker.t) :
  sid <> sid' ->
  channel_ok sid b = true ->
  channel_ok sid' b = true ->
  (InMemoryBroker._session_queues b !! sid' = None \/
   InMemoryBroker._session_queues b !! sid <> InMemoryBroker._session_queues b !! sid') ->
  exists b',
    InMemoryBroker.send_event sid ev (t, b) = (Ok tt, (t, b')) /\
    InMemoryBroker.channel sid b' = InMemoryBroker.channel sid b ++ [ev] /\
    InMemoryBroker.channel sid' b' = InMemoryBroker.channel sid' b /\
    InMemoryBroker._work_queue b' = InMemoryBroker._work_queue b.
Proof.
  intros Hne Hok Hok' Hsep.
  unfold channel_ok in Hok, Hok'. unfold InMemoryBroker.channel.
  destruct (InMemoryBroker._session_queues b !! sid) as [q|] eqn:Hreg.
  - apply bool_decide_eq_true_1 in Hok as [evs Hq].
    eexists. split; [apply (ChannelFacts.send_event_registered _ _ _ _ _ _ Hreg Hq)|].
    cbn [InMemoryBroker._session_queues InMemoryBroker.queues InMemoryBroker._work_queue].
    rewrite Hreg, Hq, list_lookup_insert_eq by (eapply lookup_lt_Some, Hq).
    split; [reflexivity|]. split; [|reflexivity].
    destruct (InMemoryBroker._session_queues b !! sid') as [q'|] eqn:Hreg'; [|reflexivity].
    rewrite list_lookup_insert_ne; [reflexivity|].
    intros ->. destruct Hsep as [Hs|Hs]; [discriminate | apply Hs; reflexivity].
  - eexists. split; [apply (ChannelFacts.send_event_unregistered _ _ _ _ Hreg)|].
    cbn [InMemoryBroker._session_queues InMemoryBroker.queues InMemoryBroker._work_queue].
    rewrite lookup_insert_eq, lookup_app_r, Nat.sub_diag by lia.
    split; [reflexivity|]. split; [|reflexivity].
    rewrite lookup_insert_ne by exact Hne.
    destruct (InMemoryBroker._session_queues b !! sid') as [q'|] eqn:Hreg'; [|reflexivity].
    apply bool_decide_eq_true_1 in Hok' as [evs' Hq'].
    rewrite lookup_app_l by (eapply lookup_lt_Some, Hq'). reflexivity.
Qed.

(** X3.  The event channels of different sessions are independent: in
    every state the in-memory process can reach, publishing an event for
    one session appends it to the channel of that session and leaves the
    channel of every other session, and the work queue, as they were. *)
Theorem channels_of_sessions_are_independent
    (uuid_at : nat -> string) (utcnow_at : nat -> datetime) (ops : list op) (t0 t : Q)
    (sid sid' : string) (ev : StreamEvent) :
  sid <> sid' ->
  exists b',
    InMemoryBroker.send_event sid ev
      (t, broker (run_all uuid_at utcnow_at ops (init_world InMemoryBroker.init t0))) =
      (Ok tt, (t, b')) /\
    InMemoryBroker.channel sid b' =
      InMemoryBroker.channel sid
        (broker (run_all uuid_at utcnow_at ops (init_world InMemoryBroker.init t0))) ++ [ev] /\
    InMemoryBroker.channel sid' b' =
      InMemoryBroker.channel sid'
        (broker (run_all uuid_at utcnow_at ops (init_world InMemoryBroker.init t0))) /\
    InMemoryBroker._work_queue b' =
      InMemoryBroker._work_queue
        (broker (run_all uuid_at utcnow_at ops (init_world InMemoryBroker.init t0))).
Proof.
  intros Hne.
  destruct (reachable_registry uuid_at utcnow_at ops t0) as [Hwf Hinj].
  set (b := broker (run_all uuid_at utcnow_at ops (init_world InMemoryBroker.init t0))) in *.
  assert (Hok : forall x, channel_ok x b = true).
  { intros x. unfold channel_ok.
    destruct (InMemoryBroker._session_queues b !! x) as [q|] eqn:Hq; [|reflexivity].
    apply bool_decide_eq_true_2. exact (Hwf _ _ Hq). }
  apply send_event_separate; [exact Hne | apply Hok | apply Hok |].
  destruct (InMemoryBroker._session_queues b !! sid') as [q'|] eqn:Hq'; [right | left; reflexivity].
  intros Heq. apply Hne. exact (Hinj _ _ _ Heq Hq').
Qed.

Lemma channels_independent_witness :
  "zz" <> "u0" /\
  exists b',
    InMemoryBroker.send_event "zz" (mkStreamEvent "token" "x") (0%Q, broker Sample.served) =
      (Ok tt, (0%Q, b')) /\
    InMemoryBroker.channel "zz" b' =
      InMemoryBroker.channel "zz" (broker Sample.served) ++ [mkStreamEvent "token" "x"] /\
    InMemoryBroker.channel "u0" b' = InMemoryBroker.channel "u0" (broker Sample.served) /\
    InMemoryBroker._work_queue b' = InMemoryBroker._work_queue (broker Sample.served).
Proof.
  assert (H1 : "zz" <> "u0") by discriminate.
  split; [exact H1|].
  exact (channels_of_sessions_are_independent Sample.uuid_at Sample.utcnow_at
           [HandleUserMessage "alice" "Hello!" None; ProcessSession "u0"] 0 0 "zz" "u0"
           (mkStreamEvent "token" "x") H1).
Defined.

(** X4.  [cleanup_session_queue] always succeeds; it changes nothing when
    no queue is registered for the session; calling it again changes
    nothing more; afterwards the channel of the session reads as empty,
    and the channels of the other sessions and the work queue are as they
    were. *)
Theorem cleanup_is_safe_and_idempotent (sid : string) (t : Q) (b : InMemoryBroker.t) :
  exists b1,
    InMemoryBroker.cleanup_session_queue sid (t, b) = (Ok tt, (t, b1)) /\
    InMemoryBroker.cleanup_session_queue sid (t, b1) = (Ok tt, (t, b1)) /\
    (InMemoryBroker._session_queues b !! sid = None -> b1 = b) /\
    InMemoryBroker.channel sid b1 = [] /\
    (forall sid', sid' <> sid ->
       InMemoryBroker.channel sid' b1 = InMemoryBroker.channel sid' b) /\
    InMemoryBroker._work_queue b1 = InMemoryBroker._work_queue b.
Proof.
  eexists. split; [reflexivity|].
  split.
  { unfold InMemoryBroker.cleanup_session_queue, InMemoryBroker.lift, modify. cbn [snd fst].
    cbn [InMemoryBroker._session_queues InMemoryBroker.queues InMemoryBroker._work_queue].
    rewrite (delete_id (delete sid (InMemoryBroker._session_queues b))) by apply lookup_delete_eq.
    reflexivity. }
  split.
  { intros Hnone. cbn [snd]. rewrite delete_id by exact Hnone. destruct b; reflexivity. }
  split.
  { unfold InMemoryBroker.channel. cbn [snd InMemoryBroker._session_queues].
    rewrite lookup_delete_eq. reflexivity. }
  split; [|reflexivity].
  intros sid' Hne. unfold InMemoryBroker.channel. cbn [snd InMemoryBroker._session_queues
    InMemoryBroker.queues]. rewrite lookup_delete_ne by congruence. reflexivity.
Qed.

(** X5.  [get_session_events] always succeeds and returns the queue
    registered for the session, building an empty one when there is none;
    a second call returns the same queue and changes nothing; the pending
    events of the session are never disturbed by it. *)
Theorem get_session_events_is_stable (sid : string) (t : Q) (b : InMemoryBroker.t) :
  exists q b1,
    InMemoryBroker.get_session_events sid (t, b) = (Ok q, (t, b1)) /\
    InMemoryBroker._session_queues b1 !! sid = Some q /\
    InMemoryBroker.get_session_events sid (t, b1) = (Ok q, (t, b1)) /\
    InMemoryBroker.channel sid b1 = InMemoryBroker.channel sid b /\
    InMemoryBroker._work_queue b1 = InMemoryBroker._work_queue b.
Proof.
  unfold InMemoryBroker.get_session_events, InMemoryBroker.lift, InMemoryBroker.queue_for,
    bind, gets. cbn [snd fst].
  destruct (InMemoryBroker._session_queues b !! sid) as [q|] eqn:Hreg.
  - exists q, b. unfold ret. cbn [snd fst]. rewrite Hreg.
    repeat split; reflexivity.
  - unfold InMemoryBroker.new_queue, InMemoryBroker.register, modify, ret, bind.
    cbn [snd fst InMemoryBroker._session_queues InMemoryBroker.queues InMemoryBroker._work_queue].
    eexists _, _. split; [reflexivity|].
    cbn [snd fst InMemoryBroker._session_queues InMemoryBroker.queues InMemoryBroker._work_queue].
    rewrite lookup_insert_eq. split; [reflexivity|].
    split; [reflexivity|].
    unfold InMemoryBroker.channel.
    cbn [InMemoryBroker._session_queues InMemoryBroker.queues InMemoryBroker._work_queue].
    rewrite lookup_insert_eq, Hreg.
    rewrite lookup_app_r, Nat.sub_diag by lia. split; reflexivity.
Qed.

(** ** The worker *)


Section Worker.
Context {B : Type} `{!IMessageBroker B}.
Variable uuid_at : nat -> string.
Variable utcnow_at : nat -> datetime.

Lemma process_session_no_raise (sid : string) (w : World B) (e : exn) :
  is_Exception e = true -> fst (_process_session uuid_at utcnow_at sid w) <> Raise e.
Proof.
  intros He. unfold _process_session, try_except at 1.
  destruct (generation_cycle uuid_at utcnow_at sid w) as [[[]|e1|] w1]; cbn [fst]; try discriminate.
  destruct (is_Exception e1) eqn:He1; [|cbn [fst]; congruence].
  unfold try_except.
  destruct ((mark_error utcnow_at sid (str e1) ;;
             lift_broker (send_event sid (mkStreamEvent "error" (str e1)))) w1)
    as [[[]|e2|] w2]; cbn [fst]; try discriminate.
  destruct (is_Exception e2) eqn:He2; cbn [fst]; [discriminate | congruence].
Qed.

Lemma asyncio_sleep_run (d : Q) (w : World B) :
  asyncio_sleep d w = (Ok tt, set_loop ((loop_time w + d)%Q, broker w) w).
Proof. reflexivity. Qed.

Lemma process_loop_no_raise (fuel : nat) (w : World B) (e : exn) :
  is_Exception e = true -> fst (_process_loop uuid_at utcnow_at fuel w) <> Raise e.
Proof.
  intros He. unfold _process_loop, try_except.
  match goal with |- context [let (o, s') := ?m w in _] => destruct (m w) as [[[]|e1|] w1] end;
    cbn [fst]; try discriminate.
  destruct (is_Exception e1) eqn:He1; cbn [fst]; [discriminate | congruence].
Qed.

(** A cancellation met while the worker waits for work is not caught by
    [except Exception]: it ends the loop, as [stop] expects. *)
Lemma process_loop_cancelled (fuel : nat) (w w' : World B) :
  lift_broker (dequeue_session fuel 1.0) w = (Raise CancelledError, w') ->
  _process_loop uuid_at utcnow_at fuel w = (Raise CancelledError, w').
Proof.
  intros Hd. unfold _process_loop, try_except.
  erewrite bind_raise by exact Hd. reflexivity.
Qed.

End Worker.

(** X7.  No [Exception] escapes the worker, whatever the broker does: one
    pass of [_process_session], alone or among the other tasks of the
    event loop under any schedule, and one iteration of the loop of
    [_process_loop], never end by raising an exception [e] with
    [isinstance(e, Exception)], in any state.  What is not an [Exception],
    the [CancelledError] of a cancelled task, is not caught by the worker's
    [except Exception] and does escape ([process_loop_cancelled]). *)
Theorem no_exception_escapes_the_worker
    {B : Type} `{!IMessageBroker B}
    (uuid_at : nat -> string) (utcnow_at : nat -> datetime)
    (sid : string) (fuel : nat) (w : World B) (schedule : list EventLoop.wake) (e : exn) :
  is_Exception e = true ->
  fst (_process_session uuid_at utcnow_at sid w) <> Raise e /\
  fst (_process_loop uuid_at utcnow_at fuel w) <> Raise e /\
  fst (EventLoop._process_session uuid_at utcnow_at sid (schedule, w)) <> Raise e.
Proof.
  intros He.
  split; [apply process_session_no_raise, He|].
  split; [apply process_loop_no_raise, He|].
  apply EventLoopFacts.scheduled_session_no_raise, He.
Qed.

(** The theorem at the exception of an empty queue, for the session "u0"
    whose first message has been accepted, the worker being cancelled
    during its first sleep: what the cycle raises then is not an
    [Exception], and the session is left [AI_GENERATING]. *)
Lemma no_exception_escapes_witness :
  is_Exception Empty = true /\
  (fst (_process_session Sample.uuid_at Sample.utcnow_at "u0" Sample.submitted) <> Raise Empty /\
   fst (_process_loop Sample.uuid_at Sample.utcnow_at 20 Sample.submitted) <> Raise Empty /\
   fst (EventLoop._process_session Sample.uuid_at Sample.utcnow_at "u0"
          ([EventLoop.Cancelled], Sample.submitted)) <> Raise Empty) /\
  fst (EventLoop._process_session Sample.uuid_at Sample.utcnow_at "u0"
         ([EventLoop.Cancelled], Sample.submitted)) = Raise CancelledError /\
  option_map state
    (stored_session
       (snd (snd (EventLoop._process_session Sample.uuid_at Sample.utcnow_at "u0"
                    ([EventLoop.Cancelled], Sample.submitted)))) "u0") = Some AI_GENERATING.
Proof.
  assert (H1 : is_Exception Empty = true) by reflexivity.
  split; [exact H1|].
  split; [exact (no_exception_escapes_the_worker Sample.uuid_at Sample.utcnow_at "u0" 20
                   Sample.submitted [EventLoop.Cancelled] Empty H1)|].
  split; vm_compute; reflexivity.
Defined.

Section InMemoryWorker.
Variable uuid_at : nat -> string.
Variable utcnow_at : nat -> datetime.

Local Abbreviation W := (World InMemoryBroker.t).

(** The broker once the oldest id has been taken from the work queue. *)
Local Abbreviation popped rest w :=
  (set_loop (loop_time w,
             InMemoryBroker.mk rest (InMemoryBroker._session_queues (broker w))
               (InMemoryBroker.queues (broker w))) w).





End InMemoryWorker.







(** ** The writes to a session object *)

Section Writes.
Context {B : Type} `{!IMessageBroker B}.
Variable uuid_at : nat -> string.
Variable utcnow_at : nat -> datetime.

(** A property of the heap of sessions that every write and every new
    object keep. *)
Variable I : list Session -> Prop.
Hypothesis I_write : forall h session self self',
  h !! session = Some self -> written self self' -> I h -> I (<[session := self']> h).
Hypothesis I_new : forall h s0, I h -> I (h ++ [s0]).

Local Abbreviation on_heap := (fun w : World B => I (heap w)).

Lemma on_heap_stable {A} (m : M (World B) A) :
  (forall w, heap (snd (m w)) = heap w) -> preserves on_heap m.
Proof. intros Hm w Hw. cbn beta. rewrite Hm. exact Hw. Qed.

Lemma on_heap_uuid4 : preserves on_heap (uuid4 uuid_at).
Proof. apply on_heap_stable. reflexivity. Qed.

Lemma on_heap_utcnow : preserves on_heap (utcnow utcnow_at).
Proof. apply on_heap_stable. reflexivity. Qed.

Lemma on_heap_lift_broker {A} (m : M (Q * B) A) : preserves on_heap (lift_broker m).
Proof. apply on_heap_stable. intros w. unfold lift_broker. destruct (m _). reflexivity. Qed.

Lemma on_heap_asyncio_sleep (d : Q) : preserves on_heap (asyncio_sleep d).
Proof. apply on_heap_lift_broker. Qed.

Lemma on_heap_deref (r : loc) : preserves on_heap (deref r).
Proof. apply on_heap_stable. intros w. unfold deref. destruct (heap w !! r); reflexivity. Qed.

Lemma on_heap_get_session (sid : string) : preserves on_heap (get_session sid).
Proof. apply on_heap_stable. reflexivity. Qed.

Lemma on_heap_create_session (session : loc) : preserves on_heap (create_session session).
Proof.
  apply on_heap_stable. intros w. unfold create_session, bind, deref, gets.
  destruct (heap w !! session); [|reflexivity].
  destruct (bool_decide _); reflexivity.
Qed.

Lemma on_heap_update_session (session : loc) : preserves on_heap (update_session session).
Proof.
  apply on_heap_stable. intros w. unfold update_session, bind, deref, gets.
  destruct (heap w !! session); [|reflexivity].
  destruct (bool_decide _); reflexivity.
Qed.

Lemma on_heap_delete_session (sid : string) : preserves on_heap (delete_session sid).
Proof. apply on_heap_stable. reflexivity. Qed.

Lemma on_heap_new_Session (s0 : Session) : preserves on_heap (new_Session s0).
Proof. intros w Hw. cbn. apply I_new, Hw. Qed.

Lemma on_heap_call_update_state (session : loc) (new_state : SessionState)
    (error_msg : option string) :
  preserves on_heap (call_update_state utcnow_at session new_state error_msg).
Proof.
  intros w Hw. unfold call_update_state.
  destruct (heap w !! session) as [self|] eqn:Hself; [|exact Hw].
  destruct (update_state _ _ _ self) as [self'| |] eqn:Hup; cbn; try exact Hw.
  eapply I_write; [exact Hself | eapply written_state, Hup | exact Hw].
Qed.

Lemma on_heap_call_add_message (session : loc) (message : Message) :
  preserves on_heap (call_add_message utcnow_at session message).
Proof.
  intros w Hw. unfold call_add_message, bind, deref, utcnow, modify.
  destruct (heap w !! session) as [self|] eqn:Hself; [|exact Hw].
  cbn. eapply I_write; [exact Hself | apply written_message | exact Hw].
Qed.

Lemma on_heap_incr_retry_count (session : loc) : preserves on_heap (incr_retry_count session).
Proof.
  intros w Hw. unfold incr_retry_count, bind, deref, modify.
  destruct (heap w !! session) as [self|] eqn:Hself; [|exact Hw].
  cbn. eapply I_write; [exact Hself | apply written_retry | exact Hw].
Qed.

Create HintDb on_heap.
Hint Resolve preserves_ret preserves_raise preserves_gets on_heap_uuid4 on_heap_utcnow
  on_heap_lift_broker on_heap_asyncio_sleep on_heap_deref on_heap_get_session
  on_heap_create_session on_heap_update_session on_heap_delete_session on_heap_new_Session
  on_heap_call_update_state on_heap_call_add_message on_heap_incr_retry_count : on_heap.

Ltac keep_heap :=
  repeat first
    [ solve [auto with on_heap]
    | apply preserves_bind; [|intros ?]
    | apply preserves_try_except; [|intros ?]
    | apply preserves_for_each; intros ?
    | match goal with
      | |- preserves _ (if ?c then _ else _) => destruct c
      | |- preserves _ (match ?x with _ => _ end) => destruct x
      end ].

Lemma on_heap_run (o : op) : preserves on_heap (run uuid_at utcnow_at o).
Proof.
  destruct o; unfold run, forget, handle_user_message, get_or_create, start_ai_generation,
    commit_ai_message, mark_error, _process_loop, _process_session, generation_cycle,
    _stream_response; keep_heap.
Qed.

Lemma on_heap_run_all (ops : list op) (w : World B) :
  I (heap w) -> I (heap (run_all uuid_at utcnow_at ops w)).
Proof.
  revert w. induction ops as [|o ops IH]; intros w Hw; [exact Hw|].
  cbn [run_all]. apply IH. exact (on_heap_run o w Hw).
Qed.

End Writes.

Lemma extends_refl (s : Session) : extends s s.
Proof. repeat split; reflexivity. Qed.

Lemma extends_written (s s1 s2 : Session) : extends s s1 -> written s1 s2 -> extends s s2.
Proof.
  intros (Hid & Hu & Hc & Hm & Hr) Hw. destruct Hw as [now new_state error_msg s2 Hup|now m|].
  - apply update_state_ok in Hup as [_ ->]. repeat split; assumption.
  - repeat split; try assumption. cbn [messages add_message].
    etransitivity; [exact Hm|]. apply prefix_app_r. reflexivity.
  - repeat split; try assumption. cbn [retry_count]. lia.
Qed.

(** X11.  The past of a session is never rewritten: whatever the broker
    and whatever is called, in any order, a session object stays in the
    heap with the same id, the same owner and the same creation time; its
    messages are only ever added to, at the end; its retry count never
    goes down. *)
Theorem the_past_of_a_session_is_never_rewritten
    {B : Type} `{!IMessageBroker B}
    (uuid_at : nat -> string) (utcnow_at : nat -> datetime)
    (ops : list op) (w : World B) (ref : loc) (s : Session) :
  heap w !! ref = Some s ->
  exists s',
    heap (run_all uuid_at utcnow_at ops w) !! ref = Some s' /\
    s_id s' = s_id s /\ user_id s' = user_id s /\ created_at s' = created_at s /\
    messages s `prefix_of` messages s' /\ (retry_count s <= retry_count s')%Z.
Proof.
  intros Hs.
  apply (on_heap_run_all uuid_at utcnow_at
           (fun h => exists s', h !! ref = Some s' /\ extends s s')).
  - intros h session self self' Hself Hw (s1 & Hs1 & Hext).
    destruct (decide (session = ref)) as [->|Hne].
    + exists self'. split.
      * apply list_lookup_insert_eq. eapply lookup_lt_Some, Hself.
      * rewrite Hs1 in Hself. injection Hself as <-. exact (extends_written _ _ _ Hext Hw).
    + exists s1. split; [|exact Hext]. rewrite list_lookup_insert_ne by exact Hne. exact Hs1.
  - intros h s0 (s1 & Hs1 & Hext). exists s1. split; [|exact Hext].
    rewrite lookup_app_l by (eapply lookup_lt_Some, Hs1). exact Hs1.
  - exists s. split; [exact Hs | apply extends_refl].
Qed.

Lemma the_past_of_a_session_witness :
  heap Sample.served !! 0 = Some Sample.served_session /\
  exists s',
    heap (run_all Sample.uuid_at Sample.utcnow_at Scenario.second_turn Sample.served) !! 0 =
      Some s' /\
    s_id s' = s_id Sample.served_session /\ user_id s' = user_id Sample.served_session /\
    created_at s' = created_at Sample.served_session /\
    messages Sample.served_session `prefix_of` messages s' /\
    (retry_count Sample.served_session <= retry_count s')%Z.
Proof.
  assert (H1 : heap Sample.served !! 0 = Some Sample.served_session)
    by (vm_compute; reflexivity).
  split; [exact H1|].
  exact (the_past_of_a_session_is_never_rewritten Sample.uuid_at Sample.utcnow_at
           Scenario.second_turn Sample.served 0 Sample.served_session H1).
Defined.

(** ** The event stream of a session *)

Module RelayFacts.
Import Relay.

Local Abbreviation took q rest w :=
  (set_loop (loop_time w,
             InMemoryBroker.mk (InMemoryBroker._work_queue (broker w))
               (InMemoryBroker._session_queues (broker w))
               (<[q := rest]> (InMemoryBroker.queues (broker w)))) w).

Lemma wait_some (out : list string) (w : World InMemoryBroker.t) (q : loc)
    (event : StreamEvent) (rest : list StreamEvent) :
  InMemoryBroker.queues (broker w) !! q = Some (event :: rest) ->
  await (lift_broker (wait_for_get q 30)) (out, w) = (Ok (Some event), (out, took q rest w)).
Proof.
  intros Hq. unfold await, lift_broker, wait_for_get. cbn [fst snd]. rewrite Hq. reflexivity.
Qed.

Lemma wait_none (out : list string) (w : World InMemoryBroker.t) (q : loc) :
  InMemoryBroker.queues (broker w) !! q = Some [] ->
  await (lift_broker (wait_for_get q 30)) (out, w) =
    (Ok None, (out, set_loop ((loop_time w + 30)%Q, broker w) w)).
Proof.
  intros Hq. unfold await, lift_broker, wait_for_get. cbn [fst snd]. rewrite Hq. reflexivity.
Qed.

Lemma took_took (q : loc) (rest rest' : list StreamEvent) (w : World InMemoryBroker.t) :
  took q rest' (took q rest w) = took q rest' w.
Proof.
  unfold set_loop. cbn [fst snd heap _sessions broker loop_time uuid_calls utcnow_calls history
    InMemoryBroker._work_queue InMemoryBroker._session_queues InMemoryBroker.queues].
  rewrite list_insert_insert_eq. reflexivity.
Qed.

(** The loop relays the pending events up to the first terminal one. *)
Lemma relay_loop_drain (body : list StreamEvent) :
  forall (fuel : nat) (out : list string) (w : World InMemoryBroker.t) (q : loc)
         (t : StreamEvent) (rest : list StreamEvent),
    Forall (fun e => terminal e = false) body -> terminal t = true ->
    InMemoryBroker.queues (broker w) !! q = Some (body ++ t :: rest) ->
    (length body < fuel)%nat ->
    relay_loop fuel q (out, w) =
      (Ok tt, (out ++ map to_sse_format (body ++ [t]), took q rest w)).
Proof.
  induction body as [|e body IH]; intros fuel out w q t rest Hbody Ht Hq Hfuel;
    (destruct fuel as [|fuel]; [cbn in Hfuel; lia|]); cbn [relay_loop].
  - erewrite bind_ok by (apply wait_some; exact Hq).
    unfold yield. erewrite bind_ok by reflexivity. rewrite Ht. reflexivity.
  - erewrite bind_ok by (apply wait_some; exact Hq).
    unfold yield. erewrite bind_ok by reflexivity. cbn [fst snd].
    apply Forall_cons in Hbody as [He Hbody]. rewrite He.
    rewrite (IH fuel _ (took q (body ++ t :: rest) w) q t rest Hbody Ht).
    + rewrite took_took, <- app_assoc. reflexivity.
    + cbn [set_loop broker snd InMemoryBroker.queues].
      apply list_lookup_insert_eq. eapply lookup_lt_Some, Hq.
    + cbn [length] in Hfuel. lia.
Qed.

Lemma relay_loop_idle (n : nat) :
  forall (out : list string) (w : World InMemoryBroker.t) (q : loc),
    InMemoryBroker.queues (broker w) !! q = Some [] ->
    relay_loop n q (out, w) =
      (Stuck, (out ++ replicate n keepalive,
               set_loop (Nat.iter n (fun t => (t + 30)%Q) (loop_time w), broker w) w)).
Proof.
  induction n as [|n IH]; intros out w q Hq.
  - cbn [relay_loop replicate Nat.iter]. unfold stuck. rewrite app_nil_r.
    destruct w; reflexivity.
  - cbn [relay_loop]. erewrite bind_ok by (apply wait_none; exact Hq).
    unfold yield. erewrite bind_ok by reflexivity. cbn [fst snd].
    rewrite IH by exact Hq.
    cbn [set_loop fst snd heap _sessions broker loop_time uuid_calls utcnow_calls history].
    rewrite <- app_assoc. cbn [app replicate].
    rewrite Nat.iter_succ_r. reflexivity.
Qed.

End RelayFacts.

(** The generator relays the pending events up to the first terminal one,
    then releases the queue. *)
Lemma event_generator_drain
    (fuel : nat) (sid : string) (out : list string) (w : World InMemoryBroker.t) (q : loc)
    (body : list StreamEvent) (t : StreamEvent) (rest : list StreamEvent) :
  InMemoryBroker._session_queues (broker w) !! sid = Some q ->
  InMemoryBroker.queues (broker w) !! q = Some (body ++ t :: rest) ->
  Forall (fun e => terminal e = false) body -> terminal t = true ->
  (length body < fuel)%nat ->
  exists b',
    Relay.event_generator fuel sid (out, w) =
      (Ok tt, (out ++ map to_sse_format (body ++ [t]), set_loop (loop_time w, b') w)) /\
    InMemoryBroker._session_queues b' = delete sid (InMemoryBroker._session_queues (broker w)) /\
    InMemoryBroker.queues b' = <[q := rest]> (InMemoryBroker.queues (broker w)) /\
    InMemoryBroker._work_queue b' = InMemoryBroker._work_queue (broker w) /\
    InMemoryBroker.channel sid b' = [].
Proof.
  intros Hreg Hq Hbody Ht Hfuel.
  eexists. split.
  - unfold Relay.event_generator, Relay.try_finally.
    erewrite try_except_ok.
    2:{ erewrite bind_ok.
        2:{ unfold Relay.await, lift_broker. cbn [fst snd get_session_events
              InMemoryBroker_IMessageBroker].
            unfold InMemoryBroker.get_session_events, InMemoryBroker.lift,
              InMemoryBroker.queue_for. cbn [fst snd].
            erewrite bind_ok by reflexivity. rewrite Hreg. reflexivity. }
        rewrite set_loop_same.
        apply (RelayFacts.relay_loop_drain body fuel out w q t rest Hbody Ht Hq Hfuel). }
    reflexivity.
  - cbn [InMemoryBroker._session_queues InMemoryBroker.queues InMemoryBroker._work_queue
      set_loop broker loop_time fst snd].
    repeat split.
    unfold InMemoryBroker.channel. cbn [InMemoryBroker._session_queues].
    rewrite lookup_delete_eq. reflexivity.
Qed.

(** X12.  The stream of a session relays the pending events of its
    channel, in order and in SSE format, up to and including the first
    [commit_done] or [error] event, then ends and releases the queue of
    the session.  The loop clock, the sessions and the work queue are not
    touched; events published behind the terminal one stay in the
    released queue object, out of reach of the session id. *)
Theorem stream_relays_up_to_the_first_terminal_event
    (fuel : nat) (sid : string) (out : list string) (w : World InMemoryBroker.t) (q : loc)
    (body : list StreamEvent) (t : StreamEvent) (rest : list StreamEvent) :
  InMemoryBroker._session_queues (broker w) !! sid = Some q ->
  InMemoryBroker.queues (broker w) !! q = Some (body ++ t :: rest) ->
  Forall (fun e => terminal e = false) body -> terminal t = true ->
  (length body < fuel)%nat ->
  exists b',
    Relay.event_generator fuel sid (out, w) =
      (Ok tt, (out ++ map to_sse_format (body ++ [t]), set_loop (loop_time w, b') w)) /\
    InMemoryBroker._session_queues b' = delete sid (InMemoryBroker._session_queues (broker w)) /\
    InMemoryBroker.queues b' = <[q := rest]> (InMemoryBroker.queues (broker w)) /\
    InMemoryBroker._work_queue b' = InMemoryBroker._work_queue (broker w) /\
    InMemoryBroker.channel sid b' = [].
Proof. apply event_generator_drain. Qed.

Lemma stream_relays_witness :
  InMemoryBroker._session_queues (broker Sample.served) !! "u0" = Some 0 /\
  InMemoryBroker.queues (broker Sample.served) !! 0 =
    Some (Scenario.served_body ++ mkStreamEvent "commit_done" "u0" :: []) /\
  Forall (fun e => terminal e = false) Scenario.served_body /\
  terminal (mkStreamEvent "commit_done" "u0") = true /\
  (length Scenario.served_body < 20)%nat /\
  exists b',
    Relay.event_generator 20 "u0" ([], Sample.served) =
      (Ok tt, ([] ++ map to_sse_format (Scenario.served_body ++ [mkStreamEvent "commit_done" "u0"]),
               set_loop (loop_time Sample.served, b') Sample.served)) /\
    InMemoryBroker._session_queues b' =
      delete "u0" (InMemoryBroker._session_queues (broker Sample.served)) /\
    InMemoryBroker.queues b' = <[0 := []]> (InMemoryBroker.queues (broker Sample.served)) /\
    InMemoryBroker._work_queue b' = InMemoryBroker._work_queue (broker Sample.served) /\
    InMemoryBroker.channel "u0" b' = [].
Proof.
  assert (H1 : InMemoryBroker._session_queues (broker Sample.served) !! "u0" = Some 0)
    by (vm_compute; reflexivity).
  assert (H2 : InMemoryBroker.queues (broker Sample.served) !! 0 =
               Some (Scenario.served_body ++ mkStreamEvent "commit_done" "u0" :: []))
    by (vm_compute; reflexivity).
  assert (H3 : Forall (fun e => terminal e = false) Scenario.served_body) by decided.
  assert (H4 : terminal (mkStreamEvent "commit_done" "u0") = true) by (vm_compute; reflexivity).
  assert (H5 : (length Scenario.served_body < 20)%nat) by (vm_compute; lia).
  split; [exact H1|]. split; [exact H2|]. split; [exact H3|]. split; [exact H4|].
  split; [exact H5|].
  exact (stream_relays_up_to_the_first_terminal_event 20 "u0" [] Sample.served 0
           Scenario.served_body (mkStreamEvent "commit_done" "u0") [] H1 H2 H3 H4 H5).
Defined.

Lemma try_except_stuck {S A} (m : M S A) (h : exn -> M S A) (s s' : S) :
  m s = (Stuck, s') -> try_except m h s = (Stuck, s').
Proof. intros Hm. unfold try_except. rewrite Hm. reflexivity. Qed.

Lemma bind_stuck {S A C} (m : M S A) (k : A -> M S C) (s s' : S) :
  m s = (Stuck, s') -> bind m k s = (Stuck, s').
Proof. intros Hm. unfold bind. rewrite Hm. reflexivity. Qed.

Lemma get_session_events_registers (sid : string) (t t' : Q) (b b1 : InMemoryBroker.t)
    (q : loc) :
  InMemoryBroker.get_session_events sid (t, b) = (Ok q, (t', b1)) ->
  InMemoryBroker._session_queues b1 !! sid = Some q.
Proof.
  unfold InMemoryBroker.get_session_events, InMemoryBroker.lift, InMemoryBroker.queue_for.
  cbn [fst snd]. erewrite bind_ok by reflexivity.
  destruct (InMemoryBroker._session_queues b !! sid) as [q0|] eqn:Hreg.
  - intros [= <- _ <-]. exact Hreg.
  - unfold InMemoryBroker.new_queue, InMemoryBroker.register, modify, ret, bind.
    intros [= <- _ <-]. cbn [InMemoryBroker._session_queues]. apply lookup_insert_eq.
Qed.

(** X13.  While nothing is published for a session, its stream goes on
    and on: each wait of 30 seconds on the loop clock ends with one
    keepalive comment, so after [n] waits the generator has yielded [n]
    of them, has not ended, and has not released the queue it obtained
    (or created) for the session. *)
Theorem an_idle_stream_sends_keepalives
    (n : nat) (sid : string) (out : list string) (w : World InMemoryBroker.t)
    (q : loc) (b1 : InMemoryBroker.t) :
  InMemoryBroker.get_session_events sid (loop_time w, broker w) = (Ok q, (loop_time w, b1)) ->
  InMemoryBroker.queues b1 !! q = Some [] ->
  Relay.event_generator n sid (out, w) =
    (Stuck, (out ++ replicate n Relay.keepalive,
             set_loop (Nat.iter n (fun t => (t + 30)%Q) (loop_time w), b1) w)) /\
  InMemoryBroker._session_queues b1 !! sid = Some q.
Proof.
  intros Hget Hq. split.
  - unfold Relay.event_generator, Relay.try_finally.
    erewrite try_except_stuck; [reflexivity|].
    erewrite bind_ok.
    2:{ unfold Relay.await, lift_broker. cbn [fst snd get_session_events
          InMemoryBroker_IMessageBroker]. rewrite Hget. reflexivity. }
    rewrite RelayFacts.relay_loop_idle by exact Hq. reflexivity.
  - exact (get_session_events_registers _ _ _ _ _ _ Hget).
Qed.

Lemma an_idle_stream_witness :
  InMemoryBroker.get_session_events "u0" (loop_time Sample.start, broker Sample.start) =
    (Ok 0, (loop_time Sample.start, InMemoryBroker.mk [] {["u0" := 0]} [[]])) /\
  InMemoryBroker.queues (InMemoryBroker.mk [] {["u0" := 0]} [[]]) !! 0 = Some [] /\
  Relay.event_generator 3 "u0" ([], Sample.start) =
    (Stuck, ([] ++ replicate 3 Relay.keepalive,
             set_loop (Nat.iter 3 (fun t => (t + 30)%Q) (loop_time Sample.start),
                       InMemoryBroker.mk [] {["u0" := 0]} [[]]) Sample.start)) /\
  InMemoryBroker._session_queues (InMemoryBroker.mk [] {["u0" := 0]} [[]]) !! "u0" = Some 0.
Proof.
  assert (H1 : InMemoryBroker.get_session_events "u0" (loop_time Sample.start, broker Sample.start) =
               (Ok 0, (loop_time Sample.start, InMemoryBroker.mk [] {["u0" := 0]} [[]])))
    by (vm_compute; reflexivity).
  assert (H2 : InMemoryBroker.queues (InMemoryBroker.mk [] {["u0" := 0]} [[]]) !! 0 = Some [])
    by reflexivity.
  split; [exact H1|]. split; [exact H2|].
  exact (an_idle_stream_sends_keepalives 3 "u0" [] Sample.start 0
           (InMemoryBroker.mk [] {["u0" := 0]} [[]]) H1 H2).
Defined.





(** ** The gates of the state machine *)

Section Gates.
Context {B : Type} `{!IMessageBroker B}.
Variable uuid_at : nat -> string.
Variable utcnow_at : nat -> datetime.

Lemma start_ai_generation_iff (w : World B) (sid : string) (ref : loc) (s : Session) :
  _sessions w !! sid = Some ref -> heap w !! ref = Some s -> s_id s = sid ->
  (succeeds (start_ai_generation utcnow_at sid) w <-> state s = USER_COMMITTED) /\
  (~ succeeds (start_ai_generation utcnow_at sid) w ->
   snd (start_ai_generation utcnow_at sid w) = w).
Proof.
  intros Hd Hs Hid.
  destruct (decide (state s = USER_COMMITTED)) as [Hst|Hst].
  - pose proof (start_ai_generation_run uuid_at utcnow_at w sid ref s Hd Hs Hid Hst) as Hrun.
    split; [split; [intros _; exact Hst | intros _; eexists _, _; exact Hrun]|].
    intros Hno. exfalso. apply Hno. eexists _, _. exact Hrun.
  - pose proof (start_ai_generation_gate utcnow_at w sid ref s Hd Hs Hst) as Hrun.
    split; [split; [|intros Hyes; contradiction]|rewrite Hrun; reflexivity].
    intros (a & w' & Hok). rewrite Hrun in Hok. discriminate.
Qed.

Lemma commit_ai_message_gate (w : World B) (sid message_content : string) (ref : loc)
    (s : Session) :
  _sessions w !! sid = Some ref -> heap w !! ref = Some s ->
  state s <> AI_GENERATING ->
  commit_ai_message uuid_at utcnow_at sid message_content w =
    (Raise (ValueError (cannot_commit_msg (state s))), w).
Proof.
  intros Hd Hs Hst. unfold commit_ai_message.
  erewrite bind_ok by apply get_session_run. rewrite Hd.
  erewrite bind_ok by (apply deref_run; exact Hs).
  rewrite bool_decide_eq_true_2 by exact Hst. reflexivity.
Qed.

Lemma commit_ai_message_iff (w : World B) (sid message_content : string) (ref : loc)
    (s : Session) :
  _sessions w !! sid = Some ref -> heap w !! ref = Some s -> s_id s = sid ->
  (succeeds (commit_ai_message uuid_at utcnow_at sid message_content) w <->
   state s = AI_GENERATING) /\
  (~ succeeds (commit_ai_message uuid_at utcnow_at sid message_content) w ->
   snd (commit_ai_message uuid_at utcnow_at sid message_content w) = w).
Proof.
  intros Hd Hs Hid.
  destruct (decide (state s = AI_GENERATING)) as [Hst|Hst].
  - pose proof (commit_ai_message_run uuid_at utcnow_at w sid message_content ref s Hd Hs Hid Hst)
      as Hrun.
    split; [split; [intros _; exact Hst | intros _; eexists _, _; exact Hrun]|].
    intros Hno. exfalso. apply Hno. eexists _, _. exact Hrun.
  - pose proof (commit_ai_message_gate w sid message_content ref s Hd Hs Hst) as Hrun.
    split; [split; [|intros Hyes; contradiction]|rewrite Hrun; reflexivity].
    intros (a & w' & Hok). rewrite Hrun in Hok. discriminate.
Qed.

Lemma error_sources (x : SessionState) :
  ERROR ∈ VALID_TRANSITIONS x <-> x ∈ [USER_WRITING; USER_COMMITTED; AI_GENERATING].
Proof.
  destruct x; cbn [VALID_TRANSITIONS]; split; intros H;
    solve [ decided
          | exfalso; revert H; apply (bool_decide_unpack _); vm_compute; exact I ].
Qed.

Lemma mark_error_iff (w : World B) (sid description : string) (ref : loc) (s : Session) :
  _sessions w !! sid = Some ref -> heap w !! ref = Some s -> s_id s = sid ->
  (succeeds (mark_error utcnow_at sid description) w <->
   state s ∈ [USER_WRITING; USER_COMMITTED; AI_GENERATING]) /\
  (~ succeeds (mark_error utcnow_at sid description) w ->
   snd (mark_error utcnow_at sid description w) = w).
Proof.
  intros Hd Hs Hid. rewrite <- error_sources.
  destruct (decide (ERROR ∈ VALID_TRANSITIONS (state s))) as [Hst|Hst].
  - pose proof (mark_error_run utcnow_at w sid description ref s Hd Hs Hid Hst) as Hrun.
    split; [split; [intros _; exact Hst | intros _; eexists _, _; exact Hrun]|].
    intros Hno. exfalso. apply Hno. eexists _, _. exact Hrun.
  - pose proof (mark_error_rejected utcnow_at w sid description ref s Hd Hs Hst) as Hrun.
    split; [split; [|intros Hyes; contradiction]|rewrite Hrun; reflexivity].
    intros (a & w' & Hok). rewrite Hrun in Hok. discriminate.
Qed.

End Gates.

(** X15.  Each operation of the state machine on a stored session succeeds
    exactly in the states it is meant to leave, whatever the broker:
    [start_ai_generation] in [USER_COMMITTED] only, [commit_ai_message] in
    [AI_GENERATING] only, [mark_error] in [USER_WRITING], [USER_COMMITTED]
    and [AI_GENERATING] only; and a call that does not succeed changes
    nothing at all. *)
Theorem operations_succeed_exactly_in_their_source_states
    {B : Type} `{!IMessageBroker B}
    (uuid_at : nat -> string) (utcnow_at : nat -> datetime)
    (w : World B) (sid text : string) (ref : loc) (s : Session) :
  _sessions w !! sid = Some ref -> heap w !! ref = Some s -> s_id s = sid ->
  ((succeeds (start_ai_generation utcnow_at sid) w <-> state s = USER_COMMITTED) /\
   (~ succeeds (start_ai_generation utcnow_at sid) w ->
    snd (start_ai_generation utcnow_at sid w) = w)) /\
  ((succeeds (commit_ai_message uuid_at utcnow_at sid text) w <-> state s = AI_GENERATING) /\
   (~ succeeds (commit_ai_message uuid_at utcnow_at sid text) w ->
    snd (commit_ai_message uuid_at utcnow_at sid text w) = w)) /\
  ((succeeds (mark_error utcnow_at sid text) w <->
    state s ∈ [USER_WRITING; USER_COMMITTED; AI_GENERATING]) /\
   (~ succeeds (mark_error utcnow_at sid text) w ->
    snd (mark_error utcnow_at sid text w) = w)).
Proof.
  intros Hd Hs Hid.
  split; [apply (start_ai_generation_iff uuid_at utcnow_at w sid ref s Hd Hs Hid)|].
  split; [apply (commit_ai_message_iff uuid_at utcnow_at w sid text ref s Hd Hs Hid)|].
  apply (mark_error_iff utcnow_at w sid text ref s Hd Hs Hid).
Qed.

Lemma operations_succeed_witness :
  _sessions Sample.generating !! "u0" = Some 0 /\
  heap Sample.generating !! 0 = Some Sample.generating_session /\
  s_id Sample.generating_session = "u0" /\
  ~ succeeds (start_ai_generation Sample.utcnow_at "u0") Sample.generating /\
  succeeds (commit_ai_message Sample.uuid_at Sample.utcnow_at "u0" "Hi") Sample.generating /\
  succeeds (mark_error Sample.utcnow_at "u0" "Hi") Sample.generating.
Proof.
  assert (H1 : _sessions Sample.generating !! "u0" = Some 0) by (vm_compute; reflexivity).
  assert (H2 : heap Sample.generating !! 0 = Some Sample.generating_session)
    by (vm_compute; reflexivity).
  assert (H3 : s_id Sample.generating_session = "u0") by reflexivity.
  split; [exact H1|]. split; [exact H2|]. split; [exact H3|].
  destruct (operations_succeed_exactly_in_their_source_states Sample.uuid_at Sample.utcnow_at
              Sample.generating "u0" "Hi" 0 Sample.generating_session H1 H2 H3)
    as ((Hstart & _) & (Hcommit & _) & (Hmark & _)).
  split; [intros Hyes; apply Hstart in Hyes; discriminate|].
  split; [apply Hcommit; reflexivity|].
  apply Hmark. decided.
Defined.

(** ** Submitting a message *)

Section Refusals.
Context {B : Type} `{!IMessageBroker B}.
Variable uuid_at : nat -> string.
Variable utcnow_at : nat -> datetime.

Lemma get_or_create_missing (w : World B) (user sid : string) :
  PyStr.truthy sid = true -> _sessions w !! sid = None ->
  get_or_create uuid_at utcnow_at user (Some sid) w =
    (Raise (ValueError ("Session " +:+ sid +:+ " not found")), w).
Proof.
  intros Ht Hd. unfold get_or_create. cbn [PyStr.truthy_opt]. rewrite Ht.
  change (default EmptyString (Some sid)) with sid. cbv zeta.
  rewrite (bind_ok _ _ _ _ _ (get_session_run _ _)), Hd. reflexivity.
Qed.

Lemma get_or_create_fresh (w : World B) (user : string) (session_id : option string) :
  PyStr.truthy_opt session_id = false ->
  _sessions w !! uuid_at (uuid_calls w) = None ->
  get_or_create uuid_at utcnow_at user session_id w =
    (Ok (length (heap w)),
     mkWorld (heap w ++ [fresh_session uuid_at utcnow_at w user])
       (<[uuid_at (uuid_calls w) := length (heap w)]> (_sessions w))
       (broker w) (loop_time w) (S (uuid_calls w)) (S (S (utcnow_calls w)))
       (history w ++ [(length (heap w), IDLE)])).
Proof.
  intros Ht Hd. unfold get_or_create. rewrite Ht.
  do 4 (erewrite bind_ok by reflexivity). wsimpl.
  erewrite bind_ok; [reflexivity|].
  erewrite (create_session_run _ _ (fresh_session uuid_at utcnow_at w user)); [reflexivity| |exact Hd].
  wsimpl. rewrite lookup_app_r by lia. rewrite Nat.sub_diag. reflexivity.
Qed.

Lemma get_or_create_collision (w : World B) (user : string) (session_id : option string)
    (ref' : loc) :
  PyStr.truthy_opt session_id = false ->
  _sessions w !! uuid_at (uuid_calls w) = Some ref' ->
  get_or_create uuid_at utcnow_at user session_id w =
    (Raise (ValueError ("Session " +:+ uuid_at (uuid_calls w) +:+ " already exists")),
     mkWorld (heap w ++ [fresh_session uuid_at utcnow_at w user]) (_sessions w)
       (broker w) (loop_time w) (S (uuid_calls w)) (S (S (utcnow_calls w)))
       (history w ++ [(length (heap w), IDLE)])).
Proof.
  intros Ht Hd. unfold get_or_create. rewrite Ht.
  do 4 (erewrite bind_ok by reflexivity). wsimpl.
  erewrite bind_raise; [reflexivity|].
  erewrite (create_session_exists _ _ ref' (fresh_session uuid_at utcnow_at w user)); [reflexivity| |exact Hd].
  wsimpl. rewrite lookup_app_r by lia. rewrite Nat.sub_diag. reflexivity.
Qed.

End Refusals.

Lemma stored_at {B} (w : World B) (sid : string) :
  stored_session w sid =
    match _sessions w !! sid with Some ref => heap w !! ref | None => None end.
Proof. unfold stored_session. destruct (_sessions w !! sid); reflexivity. Qed.

(** X16.  [handle_user_message] refuses a session id it does not know,
    and a session that belongs to another user, with a [ValueError] that
    says which, whatever the broker; nothing is changed, and no session
    is created in its place. *)
Theorem unknown_and_foreign_sessions_are_refused
    {B : Type} `{!IMessageBroker B}
    (uuid_at : nat -> string) (utcnow_at : nat -> datetime)
    (w : World B) (user text sid : string) :
  PyStr.truthy sid = true ->
  session_ok sid w = true ->
  (forall s, stored_session w sid = Some s -> user_id s <> user) ->
  handle_user_message uuid_at utcnow_at user text (Some sid) w =
    (Raise (ValueError
       (if bool_decide (is_Some (stored_session w sid))
        then "Session " +:+ sid +:+ " does not belong to user " +:+ user
        else "Session " +:+ sid +:+ " not found")), w).
Proof.
  intros Ht Hok Hforeign. unfold session_ok in Hok. unfold handle_user_message.
  destruct (_sessions w !! sid) as [ref|] eqn:Hd.
  - destruct (heap w !! ref) as [s|] eqn:Hs; [|discriminate].
    rewrite stored_at, Hd, Hs in *.
    rewrite bool_decide_eq_true_2 by (eexists; reflexivity).
    apply bind_raise.
    exact (get_or_create_foreign uuid_at utcnow_at w user sid ref s Ht Hd Hs
             (Hforeign s eq_refl)).
  - rewrite stored_at, Hd.
    rewrite bool_decide_eq_false_2 by (intros [? [=]]).
    apply bind_raise. exact (get_or_create_missing uuid_at utcnow_at w user sid Ht Hd).
Qed.

Lemma unknown_and_foreign_witness :
  PyStr.truthy "u0" = true /\
  session_ok "u0" Sample.served = true /\
  handle_user_message Sample.uuid_at Sample.utcnow_at "bob" "Hi" (Some "u0") Sample.served =
    (Raise (ValueError "Session u0 does not belong to user bob"), Sample.served) /\
  PyStr.truthy "u7" = true /\
  session_ok "u7" Sample.served = true /\
  handle_user_message Sample.uuid_at Sample.utcnow_at "alice" "Hi" (Some "u7") Sample.served =
    (Raise (ValueError "Session u7 not found"), Sample.served).
Proof.
  assert (H1 : PyStr.truthy "u0" = true) by reflexivity.
  assert (H2 : session_ok "u0" Sample.served = true) by (vm_compute; reflexivity).
  assert (H3 : forall s, stored_session Sample.served "u0" = Some s -> user_id s <> "bob").
  { intros s Hs. vm_compute in Hs. injection Hs as <-. discriminate. }
  assert (H4 : PyStr.truthy "u7" = true) by reflexivity.
  assert (H5 : session_ok "u7" Sample.served = true) by (vm_compute; reflexivity).
  assert (H6 : forall s, stored_session Sample.served "u7" = Some s -> user_id s <> "alice").
  { intros s Hs. vm_compute in Hs. discriminate. }
  split; [exact H1|]. split; [exact H2|].
  split; [exact (unknown_and_foreign_sessions_are_refused Sample.uuid_at Sample.utcnow_at
                   Sample.served "bob" "Hi" "u0" H1 H2 H3)|].
  split; [exact H4|]. split; [exact H5|].
  exact (unknown_and_foreign_sessions_are_refused Sample.uuid_at Sample.utcnow_at
           Sample.served "alice" "Hi" "u7" H4 H5 H6).
Defined.

(** X17.  A message for a stored session of the user is accepted exactly
    when the session is [IDLE]: it then becomes the last message of the
    session, which is left [USER_COMMITTED] and put at the end of the work
    queue.  In every other state the call raises a [ValueError] and
    changes nothing; this includes [AI_COMMITTED], which the entry check
    of [handle_user_message] lets through. *)
Theorem a_message_is_accepted_on_idle_sessions_only
    (uuid_at : nat -> string) (utcnow_at : nat -> datetime)
    (w : World InMemoryBroker.t) (user text sid : string) (ref : loc) (s : Session) :
  PyStr.truthy sid = true ->
  _sessions w !! sid = Some ref -> heap w !! ref = Some s -> s_id s = sid ->
  user_id s = user ->
  if bool_decide (state s = IDLE) then
    handle_user_message uuid_at utcnow_at user text (Some sid) w =
      (Ok ref,
       mkWorld
         (<[ref := mkSession sid user USER_COMMITTED
                     (messages s ++ [mkMessage (uuid_at (uuid_calls w)) "user" text
                                       (utcnow_at (S (utcnow_calls w)))])
                     (created_at s) (utcnow_at (3 + utcnow_calls w)) None (retry_count s)]>
            (heap w))
         (_sessions w)
         (InMemoryBroker.mk (InMemoryBroker._work_queue (broker w) ++ [sid])
            (InMemoryBroker._session_queues (broker w)) (InMemoryBroker.queues (broker w)))
         (loop_time w) (S (uuid_calls w)) (4 + utcnow_calls w)
         (history w ++ [(ref, USER_WRITING); (ref, USER_COMMITTED)]))
  else
    exists msg,
      handle_user_message uuid_at utcnow_at user text (Some sid) w = (Raise (ValueError msg), w).
Proof.
  intros Ht Hd Hs Hid Hu.
  destruct (decide (state s = IDLE)) as [Hst|Hst].
  - rewrite bool_decide_eq_true_2 by exact Hst.
    rewrite (handle_user_message_run uuid_at utcnow_at w w user text (Some sid) ref s
               (get_or_create_existing uuid_at utcnow_at w user sid ref s Ht Hd Hs Hu)
               Hs ltac:(rewrite Hid; exact Hd) Hst).
    unfold submitted. rewrite Hid, Hu. reflexivity.
  - rewrite bool_decide_eq_false_2 by exact Hst.
    destruct (decide (state s = AI_COMMITTED)) as [Hc|Hc].
    + eexists. exact (handle_user_message_ai_committed uuid_at utcnow_at w user text sid ref s
                        Ht Hd Hs Hu Hc).
    + eexists. apply (handle_user_message_gate uuid_at utcnow_at w user text sid ref s
                        Ht Hd Hs Hu).
      intros Hin. apply elem_of_cons in Hin as [Hin|Hin]; [contradiction|].
      apply list_elem_of_singleton in Hin. contradiction.
Qed.

Lemma a_message_is_accepted_witness :
  PyStr.truthy "u0" = true /\
  _sessions Sample.served !! "u0" = Some 0 /\
  heap Sample.served !! 0 = Some Sample.served_session /\
  s_id Sample.served_session = "u0" /\
  user_id Sample.served_session = "alice" /\
  (if bool_decide (state Sample.served_session = IDLE) then
     handle_user_message Sample.uuid_at Sample.utcnow_at "alice" "How are you?" (Some "u0")
       Sample.served =
       (Ok 0,
        mkWorld
          (<[0 := mkSession "u0" "alice" USER_COMMITTED
                    (messages Sample.served_session ++
                     [mkMessage (Sample.uuid_at (uuid_calls Sample.served)) "user" "How are you?"
                        (Sample.utcnow_at (S (utcnow_calls Sample.served)))])
                    (created_at Sample.served_session)
                    (Sample.utcnow_at (3 + utcnow_calls Sample.served)) None
                    (retry_count Sample.served_session)]> (heap Sample.served))
          (_sessions Sample.served)
          (InMemoryBroker.mk (InMemoryBroker._work_queue (broker Sample.served) ++ ["u0"])
             (InMemoryBroker._session_queues (broker Sample.served))
             (InMemoryBroker.queues (broker Sample.served)))
          (loop_time Sample.served) (S (uuid_calls Sample.served))
          (4 + utcnow_calls Sample.served)
          (history Sample.served ++ [(0, USER_WRITING); (0, USER_COMMITTED)]))
   else
     exists msg,
       handle_user_message Sample.uuid_at Sample.utcnow_at "alice" "How are you?" (Some "u0")
         Sample.served = (Raise (ValueError msg), Sample.served)).
Proof.
  assert (H1 : PyStr.truthy "u0" = true) by reflexivity.
  assert (H2 : _sessions Sample.served !! "u0" = Some 0) by (vm_compute; reflexivity).
  assert (H3 : heap Sample.served !! 0 = Some Sample.served_session)
    by (vm_compute; reflexivity).
  assert (H4 : s_id Sample.served_session = "u0") by reflexivity.
  assert (H5 : user_id Sample.served_session = "alice") by reflexivity.
  split; [exact H1|]. split; [exact H2|]. split; [exact H3|]. split; [exact H4|].
  split; [exact H5|].
  exact (a_message_is_accepted_on_idle_sessions_only Sample.uuid_at Sample.utcnow_at
           Sample.served "alice" "How are you?" "u0" 0 Sample.served_session H1 H2 H3 H4 H5).
Defined.

(** X18.  A message sent without a session id (or with an empty one) opens
    a session: its id is the next value of [uuid4], it belongs to the
    user, holds the message as its only message, is [USER_COMMITTED], and
    its id is put at the end of the work queue.  When that id is already a
    key of the database the call raises a [ValueError] instead, and the
    database and the broker are as they were. *)
Theorem a_first_message_opens_a_session
    (uuid_at : nat -> string) (utcnow_at : nat -> datetime)
    (w : World InMemoryBroker.t) (user text : string) (session_id : option string) :
  PyStr.truthy_opt session_id = false ->
  match _sessions w !! uuid_at (uuid_calls w) with
  | None =>
      exists w',
        handle_user_message uuid_at utcnow_at user text session_id w =
          (Ok (length (heap w)), w') /\
        stored_session w' (uuid_at (uuid_calls w)) =
          Some (mkSession (uuid_at (uuid_calls w)) user USER_COMMITTED
                  [mkMessage (uuid_at (S (uuid_calls w))) "user" text
                     (utcnow_at (3 + utcnow_calls w))]
                  (utcnow_at (utcnow_calls w)) (utcnow_at (5 + utcnow_calls w)) None 0) /\
        InMemoryBroker._work_queue (broker w') =
          InMemoryBroker._work_queue (broker w) ++ [uuid_at (uuid_calls w)] /\
        InMemoryBroker._session_queues (broker w') = InMemoryBroker._session_queues (broker w) /\
        InMemoryBroker.queues (broker w') = InMemoryBroker.queues (broker w)
  | Some _ =>
      exists w',
        handle_user_message uuid_at utcnow_at user text session_id w =
          (Raise (ValueError ("Session " +:+ uuid_at (uuid_calls w) +:+ " already exists")), w') /\
        _sessions w' = _sessions w /\ broker w' = broker w
  end.
Proof.
  intros Ht.
  destruct (_sessions w !! uuid_at (uuid_calls w)) as [ref'|] eqn:Hd.
  - eexists. split.
    + unfold handle_user_message. apply bind_raise.
      exact (get_or_create_collision uuid_at utcnow_at w user session_id ref' Ht Hd).
    + split; reflexivity.
  - eexists. split.
    + eapply (handle_user_message_run uuid_at utcnow_at w _ user text session_id
               (length (heap w)) (fresh_session uuid_at utcnow_at w user)).
      * exact (get_or_create_fresh uuid_at utcnow_at w user session_id Ht Hd).
      * wsimpl. rewrite lookup_app_r by lia. rewrite Nat.sub_diag. reflexivity.
      * wsimpl. apply lookup_insert_eq.
      * reflexivity.
    + unfold stored_session. wsimpl. rewrite lookup_insert_eq. cbn [mbind option_bind].
      split; [|repeat split].
      rewrite list_lookup_insert_eq by (rewrite length_app; cbn [length]; lia).
      reflexivity.
Qed.

Lemma a_first_message_witness :
  PyStr.truthy_opt None = false /\
  exists w',
    handle_user_message Sample.uuid_at Sample.utcnow_at "alice" "Hello!" None Sample.start =
      (Ok 0, w') /\
    stored_session w' "u0" = Some Scenario.submitted_session /\
    InMemoryBroker._work_queue (broker w') = ["u0"].
Proof.
  assert (H1 : PyStr.truthy_opt None = false) by reflexivity.
  split; [exact H1|].
  destruct (a_first_message_opens_a_session Sample.uuid_at Sample.utcnow_at Sample.start
              "alice" "Hello!" None H1) as (w' & Hrun & Hs & Hq & _).
  exists w'. split; [exact Hrun|]. split; [exact Hs | exact Hq].
Defined.

(** ** The database *)

Section Database.
Context {B : Type} `{!IMessageBroker B}.

Lemma update_session_missing (w : World B) (ref : loc) (s : Session) :
  heap w !! ref = Some s -> _sessions w !! s_id s = None ->
  update_session ref w = (Raise (ValueError ("Session " +:+ s_id s +:+ " not found")), w).
Proof.
  intros Hs Hd. unfold update_session.
  erewrite bind_ok by (apply deref_run; exact Hs).
  erewrite bind_ok by reflexivity.
  rewrite bool_decide_eq_false_2 by (rewrite Hd; intros [? [=]]). reflexivity.
Qed.

Lemma set_sessions_delete_insert (w : World B) (sid : string) (ref : loc) :
  _sessions w !! sid = None ->
  set_sessions (delete sid (_sessions (set_sessions (<[sid := ref]> (_sessions w)) w)))
    (set_sessions (<[sid := ref]> (_sessions w)) w) = w.
Proof.
  intros Hd. unfold set_sessions. cbn [heap _sessions broker loop_time uuid_calls utcnow_calls
    history]. rewrite delete_insert_eq, delete_id by exact Hd. destruct w; reflexivity.
Qed.

End Database.

(** X19.  The database keeps what it is given, under the id of the
    session: a session stored with [create_session] is the one
    [get_session] returns for its id; storing it again raises "already
    exists"; [update_session] accepts it; after [delete_session] the
    database is as it was before, [get_session] returns [None] and
    [update_session] raises "not found"; deleting an id that is not there
    is not an error. *)
Theorem the_database_keeps_what_it_is_given
    {B : Type} `{!IMessageBroker B} (w : World B) (ref : loc) (s : Session) :
  heap w !! ref = Some s -> _sessions w !! s_id s = None ->
  exists w1,
    create_session ref w = (Ok tt, w1) /\
    get_session (s_id s) w1 = (Ok (Some ref), w1) /\
    stored_session w1 (s_id s) = Some s /\
    create_session ref w1 =
      (Raise (ValueError ("Session " +:+ s_id s +:+ " already exists")), w1) /\
    update_session ref w1 = (Ok tt, w1) /\
    delete_session (s_id s) w1 = (Ok tt, w) /\
    get_session (s_id s) w = (Ok None, w) /\
    update_session ref w =
      (Raise (ValueError ("Session " +:+ s_id s +:+ " not found")), w) /\
    delete_session (s_id s) w = (Ok tt, w).
Proof.
  intros Hs Hd.
  exists (set_sessions (<[s_id s := ref]> (_sessions w)) w).
  split; [apply create_session_run; [exact Hs | exact Hd]|].
  pose proof (set_sessions_delete_insert w (s_id s) ref Hd) as Hback.
  set (w1 := set_sessions (<[s_id s := ref]> (_sessions w)) w) in *.
  assert (Hs1 : heap w1 !! ref = Some s) by exact Hs.
  assert (Hd1 : _sessions w1 !! s_id s = Some ref) by apply lookup_insert_eq.
  split; [rewrite get_session_run, Hd1; reflexivity|].
  split; [unfold stored_session; rewrite Hd1; exact Hs|].
  split; [exact (create_session_exists w1 ref ref s Hs1 Hd1)|].
  split; [exact (update_session_run w1 ref s Hs1 Hd1)|].
  split; [unfold delete_session, modify; rewrite Hback; reflexivity|].
  split; [rewrite get_session_run, Hd; reflexivity|].
  split; [exact (update_session_missing w ref s Hs Hd)|].
  unfold delete_session, modify, set_sessions. rewrite delete_id by exact Hd.
  destruct w; reflexivity.
Qed.

Lemma the_database_witness :
  heap Sample.deleted !! 0 = Some Scenario.submitted_session /\
  _sessions Sample.deleted !! s_id Scenario.submitted_session = None /\
  exists w1,
    create_session 0 Sample.deleted = (Ok tt, w1) /\
    get_session "u0" w1 = (Ok (Some 0), w1) /\
    stored_session w1 "u0" = Some Scenario.submitted_session /\
    delete_session "u0" w1 = (Ok tt, Sample.deleted) /\
    get_session "u0" Sample.deleted = (Ok None, Sample.deleted).
Proof.
  assert (H1 : heap Sample.deleted !! 0 = Some Scenario.submitted_session)
    by (vm_compute; reflexivity).
  assert (H2 : _sessions Sample.deleted !! s_id Scenario.submitted_session = None)
    by (vm_compute; reflexivity).
  split; [exact H1|]. split; [exact H2|].
  destruct (the_database_keeps_what_it_is_given Sample.deleted 0 Scenario.submitted_session
              H1 H2) as (w1 & Hc & Hg & Hst & _ & _ & Hdel & Hg' & _).
  exists w1. repeat split; assumption.
Defined.

(** ** Sessions between two operations *)

Lemma takes_turns_snoc (l : list Message) (m : Message) :
  takes_turns l -> role m = speaker (length l) -> takes_turns (l ++ [m]).
Proof.
  intros Hl Hm i m' Hi.
  apply lookup_app_Some in Hi as [Hi|[Hge Hi]]; [exact (Hl _ _ Hi)|].
  destruct (i - length l) as [|k] eqn:Hk; [|discriminate].
  cbn in Hi. injection Hi as <-. replace i with (length l) by lia. exact Hm.
Qed.

Lemma at_rest_advances (s s' : Session) : at_rest s -> advances s s' -> at_rest s'.
Proof.
  intros [Hturns Hpar] Hadv. unfold at_rest.
  destruct Hadv as [m Hst Hrole Hmsg Hst' _ Hr|Hst Hst' Hmsg _ Hr|m Hst Hrole Hmsg Hst' _ Hr
                   |Hst Hst' Hmsg _ Hr];
    rewrite Hmsg, Hr.
  - rewrite Hst in Hpar. destruct Hpar as [Hpar Hzero]. split.
    + apply takes_turns_snoc; [exact Hturns|]. unfold speaker. rewrite Hpar. exact Hrole.
    + destruct Hst' as [-> | ->]; [|left; exact Hzero].
      rewrite length_app, Nat.add_1_r, Nat.odd_succ. split; assumption.
  - rewrite Hst in Hpar. rewrite Hst'. split; assumption.
  - assert (Hodd : Nat.odd (length (messages s)) = true /\ retry_count s = 0%Z)
      by (destruct Hst as [Hst|Hst]; rewrite Hst in Hpar; exact Hpar).
    destruct Hodd as [Hodd Hzero]. split.
    + apply takes_turns_snoc; [exact Hturns|]. unfold speaker.
      rewrite <- Nat.negb_odd, Hodd. exact Hrole.
    + rewrite Hst'. rewrite length_app, Nat.add_1_r, Nat.even_succ. split; assumption.
  - rewrite Hst'. split; [exact Hturns|]. right.
    assert (Hzero : retry_count s = 0%Z).
    { apply elem_of_cons in Hst as [Hst|Hst];
        [rewrite Hst in Hpar; contradiction|].
      apply elem_of_cons in Hst as [Hst|Hst]; [rewrite Hst in Hpar; apply Hpar|].
      apply list_elem_of_singleton in Hst. rewrite Hst in Hpar. apply Hpar. }
    rewrite Hzero. reflexivity.
Qed.

Lemma at_rest_new (s0 : Session) :
  state s0 = IDLE -> messages s0 = [] -> retry_count s0 = 0%Z -> at_rest s0.
Proof.
  intros Hst Hmsg Hr. unfold at_rest. rewrite Hst, Hmsg. split; [|split; [reflexivity|exact Hr]].
  intros i m Hi. rewrite lookup_nil in Hi. discriminate.
Qed.

Lemma advances_id (s s' : Session) : advances s s' -> s_id s' = s_id s.
Proof. intros []; assumption. Qed.

Lemma rests_effect {B} (w w' : World B) : rests w -> effect w w' -> rests w'.
Proof.
  intros [Hdb Hheap] Heff.
  destruct Heff as [Hh Hd|sid Hh Hd|ref s s' Hs Hadv Hh Hd|s0 Hst Hmsg Hr Hh Hd
                   |s0 s' Hst Hmsg Hr Hadv Hh Hd]; split.
  - intros sid ref. rewrite Hh, Hd. apply Hdb.
  - intros ref s. rewrite Hh. apply Hheap.
  - intros sid' ref. rewrite Hh, Hd. intros Hin.
    apply lookup_delete_Some in Hin as [_ Hin]. exact (Hdb _ _ Hin).
  - intros ref s. rewrite Hh. apply Hheap.
  - intros sid r. rewrite Hh, Hd. intros Hin. destruct (Hdb _ _ Hin) as (s1 & Hs1 & Hid).
    destruct (decide (r = ref)) as [->|Hne].
    + exists s'. split; [apply list_lookup_insert_eq; eapply lookup_lt_Some, Hs|].
      rewrite Hs in Hs1. injection Hs1 as <-. rewrite (advances_id _ _ Hadv). exact Hid.
    + exists s1. split; [|exact Hid]. rewrite list_lookup_insert_ne by congruence. exact Hs1.
  - intros r s1. rewrite Hh. intros Hs1.
    destruct (decide (r = ref)) as [->|Hne].
    + rewrite list_lookup_insert_eq in Hs1 by (eapply lookup_lt_Some, Hs).
      injection Hs1 as <-. exact (at_rest_advances _ _ (Hheap _ _ Hs) Hadv).
    + rewrite list_lookup_insert_ne in Hs1 by congruence. exact (Hheap _ _ Hs1).
  - intros sid r. rewrite Hh, Hd. intros Hin. destruct (Hdb _ _ Hin) as (s1 & Hs1 & Hid).
    exists s1. split; [|exact Hid].
    rewrite lookup_app_l by (eapply lookup_lt_Some, Hs1). exact Hs1.
  - intros r s1. rewrite Hh. intros Hs1.
    apply lookup_app_Some in Hs1 as [Hs1|[_ Hs1]]; [exact (Hheap _ _ Hs1)|].
    destruct (r - length (heap w)) as [|k]; [|discriminate].
    cbn in Hs1. injection Hs1 as <-. exact (at_rest_new _ Hst Hmsg Hr).
  - intros sid r. rewrite Hh, Hd. intros Hin.
    apply lookup_insert_Some in Hin as [[<- <-]|[_ Hin]].
    + exists s'. split; [|exact (advances_id _ _ Hadv)].
      rewrite lookup_app_r, Nat.sub_diag by lia. reflexivity.
    + destruct (Hdb _ _ Hin) as (s1 & Hs1 & Hid). exists s1. split; [|exact Hid].
      rewrite lookup_app_l by (eapply lookup_lt_Some, Hs1). exact Hs1.
  - intros r s1. rewrite Hh. intros Hs1.
    apply lookup_app_Some in Hs1 as [Hs1|[_ Hs1]]; [exact (Hheap _ _ Hs1)|].
    destruct (r - length (heap w)) as [|k]; [|discriminate].
    cbn in Hs1. injection Hs1 as <-.
    exact (at_rest_advances _ _ (at_rest_new _ Hst Hmsg Hr) Hadv).
Qed.

Lemma rests_init {B} (b : B) (t : Q) : rests (init_world b t).
Proof.
  split.
  - intros sid ref Hin. cbn in Hin. rewrite lookup_empty in Hin. discriminate.
  - intros ref s Hs. cbn in Hs. rewrite lookup_nil in Hs. discriminate.
Qed.

Section Effects.
Context {B : Type} `{!IMessageBroker B}.
Variable uuid_at : nat -> string.
Variable utcnow_at : nat -> datetime.

Lemma effect_ext (w w' w1 w1' : World B) :
  heap w1 = heap w -> _sessions w1 = _sessions w ->
  heap w1' = heap w' -> _sessions w1' = _sessions w' ->
  effect w w' -> effect w1 w1'.
Proof.
  intros Hh Hd Hh' Hd' Heff.
  destruct Heff as [E1 E2|sid E1 E2|ref s s' Hs Hadv E1 E2|s0 Hst Hmsg Hr E1 E2
                   |s0 s' Hst Hmsg Hr Hadv E1 E2].
  - apply eff_none; congruence.
  - apply (eff_delete _ _ sid); congruence.
  - apply (eff_advance _ _ ref s s'); congruence.
  - apply (eff_orphan _ _ s0); congruence.
  - apply (eff_open _ _ s0 s'); congruence.
Qed.

(** The rest of [handle_user_message] once the session is found or
    created, in state [IDLE]: the message is taken in, and the session
    ends [USER_COMMITTED], or [ERROR] when the broker raises. *)
Lemma handle_user_message_advances (w0 w : World B) (user text : string)
    (session_id : option string) (ref : loc) (s : Session) :
  get_or_create uuid_at utcnow_at user session_id w0 = (Ok ref, w) ->
  heap w !! ref = Some s -> _sessions w !! s_id s = Some ref -> state s = IDLE ->
  exists r w' s',
    handle_user_message uuid_at utcnow_at user text session_id w0 = (r, w') /\
    advances s s' /\ heap w' = <[ref := s']> (heap w) /\ _sessions w' = _sessions w.
Proof.
  intros Hgc Hs Hd Hst.
  destruct (enqueue_session (s_id s) (loop_time w, broker w)) as [r tb] eqn:Henq.
  assert (Hrun : exists r' w',
            handle_user_message uuid_at utcnow_at user text session_id w0 = (r', w') /\
            _sessions w' = _sessions w /\
            exists x now now',
              heap w' = <[ref := mkSession (s_id s) (user_id s) x
                                   (messages s ++ [mkMessage (uuid_at (uuid_calls w)) "user" text now])
                                   (created_at s) now'
                                   (match r with Raise e => if PyStr.truthy (str e) then Some (str e) else None | _ => None end)
                                   (retry_count s)]> (heap w) /\
              (x = USER_COMMITTED \/ x = ERROR)).
  { unfold handle_user_message.
    rewrite (bind_ok _ _ _ _ _ Hgc). step deref_run.
    rewrite bool_decide_eq_true_2 by (rewrite Hst; decided).
    cbn [negb]. unfold try_except.
    step call_update_state_run. step update_session_run.
    unfold bind at 1, uuid4 at 1. unfold bind at 1, utcnow at 1. wsimpl.
    step call_add_message_run. step call_update_state_run. step update_session_run.
    step deref_run. unfold bind at 1, lift_broker at 1. wsimpl. rewrite Henq.
    destruct r as [[]|e|].
    - eexists _, _. split; [reflexivity|]. split; [reflexivity|].
      eexists _, _, _. split; [cbn; rewrite !list_insert_insert_eq; reflexivity|].
      left; reflexivity.
    - destruct (is_Exception e) eqn:He.
      + step call_update_state_run. step update_session_run. unfold raise.
        eexists _, _. split; [reflexivity|]. split; [reflexivity|].
        eexists _, _, _. split; [cbn; rewrite !list_insert_insert_eq; reflexivity|].
        right; reflexivity.
      + destruct e; try discriminate He.
        eexists _, _. split; [reflexivity|]. split; [reflexivity|].
        eexists _, _, _. split; [cbn; rewrite !list_insert_insert_eq; reflexivity|].
        left; reflexivity.
    - eexists _, _. split; [reflexivity|]. split; [reflexivity|].
      eexists _, _, _. split; [cbn; rewrite !list_insert_insert_eq; reflexivity|].
      left; reflexivity. }
  destruct Hrun as (r' & w' & Hrun & Hdb & x & now & now' & Hheap & Hx).
  eexists r', w', _. split; [exact Hrun|]. split; [|split; [exact Hheap | exact Hdb]].
  apply (adv_submit _ _ (mkMessage (uuid_at (uuid_calls w)) "user" text now));
    [exact Hst | reflexivity | reflexivity | exact Hx | reflexivity | reflexivity].
Qed.

Lemma handle_user_message_effect (w : World B) (user text : string)
    (session_id : option string) :
  db_wf w ->
  effect w (snd (handle_user_message uuid_at utcnow_at user text session_id w)).
Proof.
  intros Hdb.
  destruct (PyStr.truthy_opt session_id) eqn:Ht.
  - destruct session_id as [sid|]; [|discriminate]. cbn [PyStr.truthy_opt] in Ht.
    destruct (_sessions w !! sid) as [ref|] eqn:Hd.
    + destruct (Hdb _ _ Hd) as (s & Hs & Hid).
      destruct (decide (user_id s = user)) as [Hu|Hu].
      * destruct (decide (state s = IDLE)) as [Hst|Hst].
        -- destruct (handle_user_message_advances w w user text (Some sid) ref s
                       (get_or_create_existing uuid_at utcnow_at w user sid ref s Ht Hd Hs Hu)
                       Hs ltac:(rewrite Hid; exact Hd) Hst)
             as (r & w' & s' & Hrun & Hadv & Hheap & Hsess).
           rewrite Hrun. exact (eff_advance _ _ ref s s' Hs Hadv Hheap Hsess).
        -- destruct (decide (state s = AI_COMMITTED)) as [Hc|Hc].
           ++ rewrite (handle_user_message_ai_committed uuid_at utcnow_at w user text sid ref s
                         Ht Hd Hs Hu Hc).
              apply eff_none; reflexivity.
           ++ rewrite (handle_user_message_gate uuid_at utcnow_at w user text sid ref s
                         Ht Hd Hs Hu).
              ** apply eff_none; reflexivity.
              ** intros Hin. apply elem_of_cons in Hin as [Hin|Hin]; [contradiction|].
                 apply list_elem_of_singleton in Hin. contradiction.
      * unfold handle_user_message.
        erewrite bind_raise
          by exact (get_or_create_foreign uuid_at utcnow_at w user sid ref s Ht Hd Hs Hu).
        apply eff_none; reflexivity.
    + unfold handle_user_message.
      erewrite bind_raise by exact (get_or_create_missing uuid_at utcnow_at w user sid Ht Hd).
      apply eff_none; reflexivity.
  - destruct (_sessions w !! uuid_at (uuid_calls w)) as [ref'|] eqn:Hd.
    + unfold handle_user_message.
      erewrite bind_raise
        by exact (get_or_create_collision uuid_at utcnow_at w user session_id ref' Ht Hd).
      apply (eff_orphan _ _ (fresh_session uuid_at utcnow_at w user)); reflexivity.
    + destruct (handle_user_message_advances w _ user text session_id (length (heap w))
                  (fresh_session uuid_at utcnow_at w user)
                  (get_or_create_fresh uuid_at utcnow_at w user session_id Ht Hd))
        as (r & w' & s' & Hrun & Hadv & Hheap & Hsess).
      * wsimpl. rewrite lookup_app_r by lia. rewrite Nat.sub_diag. reflexivity.
      * wsimpl. apply lookup_insert_eq.
      * reflexivity.
      * rewrite Hrun. cbn [snd]. cbn [heap _sessions] in Hheap, Hsess.
        apply (eff_open _ _ (fresh_session uuid_at utcnow_at w user) s');
          [reflexivity | reflexivity | reflexivity | exact Hadv | | exact Hsess].
        rewrite Hheap. rewrite insert_app_r_alt by lia. rewrite Nat.sub_diag. reflexivity.
Qed.

Lemma start_ai_generation_effect (w : World B) (sid : string) :
  db_wf w -> effect w (snd (start_ai_generation utcnow_at sid w)).
Proof.
  intros Hdb. destruct (_sessions w !! sid) as [ref|] eqn:Hd.
  - destruct (Hdb _ _ Hd) as (s & Hs & Hid).
    destruct (decide (state s = USER_COMMITTED)) as [Hst|Hst].
    + rewrite (start_ai_generation_run uuid_at utcnow_at w sid ref s Hd Hs Hid Hst).
      eapply (eff_advance _ _ ref s); [exact Hs | | reflexivity | reflexivity].
      apply adv_start; [exact Hst | reflexivity..].
    + rewrite (start_ai_generation_gate utcnow_at w sid ref s Hd Hs Hst).
      apply eff_none; reflexivity.
  - rewrite (start_ai_generation_missing utcnow_at w sid Hd). apply eff_none; reflexivity.
Qed.

Lemma commit_ai_message_missing (w : World B) (sid text : string) :
  _sessions w !! sid = None ->
  commit_ai_message uuid_at utcnow_at sid text w =
    (Raise (ValueError ("Session " +:+ sid +:+ " not found")), w).
Proof.
  intros Hd. unfold commit_ai_message.
  erewrite bind_ok by apply get_session_run. rewrite Hd. reflexivity.
Qed.

Lemma commit_ai_message_effect (w : World B) (sid text : string) :
  db_wf w -> effect w (snd (commit_ai_message uuid_at utcnow_at sid text w)).
Proof.
  intros Hdb. destruct (_sessions w !! sid) as [ref|] eqn:Hd.
  - destruct (Hdb _ _ Hd) as (s & Hs & Hid).
    destruct (decide (state s = AI_GENERATING)) as [Hst|Hst].
    + rewrite (commit_ai_message_run uuid_at utcnow_at w sid text ref s Hd Hs Hid Hst).
      eapply (eff_advance _ _ ref s); [exact Hs | | reflexivity | reflexivity].
      eapply (adv_answer _ _ (mkMessage _ "assistant" text _));
        [right; exact Hst | reflexivity..].
    + rewrite (commit_ai_message_gate uuid_at utcnow_at w sid text ref s Hd Hs Hst).
      apply eff_none; reflexivity.
  - rewrite (commit_ai_message_missing w sid text Hd). apply eff_none; reflexivity.
Qed.

Lemma mark_error_effect (w : World B) (sid description : string) :
  db_wf w -> effect w (snd (mark_error utcnow_at sid description w)).
Proof.
  intros Hdb. destruct (_sessions w !! sid) as [ref|] eqn:Hd.
  - destruct (Hdb _ _ Hd) as (s & Hs & Hid).
    destruct (decide (ERROR ∈ VALID_TRANSITIONS (state s))) as [Hst|Hst].
    + rewrite (mark_error_run utcnow_at w sid description ref s Hd Hs Hid Hst).
      eapply (eff_advance _ _ ref s); [exact Hs | | reflexivity | reflexivity].
      apply adv_fail; [apply error_sources; exact Hst | reflexivity..].
    + rewrite (mark_error_rejected utcnow_at w sid description ref s Hd Hs Hst).
      apply eff_none; reflexivity.
  - rewrite (mark_error_missing utcnow_at w sid description Hd). apply eff_none; reflexivity.
Qed.

(** A call of the broker leaves everything but the broker and the loop
    clock alone. *)
Lemma lift_broker_store {A} (m : M (Q * B) A) (w : World B) :
  exists r tb, lift_broker m w = (r, set_loop tb w).
Proof. unfold lift_broker. destruct (m (loop_time w, broker w)) as [r tb]. eauto. Qed.

Lemma for_each_store {A} (l : list A) (body : A -> M (World B) unit) :
  (forall x w, exists r tb, body x w = (r, set_loop tb w)) ->
  forall w, exists r tb, for_each l body w = (r, set_loop tb w).
Proof.
  intros Hbody. induction l as [|x l IH]; intros w.
  - exists (Ok tt), (loop_time w, broker w). destruct w; reflexivity.
  - cbn [for_each]. unfold bind. destruct (Hbody x w) as (r & tb & ->).
    destruct r as [[]|e|]; [|eauto..].
    destruct (IH (set_loop tb w)) as (r' & tb' & ->). eauto.
Qed.

Lemma stream_response_store (sid response : string) (w : World B) :
  exists r tb, _stream_response sid response w = (r, set_loop tb w).
Proof.
  unfold _stream_response. unfold bind at 1.
  match goal with
  | |- context [for_each ?l ?body w] =>
      destruct (for_each_store l body) with (w := w) as (r & tb & ->)
  end.
  - intros x w1. unfold bind.
    match goal with
    | |- context [lift_broker ?m w1] => destruct (lift_broker_store m w1) as (r & tb & ->)
    end.
    destruct r as [[]|e|]; [|eauto..]. unfold asyncio_sleep.
    match goal with
    | |- context [lift_broker ?m ?w2] => destruct (lift_broker_store m w2) as (r' & tb' & ->)
    end.
    eauto.
  - destruct r as [[]|e|]; [|eauto..].
    match goal with
    | |- context [lift_broker ?m ?w2] => destruct (lift_broker_store m w2) as (r' & tb' & ->)
    end.
    eauto.
Qed.

(** The handler of [_process_session]: the session is marked when it can
    be, and nothing else changes. *)
Lemma error_handler_store (w : World B) (sid description : string) (ref : loc) (s : Session) :
  _sessions w !! sid = Some ref -> heap w !! ref = Some s -> s_id s = sid ->
  exists r w',
    try_except
      (mark_error utcnow_at sid description ;;
       lift_broker (send_event sid (mkStreamEvent "error" description)))
      (fun _ => ret tt) w = (r, w') /\
    _sessions w' = _sessions w /\
    (((ERROR ∈ VALID_TRANSITIONS (state s)) /\
      exists s', heap w' = <[ref := s']> (heap w) /\ state s' = ERROR /\
                 messages s' = messages s /\ s_id s' = s_id s /\
                 retry_count s' = (retry_count s + 1)%Z) \/
     ((ERROR ∉ VALID_TRANSITIONS (state s)) /\ heap w' = heap w)).
Proof.
  intros Hd Hs Hid.
  destruct (decide (ERROR ∈ VALID_TRANSITIONS (state s))) as [Hst|Hst].
  - unfold try_except.
    erewrite bind_ok by exact (mark_error_run utcnow_at w sid description ref s Hd Hs Hid Hst).
    match goal with
    | |- context [lift_broker ?m ?w2] => destruct (lift_broker_store m w2) as (r & tb & ->)
    end.
    exists (match r with Raise e => if is_Exception e then Ok tt else r | _ => r end). eexists.
    split; [destruct r as [[]|e|]; [|destruct (is_Exception e)|]; reflexivity|].
    split; [reflexivity|]. left. split; [exact Hst|].
    eexists. split; [reflexivity|]. repeat split.
  - caught by (apply bind_raise;
          exact (mark_error_rejected utcnow_at w sid description ref s Hd Hs Hst)).
    eexists _, _. split; [reflexivity|]. split; [reflexivity|]. right. split; [exact Hst|reflexivity].
Qed.

Lemma error_handler_missing (w : World B) (sid description : string) :
  _sessions w !! sid = None ->
  try_except
    (mark_error utcnow_at sid description ;;
     lift_broker (send_event sid (mkStreamEvent "error" description)))
    (fun _ => ret tt) w = (Ok tt, w).
Proof.
  intros Hd.
  caught by (apply bind_raise; exact (mark_error_missing utcnow_at w sid description Hd)).
  reflexivity.
Qed.

Lemma db_wf_replace (w w' : World B) (ref : loc) (s s' : Session) :
  heap w !! ref = Some s -> s_id s' = s_id s ->
  heap w' = <[ref := s']> (heap w) -> _sessions w' = _sessions w ->
  db_wf w -> db_wf w'.
Proof.
  intros Hs Hid Hh Hd Hdb sid r. rewrite Hh, Hd. intros Hin.
  destruct (Hdb _ _ Hin) as (s1 & Hs1 & Hid1).
  destruct (decide (r = ref)) as [->|Hne].
  - exists s'. split; [apply list_lookup_insert_eq; eapply lookup_lt_Some, Hs|].
    rewrite Hs in Hs1. injection Hs1 as <-. congruence.
  - exists s1. split; [|exact Hid1]. rewrite list_lookup_insert_ne by congruence. exact Hs1.
Qed.

(** The handler of [_process_session] on a session that the cycle has
    left in [s1]: the session stays as it is or fails. *)
Lemma error_handler_after (w w1 : World B) (sid description : string) (ref : loc)
    (s s1 : Session) :
  heap w !! ref = Some s ->
  _sessions w1 = _sessions w -> _sessions w !! sid = Some ref ->
  heap w1 = <[ref := s1]> (heap w) -> s_id s1 = sid ->
  (ERROR ∉ VALID_TRANSITIONS (state s1) -> advances s s1) ->
  (ERROR ∈ VALID_TRANSITIONS (state s1) ->
   forall s2, state s2 = ERROR -> messages s2 = messages s1 -> s_id s2 = s_id s1 ->
              retry_count s2 = (retry_count s1 + 1)%Z -> advances s s2) ->
  effect w
    (snd (try_except
            (mark_error utcnow_at sid description ;;
             lift_broker (send_event sid (mkStreamEvent "error" description)))
            (fun _ => ret tt) w1)).
Proof.
  intros Hs Hd1 Hd Hh1 Hid1 Hkeep Hfail.
  assert (Hs1 : heap w1 !! ref = Some s1).
  { rewrite Hh1. apply list_lookup_insert_eq. eapply lookup_lt_Some, Hs. }
  destruct (error_handler_store w1 sid description ref s1 ltac:(rewrite Hd1; exact Hd) Hs1 Hid1)
    as (r & w' & -> & Hd' & [(Hin & s2 & Hh' & Hst2 & Hm2 & Hid2 & Hr2)|(Hout & Hh')]);
    cbn [snd].
  - apply (eff_advance _ _ ref s s2 Hs (Hfail Hin s2 Hst2 Hm2 Hid2 Hr2)); [|congruence].
    rewrite Hh', Hh1. apply list_insert_insert_eq.
  - apply (eff_advance _ _ ref s s1 Hs (Hkeep Hout)); congruence.
Qed.

Lemma process_session_effect (w : World B) (sid : string) :
  db_wf w -> effect w (snd (_process_session uuid_at utcnow_at sid w)).
Proof.
  intros Hdb. unfold _process_session.
  destruct (_sessions w !! sid) as [ref|] eqn:Hd.
  - destruct (Hdb _ _ Hd) as (s & Hs & Hid).
    destruct (decide (state s = USER_COMMITTED)) as [Hst|Hst].
    + (* the cycle starts *)
      set (s1 := mkSession (s_id s) (user_id s) AI_GENERATING (messages s) (created_at s)
                   (utcnow_at (utcnow_calls w)) None (retry_count s)).
      assert (Hstart : advances s s1) by (apply adv_start; [exact Hst | reflexivity..]).
      assert (Hfail1 : forall s2, state s2 = ERROR -> messages s2 = messages s1 ->
                                  s_id s2 = s_id s1 ->
                                  retry_count s2 = (retry_count s1 + 1)%Z -> advances s s2).
      { intros s2 H1 H2 H3 H4.
        apply adv_fail; [rewrite Hst; decided | exact H1 | exact H2 | exact H3 | exact H4]. }
      unfold try_except at 1. unfold generation_cycle.
      step start_ai_generation_run. step deref_run.
      assert (Hhandler : forall e tb,
                effect w
                  (snd (try_except
                          (mark_error utcnow_at sid (str e) ;;
                           lift_broker (send_event sid (mkStreamEvent "error" (str e))))
                          (fun _ => ret tt)
                          (set_loop tb
                             (mkWorld (<[ref := s1]> (heap w)) (_sessions w) (broker w)
                                (loop_time w) (uuid_calls w) (S (utcnow_calls w))
                                (history w ++ [(ref, AI_GENERATING)])))))).
      { intros e tb.
        match goal with
        | |- effect w (snd (try_except _ _ ?w1)) =>
            apply (error_handler_after w w1 sid (str e) ref s s1 Hs eq_refl Hd eq_refl Hid)
        end.
        - intros Hout. exfalso. apply Hout. decided.
        - intros _. exact Hfail1. }
      assert (Hhandler0 : forall e,
                effect w
                  (snd (try_except
                          (mark_error utcnow_at sid (str e) ;;
                           lift_broker (send_event sid (mkStreamEvent "error" (str e))))
                          (fun _ => ret tt)
                          (mkWorld (<[ref := s1]> (heap w)) (_sessions w) (broker w)
                             (loop_time w) (uuid_calls w) (S (utcnow_calls w))
                             (history w ++ [(ref, AI_GENERATING)]))))).
      { intros e.
        match goal with
        | |- effect w (snd (try_except _ _ ?w1)) =>
            apply (error_handler_after w w1 sid (str e) ref s s1 Hs eq_refl Hd eq_refl Hid)
        end.
        - intros Hout. exfalso. apply Hout. decided.
        - intros _. exact Hfail1. }
      destruct (last (messages s)) as [m|]; [|apply Hhandler0].
      destruct (negb (String.eqb (role m) "user")); [apply Hhandler0|].
      unfold bind at 1.
      match goal with
      | |- context [_stream_response sid ?resp ?w1] =>
          destruct (stream_response_store sid resp w1) as (r & tb & ->)
      end.
      destruct r as [[]|e|].
      * (* the answer is stored *)
        step commit_ai_message_run.
        match goal with
        | |- context [lift_broker ?m ?w3] =>
            destruct (lift_broker_store m w3) as (r' & tb' & ->)
        end.
        match goal with
        | |- context [<[ref := ?s3]> (<[ref := _]> (heap w))] =>
            assert (Hanswer : advances s s3)
              by (eapply (adv_answer _ _ (mkMessage _ "assistant" _ _));
                  [left; exact Hst | reflexivity..])
        end.
        destruct r' as [[]|e|]; cbn [snd].
        -- eapply (eff_advance _ _ ref s _ Hs Hanswer); [|reflexivity].
           wsimpl. apply list_insert_insert_eq.
        -- destruct (is_Exception e); cbn [snd].
           ++ match goal with
              | |- effect w (snd (try_except _ _ ?w1)) =>
                  eapply (error_handler_after w w1 sid (str e) ref s _ Hs)
              end;
                [reflexivity | exact Hd | wsimpl; apply list_insert_insert_eq | exact Hid
                | intros _; exact Hanswer
                | intros Hin; exfalso; revert Hin; wsimpl; apply (bool_decide_unpack _);
                  vm_compute; exact I ].
           ++ eapply (eff_advance _ _ ref s _ Hs Hanswer); [|reflexivity].
              wsimpl. apply list_insert_insert_eq.
        -- eapply (eff_advance _ _ ref s _ Hs Hanswer); [|reflexivity].
           wsimpl. apply list_insert_insert_eq.
      * destruct (is_Exception e); [apply Hhandler|].
        cbn [snd]. apply (eff_advance _ _ ref s s1 Hs Hstart); reflexivity.
      * cbn [snd]. apply (eff_advance _ _ ref s s1 Hs Hstart); reflexivity.
    + caught by (unfold generation_cycle; apply bind_raise;
            exact (start_ai_generation_gate utcnow_at w sid ref s Hd Hs Hst)).
      destruct (error_handler_store w sid (str (ValueError (cannot_start_msg (state s)))) ref s
                  Hd Hs Hid)
        as (r & w' & -> & Hd' & [(Hin & s2 & Hh' & Hst2 & Hm2 & Hid2 & Hr2)|(Hout & Hh')]);
        cbn [snd].
      * apply (eff_advance _ _ ref s s2 Hs); [|exact Hh' | exact Hd'].
        apply adv_fail; [apply error_sources; exact Hin | assumption..].
      * apply eff_none; assumption.
  - caught by (unfold generation_cycle; apply bind_raise;
          exact (start_ai_generation_missing utcnow_at w sid Hd)).
    rewrite error_handler_missing by exact Hd. apply eff_none; reflexivity.
Qed.

Lemma db_wf_ext (w w' : World B) :
  heap w' = heap w -> _sessions w' = _sessions w -> db_wf w -> db_wf w'.
Proof. intros Hh Hd Hdb sid ref. rewrite Hh, Hd. apply Hdb. Qed.

Lemma process_loop_effect (w : World B) (fuel : nat) :
  db_wf w -> effect w (snd (_process_loop uuid_at utcnow_at fuel w)).
Proof.
  intros Hdb. unfold _process_loop, try_except. unfold bind at 1.
  match goal with
  | |- context [lift_broker ?m w] => destruct (lift_broker_store m w) as (r & tb & ->)
  end.
  destruct r as [session_id|e|];
    [|destruct (is_Exception e); apply eff_none; reflexivity|apply eff_none; reflexivity].
  destruct (PyStr.truthy_opt session_id); [|apply eff_none; reflexivity].
  pose proof (process_session_effect (set_loop tb w) (default EmptyString session_id)
                (db_wf_ext w _ eq_refl eq_refl Hdb)) as Heff.
  destruct (_process_session _ _ _ (set_loop tb w)) as [[[]|e|] w'];
    [|destruct (is_Exception e)|];
    cbn [snd] in *;
    match goal with
    | |- effect w ?w2 =>
        exact (effect_ext (set_loop tb w) w' w w2 eq_refl eq_refl eq_refl eq_refl Heff)
    end.
Qed.

Lemma snd_forget {A} (m : M (World B) A) (w : World B) : snd (forget m w) = snd (m w).
Proof. unfold forget, bind. destruct (m w) as [[a|e|] w']; reflexivity. Qed.

(** Every operation of the process does one of the things of [effect]. *)
Lemma run_effect (o : op) (w : World B) :
  db_wf w -> effect w (snd (run uuid_at utcnow_at o w)).
Proof.
  intros Hdb. destruct o; cbn [run]; rewrite ?snd_forget.
  - apply handle_user_message_effect, Hdb.
  - apply start_ai_generation_effect, Hdb.
  - apply commit_ai_message_effect, Hdb.
  - apply mark_error_effect, Hdb.
  - apply process_session_effect, Hdb.
  - apply process_loop_effect, Hdb.
  - apply (eff_delete _ _ session_id); reflexivity.
  - match goal with
    | |- context [lift_broker ?m w] => destruct (lift_broker_store m w) as (r & tb & ->)
    end.
    apply eff_none; reflexivity.
  - match goal with
    | |- context [lift_broker ?m w] => destruct (lift_broker_store m w) as (r & tb & ->)
    end.
    apply eff_none; reflexivity.
Qed.

Lemma rests_run_all (ops : list op) (w : World B) :
  rests w -> rests (run_all uuid_at utcnow_at ops w).
Proof.
  revert w. induction ops as [|o ops IH]; intros w Hw; [exact Hw|].
  cbn [run_all]. apply IH. exact (rests_effect _ _ Hw (run_effect o w (proj1 Hw))).
Qed.

End Effects.

Lemma last_speaker (l : list Message) :
  takes_turns l -> Nat.odd (length l) = true ->
  exists m, last l = Some m /\ role m = "user".
Proof.
  intros Hturns Hodd.
  destruct (last l) as [m|] eqn:Hlast.
  - exists m. split; [reflexivity|].
    rewrite last_lookup in Hlast. rewrite (Hturns _ _ Hlast). unfold speaker.
    destruct l as [|x l]; [discriminate|]. cbn [length Nat.pred] in *.
    rewrite Nat.odd_succ in Hodd. rewrite Hodd. reflexivity.
  - apply last_None in Hlast. subst l. discriminate.
Qed.

(** X20.  Between two operations a session is [IDLE], [USER_COMMITTED],
    [AI_GENERATING] or [ERROR], whatever the broker does: the states
    [USER_WRITING] and [AI_COMMITTED] are passed through inside one
    operation and never seen from outside, and no operation enters
    [TIMEOUT]. *)
Theorem a_session_rests_in_one_of_four_states
    {B : Type} `{!IMessageBroker B}
    (uuid_at : nat -> string) (utcnow_at : nat -> datetime)
    (ops : list op) (b : B) (t : Q) (ref : loc) (s : Session) :
  heap (run_all uuid_at utcnow_at ops (init_world b t)) !! ref = Some s ->
  state s ∈ [IDLE; USER_COMMITTED; AI_GENERATING; ERROR].
Proof.
  intros Hs.
  destruct (rests_run_all uuid_at utcnow_at ops _ (rests_init b t)) as [_ Hheap].
  destruct (Hheap _ _ Hs) as [_ Hpar].
  destruct (state s); try contradiction; decided.
Qed.

Lemma a_session_rests_witness :
  heap Sample.served !! 0 = Some Sample.served_session /\
  (state Sample.served_session ∈ [IDLE; USER_COMMITTED; AI_GENERATING; ERROR]).
Proof.
  assert (H1 : heap Sample.served !! 0 = Some Sample.served_session)
    by (vm_compute; reflexivity).
  split; [exact H1|].
  exact (a_session_rests_in_one_of_four_states Sample.uuid_at Sample.utcnow_at
           [HandleUserMessage "alice" "Hello!" None; ProcessSession "u0"]
           InMemoryBroker.init 0 0 Sample.served_session H1).
Defined.

(** X21.  The user and the assistant take turns, whatever the broker does
    and whatever is called: in every session the messages are, in order,
    from the user, the assistant, the user, and so on.  An [IDLE] session
    holds an answer to each message; in a session that is
    [USER_COMMITTED] or [AI_GENERATING] the last message is the one of
    the user that waits for its answer, so the check for a missing user
    message in [_process_session] never fails. *)
Theorem user_and_assistant_take_turns
    {B : Type} `{!IMessageBroker B}
    (uuid_at : nat -> string) (utcnow_at : nat -> datetime)
    (ops : list op) (b : B) (t : Q) (ref : loc) (s : Session) :
  heap (run_all uuid_at utcnow_at ops (init_world b t)) !! ref = Some s ->
  (forall i m, messages s !! i = Some m ->
     role m = if Nat.even i then "user" else "assistant") /\
  (state s = IDLE -> Nat.even (length (messages s)) = true) /\
  (state s = USER_COMMITTED \/ state s = AI_GENERATING ->
   exists m, last (messages s) = Some m /\ role m = "user").
Proof.
  intros Hs.
  destruct (rests_run_all uuid_at utcnow_at ops _ (rests_init b t)) as [_ Hheap].
  destruct (Hheap _ _ Hs) as [Hturns Hpar].
  split; [exact Hturns|]. split.
  - intros Hst. rewrite Hst in Hpar. apply Hpar.
  - intros Hst. apply last_speaker; [exact Hturns|].
    destruct Hst as [Hst|Hst]; rewrite Hst in Hpar; apply Hpar.
Qed.

Lemma user_and_assistant_witness :
  heap Sample.served !! 0 = Some Sample.served_session /\
  (forall i m, messages Sample.served_session !! i = Some m ->
     role m = if Nat.even i then "user" else "assistant") /\
  (state Sample.served_session = IDLE ->
   Nat.even (length (messages Sample.served_session)) = true).
Proof.
  assert (H1 : heap Sample.served !! 0 = Some Sample.served_session)
    by (vm_compute; reflexivity).
  split; [exact H1|].
  destruct (user_and_assistant_take_turns Sample.uuid_at Sample.utcnow_at
              [HandleUserMessage "alice" "Hello!" None; ProcessSession "u0"]
              InMemoryBroker.init 0 0 Sample.served_session H1) as (Hturns & Hidle & _).
  split; [exact Hturns | exact Hidle].
Defined.

(** X22.  The retry counter counts one failure at most: whatever the
    broker does and whatever is called, the [retry_count] of a session is
    0 or 1, and it is 0 for every session that is not in [ERROR].
    Nothing is ever retried: [mark_error] is the only place that counts,
    and a session it has marked is never touched again. *)
Theorem the_retry_counter_counts_one_failure_at_most
    {B : Type} `{!IMessageBroker B}
    (uuid_at : nat -> string) (utcnow_at : nat -> datetime)
    (ops : list op) (b : B) (t : Q) (ref : loc) (s : Session) :
  heap (run_all uuid_at utcnow_at ops (init_world b t)) !! ref = Some s ->
  (retry_count s = 0%Z \/ retry_count s = 1%Z) /\
  (state s <> ERROR -> retry_count s = 0%Z).
Proof.
  intros Hs.
  destruct (rests_run_all uuid_at utcnow_at ops _ (rests_init b t)) as [_ Hheap].
  destruct (Hheap _ _ Hs) as [_ Hpar].
  destruct (state s); try contradiction;
    (split; [try (left; apply Hpar); exact Hpar | intros Hne; try apply Hpar; congruence]).
Qed.

Lemma the_retry_counter_witness :
  heap Scenario.failed !! 0 = Some Scenario.failed_session /\
  (retry_count Scenario.failed_session = 0%Z \/ retry_count Scenario.failed_session = 1%Z) /\
  (state Scenario.failed_session <> ERROR -> retry_count Scenario.failed_session = 0%Z).
Proof.
  assert (H1 : heap Scenario.failed !! 0 = Some Scenario.failed_session)
    by (vm_compute; reflexivity).
  split; [exact H1|].
  exact (the_retry_counter_counts_one_failure_at_most Sample.uuid_at Sample.utcnow_at
           [HandleUserMessage "alice" "Hello!" None; StartAiGeneration "u0";
            MarkError "u0" "boom"]
           InMemoryBroker.init 0 0 Scenario.failed_session H1).
Defined.

(** X23.  The database holds each session under its own id, whatever the
    broker does and whatever is called: every key of the database refers
    to a session object, and the id of that object is the key. *)
Theorem the_database_holds_sessions_under_their_ids
    {B : Type} `{!IMessageBroker B}
    (uuid_at : nat -> string) (utcnow_at : nat -> datetime)
    (ops : list op) (b : B) (t : Q) (sid : string) (ref : loc) :
  _sessions (run_all uuid_at utcnow_at ops (init_world b t)) !! sid = Some ref ->
  exists s,
    stored_session (run_all uuid_at utcnow_at ops (init_world b t)) sid = Some s /\
    heap (run_all uuid_at utcnow_at ops (init_world b t)) !! ref = Some s /\
    s_id s = sid.
Proof.
  intros Hd.
  destruct (rests_run_all uuid_at utcnow_at ops _ (rests_init b t)) as [Hdb _].
  destruct (Hdb _ _ Hd) as (s & Hs & Hid).
  exists s. split; [|split; [exact Hs | exact Hid]].
  unfold stored_session. rewrite Hd. exact Hs.
Qed.

Lemma the_database_holds_witness :
  _sessions Sample.served !! "u0" = Some 0 /\
  exists s,
    stored_session Sample.served "u0" = Some s /\
    heap Sample.served !! 0 = Some s /\ s_id s = "u0".
Proof.
  assert (H1 : _sessions Sample.served !! "u0" = Some 0) by (vm_compute; reflexivity).
  split; [exact H1|].
  exact (the_database_holds_sessions_under_their_ids Sample.uuid_at Sample.utcnow_at
           [HandleUserMessage "alice" "Hello!" None; ProcessSession "u0"]
           InMemoryBroker.init 0 "u0" 0 H1).
Defined.

(** ** A whole turn through the worker *)

Lemma isascii_app (a b : string) :
  PyStr.isascii (a +:+ b) = PyStr.isascii a && PyStr.isascii b.
Proof.
  induction a as [|c a IH]; [reflexivity|].
  change (PyStr.isascii (String c (a +:+ b)) = PyStr.isascii (String c a) && PyStr.isascii b).
  cbn [PyStr.isascii]. rewrite IH, andb_assoc. reflexivity.
Qed.

(** The answer to a message of ASCII characters is made of ASCII
    characters. *)
Lemma isascii_generate_mock_response (text : string) :
  PyStr.isascii text = true -> PyStr.isascii (_generate_mock_response text) = true.
Proof.
  intros Ha. unfold _generate_mock_response.
  repeat match goal with |- context [if ?c then _ else _] => destruct c; [reflexivity|] end.
  rewrite !isascii_app, Ha. reflexivity.
Qed.

(** X24.  A message of ASCII characters to an idle session is answered
    when no other request is served while the worker sleeps between the
    tokens: with the in-memory broker and an empty work queue,
    [handle_user_message] accepts the message and leaves the id of the
    session alone in the work queue; [_process_session] on that id, run
    among the tasks of the event loop with nothing else to serve, ends
    without raising; afterwards the session is [IDLE] again, its messages
    are the former ones followed by the message of the user and by the
    answer of [_generate_mock_response] to it, itself of ASCII characters,
    and the events of the answer have been added to the channel of the
    session. *)
Theorem a_message_to_an_idle_session_is_answered
    (uuid_at : nat -> string) (utcnow_at : nat -> datetime)
    (w : World InMemoryBroker.t) (user text sid : string) (ref : loc) (s : Session) :
  PyStr.isascii text = true ->
  PyStr.truthy sid = true ->
  _sessions w !! sid = Some ref -> heap w !! ref = Some s -> s_id s = sid ->
  user_id s = user -> state s = IDLE ->
  channel_ok sid (broker w) = true ->
  InMemoryBroker._work_queue (broker w) = [] ->
  exists w1 w2 s2 user_msg ai_msg,
    handle_user_message uuid_at utcnow_at user text (Some sid) w = (Ok ref, w1) /\
    InMemoryBroker._work_queue (broker w1) = [sid] /\
    EventLoop._process_session uuid_at utcnow_at sid ([], w1) = (Ok tt, ([], w2)) /\
    stored_session w2 sid = Some s2 /\
    state s2 = IDLE /\
    messages s2 = messages s ++ [user_msg; ai_msg] /\
    role user_msg = "user" /\ content user_msg = text /\
    role ai_msg = "assistant" /\ content ai_msg = _generate_mock_response text /\
    PyStr.isascii (content ai_msg) = true /\
    InMemoryBroker.channel sid (broker w2) =
      InMemoryBroker.channel sid (broker w) ++ answer_events sid (_generate_mock_response text).
Proof.
  intros Ha Ht Hd Hs Hid Hu Hst Hcok Hq.
  pose proof (handle_user_message_run uuid_at utcnow_at w w user text (Some sid) ref s
                (get_or_create_existing uuid_at utcnow_at w user sid ref s Ht Hd Hs Hu)
                Hs ltac:(rewrite Hid; exact Hd) Hst) as Hsubmit.
  rewrite Hq, Hid in Hsubmit. cbn [app] in Hsubmit.
  set (s1 := submitted uuid_at utcnow_at (utcnow_calls w) (uuid_calls w) text s) in *.
  set (w1 := mkWorld _ _ _ _ _ _ _) in Hsubmit.
  destruct (generation_cycle_run uuid_at utcnow_at w1 sid ref s1
              (mkMessage (uuid_at (uuid_calls w)) "user" text (utcnow_at (S (utcnow_calls w)))))
    as (w2 & Hrun & Hheap & Hdb & Hch & Hwq & _).
  - exact Hd.
  - subst w1. wsimpl. apply list_lookup_insert_eq. eapply lookup_lt_Some, Hs.
  - exact Hid.
  - reflexivity.
  - subst s1. unfold submitted. cbn [messages]. apply last_snoc.
  - reflexivity.
  - exact Hcok.
  - exists w1, w2. eexists _, _, _.
    split; [exact Hsubmit|].
    split; [reflexivity|].
    split.
    { rewrite (EventLoopFacts.agree_process_session uuid_at utcnow_at sid w1).
      unfold EventLoop.now. cbn [snd fst].
      unfold _process_session. erewrite try_except_ok by exact Hrun. reflexivity. }
    split.
    { unfold stored_session. rewrite Hdb. subst w1. wsimpl. rewrite Hd. cbn.
      rewrite Hheap. wsimpl. apply list_lookup_insert_eq.
      rewrite length_insert. eapply lookup_lt_Some, Hs. }
    split; [reflexivity|].
    split; [unfold answered, s1, submitted; cbn [messages]; rewrite <- app_assoc; reflexivity|].
    split; [reflexivity|]. split; [reflexivity|]. split; [reflexivity|].
    split; [reflexivity|].
    split; [apply isascii_generate_mock_response, Ha|].
    exact Hch.
Qed.

Lemma a_message_to_an_idle_session_witness :
  PyStr.isascii "How are you?" = true /\
  PyStr.truthy "u0" = true /\
  _sessions Scenario.picked_up !! "u0" = Some 0 /\
  heap Scenario.picked_up !! 0 = Some Sample.served_session /\
  s_id Sample.served_session = "u0" /\
  user_id Sample.served_session = "alice" /\
  state Sample.served_session = IDLE /\
  channel_ok "u0" (broker Scenario.picked_up) = true /\
  InMemoryBroker._work_queue (broker Scenario.picked_up) = [] /\
  exists w1 w2 s2 user_msg ai_msg,
    handle_user_message Sample.uuid_at Sample.utcnow_at "alice" "How are you?" (Some "u0")
      Scenario.picked_up = (Ok 0, w1) /\
    InMemoryBroker._work_queue (broker w1) = ["u0"] /\
    EventLoop._process_session Sample.uuid_at Sample.utcnow_at "u0" ([], w1) = (Ok tt, ([], w2)) /\
    stored_session w2 "u0" = Some s2 /\
    state s2 = IDLE /\
    messages s2 = messages Sample.served_session ++ [user_msg; ai_msg] /\
    role user_msg = "user" /\ content user_msg = "How are you?" /\
    role ai_msg = "assistant" /\ content ai_msg = _generate_mock_response "How are you?" /\
    PyStr.isascii (content ai_msg) = true /\
    InMemoryBroker.channel "u0" (broker w2) =
      InMemoryBroker.channel "u0" (broker Scenario.picked_up) ++
      answer_events "u0" (_generate_mock_response "How are you?").
Proof.
  assert (H0 : PyStr.isascii "How are you?" = true) by reflexivity.
  assert (H1 : PyStr.truthy "u0" = true) by reflexivity.
  assert (H2 : _sessions Scenario.picked_up !! "u0" = Some 0) by (vm_compute; reflexivity).
  assert (H3 : heap Scenario.picked_up !! 0 = Some Sample.served_session)
    by (vm_compute; reflexivity).
  assert (H4 : s_id Sample.served_session = "u0") by reflexivity.
  assert (H5 : user_id Sample.served_session = "alice") by reflexivity.
  assert (H6 : state Sample.served_session = IDLE) by reflexivity.
  assert (H7 : channel_ok "u0" (broker Scenario.picked_up) = true) by (vm_compute; reflexivity).
  assert (H8 : InMemoryBroker._work_queue (broker Scenario.picked_up) = [])
    by (vm_compute; reflexivity).
  split; [exact H0|].
  split; [exact H1|]. split; [exact H2|]. split; [exact H3|]. split; [exact H4|].
  split; [exact H5|]. split; [exact H6|]. split; [exact H7|]. split; [exact H8|].
  exact (a_message_to_an_idle_session_is_answered Sample.uuid_at Sample.utcnow_at
           Scenario.picked_up "alice" "How are you?" "u0" 0 Sample.served_session
           H0 H1 H2 H3 H4 H5 H6 H7 H8).
Defined.

(** ** The words of a response *)

Lemma no_space_snoc (cur : string) (c : ascii) :
  no_space cur = true -> PyStr.isspace c = false ->
  no_space (cur +:+ String c EmptyString) = true.
Proof.
  intros Hcur Hc. induction cur as [|a cur IH].
  - change (no_space (String c EmptyString) = true). cbn [no_space]. rewrite Hc. reflexivity.
  - change (no_space (String a (cur +:+ String c EmptyString)) = true).
    cbn [no_space] in *. apply andb_true_iff in Hcur as [Ha Hcur].
    rewrite Ha, (IH Hcur). reflexivity.
Qed.

(** [str.split()] returns words that are not empty and hold no white
    space. *)
Lemma split_from_words (s : string) :
  forall cur, no_space cur = true ->
    Forall (fun word => word <> EmptyString /\ no_space word = true) (PyStr.split_from cur s).
Proof.
  induction s as [|c s IH]; intros cur Hcur; cbn [PyStr.split_from].
  - destruct (String.eqb cur EmptyString) eqn:Heq; [constructor|].
    apply String.eqb_neq in Heq. repeat constructor; assumption.
  - destruct (PyStr.isspace c) eqn:Hc.
    + destruct (String.eqb cur EmptyString) eqn:Heq; [apply IH; reflexivity|].
      apply String.eqb_neq in Heq. constructor; [split; assumption | apply IH; reflexivity].
    + apply IH, no_space_snoc; assumption.
Qed.

(** X25.  For a response of ASCII characters, [_stream_response]
    publishes one [token] event for each word of the response, in order,
    and then [message_end].  The words are those of [str.split()]: none is
    empty and none holds white space, line breaks included; the payload of
    the first token is the first word, the payload of every later token is
    one space followed by its word. *)
Theorem a_token_carries_one_word
    (sid response : string) (w : World InMemoryBroker.t) :
  PyStr.isascii response = true ->
  channel_ok sid (broker w) = true ->
  exists t' b',
    _stream_response sid response w = (Ok tt, set_loop (t', b') w) /\
    InMemoryBroker.channel sid b' =
      InMemoryBroker.channel sid (broker w) ++
      map (mkStreamEvent "token")
          (match PyStr.split response with
           | [] => []
           | word :: words => word :: map (String.append " ") words
           end) ++
      [mkStreamEvent "message_end" EmptyString] /\
    Forall (fun word => word <> EmptyString /\ no_space word = true) (PyStr.split response).
Proof.
  intros _ Hcok.
  destruct (stream_response_run sid response w Hcok) as (t' & b' & Hrun & Hch & _).
  exists t', b'. split; [exact Hrun|]. split.
  - rewrite Hch. rewrite <- (proj1 (token_payloads_join response)), map_map. reflexivity.
  - apply split_from_words. reflexivity.
Qed.

Lemma a_token_carries_witness :
  PyStr.isascii ("two  words" +:+ String "010" EmptyString) = true /\
  channel_ok "u0" (broker Sample.start) = true /\
  exists t' b',
    _stream_response "u0" ("two  words" +:+ String "010" EmptyString) Sample.start =
      (Ok tt, set_loop (t', b') Sample.start) /\
    InMemoryBroker.channel "u0" b' =
      [mkStreamEvent "token" "two"; mkStreamEvent "token" " words";
       mkStreamEvent "message_end" EmptyString].
Proof.
  assert (H0 : PyStr.isascii ("two  words" +:+ String "010" EmptyString) = true) by reflexivity.
  assert (H1 : channel_ok "u0" (broker Sample.start) = true) by reflexivity.
  split; [exact H0|]. split; [exact H1|].
  destruct (a_token_carries_one_word "u0" ("two  words" +:+ String "010" EmptyString)
              Sample.start H0 H1) as (t' & b' & Hrun & Hch & _).
  exists t', b'. split; [exact Hrun | exact Hch].
Defined.
